(** * farmOS.js: the request pipeline of the client, embedded and verified

    The client of [src/index.js] is a closure over two tokens
    ([farm.token], [farm.csrfToken]) that talks to a farmOS server
    through three outside libraries: axios (HTTP), simple-oauth2 (token
    objects) and the platform's [URL] class.  The embedding keeps that
    shape:

    - JavaScript values are a small [Json] type with the language's own
      rules for property access, [concat], string conversion and
      strict equality written out;
    - the outside libraries are the fields of a record [Env], so that
      every theorem holds for every server and every OAuth library;
    - a call of a client function is a state transformer that returns
      an [Outcome]: a plain value, a synchronous throw, or a promise
      that fulfilled, rejected or is still pending when the fuel of the
      pagination walk has run out;
    - the network is a log of exchanges, [history], which the server
      oracle reads and which the theorems count requests in. *)

From Stdlib Require Import String Ascii List ZArith Arith Lia Bool Permutation.
From Stdlib Require Import DecimalString.
From Equations Require Import Equations.
Import ListNotations.
Local Open Scope string_scope.
Set Warnings "-register-all".

(** ** JavaScript values *)

(** The values the client handles: what [JSON.parse] produces, plus
    [undefined].  Numbers are the integers (identifiers, page numbers,
    vocabulary ids); other doubles do not occur in the claims. *)
Inductive Json : Type :=
| JUndefined
| JNull
| JBool (b : bool)
| JNum (n : Z)
| JStr (s : string)
| JArr (items : list Json)
| JObj (fields : list (string * Json)).

Inductive JsError : Type :=
| Error (message : string)       (* new Error(message) *)
| TypeError (message : string)   (* raised by the language itself *)
| Failure (reason : Json).       (* a rejection of axios or simple-oauth2 *)

Definition string_of_nat (n : nat) : string :=
  NilEmpty.string_of_uint (Nat.to_uint n).

Definition string_of_Z (n : Z) : string :=
  NilZero.string_of_int (Z.to_int n).

(** String conversion, as a template literal or [+] with a string
    performs it. Array elements that are [null] or [undefined] are
    joined as empty strings. *)
Fixpoint to_string (v : Json) : string :=
  match v with
  | JUndefined => "undefined"
  | JNull => "null"
  | JBool true => "true"
  | JBool false => "false"
  | JNum n => string_of_Z n
  | JStr s => s
  | JArr items =>
      (fix join (l : list Json) : string :=
         match l with
         | [] => ""
         | x :: rest =>
             let e := match x with
                      | JUndefined | JNull => ""
                      | _ => to_string x
                      end in
             match rest with
             | [] => e
             | _ :: _ => e ++ "," ++ join rest
             end
         end) items
  | JObj _ => "[object Object]"
  end.

Definition is_undefined (v : Json) : bool :=
  match v with JUndefined => true | _ => false end.

(** [v == null] *)
Definition is_nullish (v : Json) : bool :=
  match v with JUndefined | JNull => true | _ => false end.

(** [v === 'literal'] *)
Definition strict_eq_str (v : Json) (lit : string) : bool :=
  match v with JStr s => String.eqb s lit | _ => false end.

(** Truthiness, as the condition of [?:] takes it. *)
Definition truthy (v : Json) : bool :=
  match v with
  | JUndefined | JNull => false
  | JBool b => b
  | JNum n => negb (Z.eqb n 0)
  | JStr s => negb (String.eqb s "")
  | JArr _ | JObj _ => true
  end.

Fixpoint assoc (k : string) (fields : list (string * Json)) : option Json :=
  match fields with
  | [] => None
  | (k', v) :: rest => if String.eqb k k' then Some v else assoc k rest
  end.

(** Property read [v.k] for the property names the client reads
    ([list], [last], [vid], [machine_name], [access_token], [page],
    [type], ...): a [TypeError] on [null] and [undefined], the field of
    an object, [undefined] on everything else. *)
Definition js_get (v : Json) (k : string) : JsError + Json :=
  match v with
  | JUndefined | JNull =>
      inl (TypeError ("Cannot read properties of " ++ to_string v))
  | JObj fields =>
      match assoc k fields with Some x => inr x | None => inr JUndefined end
  | _ => inr JUndefined
  end.

(** [arr.concat(x)] on an array: an array argument is spread, anything
    else is appended as one element. *)
Definition array_concat (arr : list Json) (x : Json) : list Json :=
  match x with
  | JArr items => arr ++ items
  | _ => arr ++ [x]
  end.

(** [v.concat(x)] on an arbitrary receiver. *)
Definition js_concat (v x : Json) : JsError + Json :=
  match v with
  | JArr arr => inr (JArr (array_concat arr x))
  | JStr s => inr (JStr (s ++ to_string x))
  | JUndefined | JNull =>
      inl (TypeError ("Cannot read properties of " ++ to_string v))
  | _ => inl (TypeError "concat is not a function")
  end.

(** A default parameter value: it replaces [undefined] only. *)
Definition default_arg (v dflt : Json) : Json :=
  if is_undefined v then dflt else v.

(** ** Query builder *)

(** [s.endsWith(suffix)]: some tail of [s] is [suffix]. *)
Fixpoint endsWith (s suffix : string) : bool :=
  if String.eqb s suffix then true
  else match s with
       | EmptyString => false
       | String _ t => endsWith t suffix
       end.

(** [appendParam(name, value)(endpoint)] *)
Definition appendParam (name : string) (value : Json) (endpoint : string)
  : string :=
  if endsWith endpoint "?" && negb (is_undefined value)
  then endpoint ++ name ++ "=" ++ to_string value
  else if negb (is_undefined value)
       then endpoint ++ "&" ++ name ++ "=" ++ to_string value
       else endpoint.

(** [arr.reduce((acc, cur, i) => f(acc, cur, i), init)] from index [i]. *)
Fixpoint reduce_from {A : Type} (f : A -> Json -> nat -> A)
  (i : nat) (arr : list Json) (acc : A) : A :=
  match arr with
  | [] => acc
  | cur :: rest => reduce_from f (S i) rest (f acc cur i)
  end.

(** [appendArrayOfParams(name, arr)(endpoint)]; [arr.reduce] exists on
    arrays only. *)
Definition appendArrayOfParams (name : string) (arr : Json) (endpoint : string)
  : JsError + string :=
  if negb (is_undefined arr)
  then match arr with
       | JArr items =>
           inr (reduce_from
                  (fun acc cur i =>
                     appendParam (name ++ "[" ++ string_of_nat i ++ "]") cur acc)
                  0 items endpoint)
       | JNull => inl (TypeError "Cannot read properties of null")
       | _ => inl (TypeError "arr.reduce is not a function")
       end
  else inr endpoint.

(** The two ways the client appends to a query, as data. *)
Inductive Append : Type :=
| AppendParam (name : string) (value : Json)
| AppendArrayOfParams (name : string) (arr : list Json).

Definition run_append (op : Append) (endpoint : string) : JsError + string :=
  match op with
  | AppendParam name value => inr (appendParam name value endpoint)
  | AppendArrayOfParams name arr => appendArrayOfParams name (JArr arr) endpoint
  end.

(** The appends of [ops] applied one after the other, first to last. *)
Fixpoint apply_all (ops : list Append) (endpoint : string) : JsError + string :=
  match ops with
  | [] => inr endpoint
  | op :: rest =>
      match run_append op endpoint with
      | inl e => inl e
      | inr endpoint' => apply_all rest endpoint'
      end
  end.

(** The key-value pair an append of [value] under [key] stands for:
    none when the value is [undefined]. *)
Definition pair_of (key : string) (value : Json) : list (string * string) :=
  if is_undefined value then [] else [(key, to_string value)].

Fixpoint array_pairs (name : string) (i : nat) (arr : list Json)
  : list (string * string) :=
  match arr with
  | [] => []
  | cur :: rest =>
      (pair_of (name ++ "[" ++ string_of_nat i ++ "]") cur
       ++ array_pairs name (S i) rest)%list
  end.

Definition pairs_of (op : Append) : list (string * string) :=
  match op with
  | AppendParam name value => pair_of name value
  | AppendArrayOfParams name arr => array_pairs name 0 arr
  end.

(** *** Reading a query string back

    The query is cut at every ['&'], empty pieces are dropped, and each
    piece is cut at its first ['=']: the way a server (and
    [URLSearchParams]) reads it, percent-decoding apart. *)
Fixpoint split_on (c : ascii) (s : string) : list string :=
  match s with
  | EmptyString => [EmptyString]
  | String a t =>
      if Ascii.eqb a c then EmptyString :: split_on c t
      else match split_on c t with
           | piece :: pieces => String a piece :: pieces
           | [] => [String a EmptyString]
           end
  end.

Fixpoint split_pair (s : string) : string * string :=
  match s with
  | EmptyString => (EmptyString, EmptyString)
  | String a t =>
      if Ascii.eqb a "="%char then (EmptyString, t)
      else let (k, v) := split_pair t in (String a k, v)
  end.

Definition nonempty (s : string) : bool :=
  match s with EmptyString => false | String _ _ => true end.

Definition query_pairs (q : string) : list (string * string) :=
  map split_pair (filter nonempty (split_on "&"%char q)).

(** [c] occurs in [s]. *)
Fixpoint contains (c : ascii) (s : string) : bool :=
  match s with
  | EmptyString => false
  | String a t => Ascii.eqb a c || contains c t
  end.

(** The part of a URL after its first ['?']. *)
Fixpoint query_of (u : string) : string :=
  match u with
  | EmptyString => EmptyString
  | String a t => if Ascii.eqb a "?"%char then t else query_of t
  end.

Definition pair_eq_dec (p q : string * string) : {p = q} + {p <> q}.
Proof. decide equality; apply string_dec. Defined.

(** *** What reads back

    A key reads back when it holds no ['&'] and no ['=']; a rendered
    value reads back when it holds no ['&'] and does not end in ['?']
    (after which [appendParam] would leave out the ['&']). *)
Definition clean_key (k : string) : bool :=
  negb (contains "&"%char k) && negb (contains "="%char k).

Definition clean_value (v : string) : bool :=
  negb (contains "&"%char v) && negb (endsWith v "?").

Definition clean_pair (p : string * string) : bool :=
  clean_key (fst p) && clean_value (snd p).

Definition clean (op : Append) : bool := forallb clean_pair (pairs_of op).

Definition op_name (op : Append) : string :=
  match op with
  | AppendParam name _ | AppendArrayOfParams name _ => name
  end.

Definition defined_values (op : Append) : bool :=
  match op with
  | AppendParam _ value => negb (is_undefined value)
  | AppendArrayOfParams _ arr => forallb (fun v => negb (is_undefined v)) arr
  end.

(** [cur] is [endpoint] with the pairs [pairs] appended so far. *)
Definition appended (endpoint cur : string) (pairs : list (string * string))
  : Prop :=
  exists suffix,
    cur = endpoint ++ suffix
    /\ query_pairs suffix = pairs
    /\ (suffix = "" \/ endsWith cur "?" = false).

(** C5 as the specification words it: appends of distinct names and
    defined values, applied in any order, give a query in which every
    pair occurs exactly once. *)
Definition append_claim (endpoint : string) (ops : list Append) : Prop :=
  NoDup (map op_name ops) ->
  forallb defined_values ops = true ->
  forall ops',
    Permutation ops ops' ->
    exists suffix,
      apply_all ops' endpoint = inr (endpoint ++ suffix)
      /\ forall p,
           In p (flat_map pairs_of ops) ->
           count_occ pair_eq_dec (query_pairs suffix) p = 1.

(** *** Batches *)

(** Ceiling of [a / b]. *)
Definition ceil_div (a b : nat) : nat := (a + b - 1) / b.

(** ** The outside world *)

(** The [AccessToken] object of simple-oauth2; [token] is its raw token
    object, which carries [access_token]. *)
Record AccessToken : Type := { token : Json }.

(** The options object handed to axios. [data] is absent unless the
    method is POST or PUT. *)
Record AxiosOpts : Type := {
  method : string;
  headers : list (string * Json);
  withCredentials : bool;
  data : option Json
}.

(** One exchange with the network, with its result. *)
Inductive Event : Type :=
| Http (url : string) (opts : AxiosOpts) (result : JsError + Json)
| Refresh (old : AccessToken) (params : list (string * string))
    (result : JsError + AccessToken)
| GetToken (tokenConfig : Json) (result : JsError + Json)
| RevokeAll (old : AccessToken) (result : JsError + Json).

Definition History : Type := list Event.

(** What the client calls into. Each oracle reads the history, so that
    a server may answer the same request differently over time.
    [axios] yields [res.data] of the response or the error it rejects
    with. [accessToken_create] is [farmOAuth.accessToken.create], which
    throws on what it cannot parse as a token (a falsy value, for one).
    [StringToNumber] yields [None] for [NaN] and for every value
    that is not an integer (neither is ever [===] a page number). *)
Record Env : Type := {
  host : string;
  client_id : string;
  client_secret : string;
  axios : History -> string -> AxiosOpts -> JsError + Json;
  token_expired : History -> AccessToken -> bool;
  token_refresh :
    History -> AccessToken -> list (string * string) -> JsError + AccessToken;
  accessToken_create : Json -> JsError + AccessToken;
  ownerPassword_getToken : History -> Json -> JsError + Json;
  token_revokeAll : History -> AccessToken -> JsError + Json;
  URL_searchParams : string -> option (list (string * string));
  StringToNumber : string -> option Z;
  JSON_stringify : Json -> Json
}.

(** The [farm] object's two mutable fields, and the network log. *)
Record State : Type := {
  farm_token : option AccessToken;
  farm_csrfToken : Json;
  history : History
}.

Definition set_token (t : option AccessToken) (s : State) : State :=
  {| farm_token := t; farm_csrfToken := farm_csrfToken s; history := history s |}.

Definition set_csrfToken (c : Json) (s : State) : State :=
  {| farm_token := farm_token s; farm_csrfToken := c; history := history s |}.

Definition log_event (ev : Event) (s : State) : State :=
  {| farm_token := farm_token s; farm_csrfToken := farm_csrfToken s;
     history := (history s ++ [ev])%list |}.

(** ** Calls and promises *)

(** How a call of a client function ends. [Pending] is a promise that
    has not settled when the fuel of [requestAll] is spent. *)
Inductive Outcome (A : Type) : Type :=
| Value (a : A)
| Threw (e : JsError)
| Fulfilled (a : A)
| Rejected (e : JsError)
| Pending.
Arguments Value {A} a.
Arguments Threw {A} e.
Arguments Fulfilled {A} a.
Arguments Rejected {A} e.
Arguments Pending {A}.

Definition M (A : Type) : Type := State -> Outcome A * State.

(** How the promise of an outside call settles. *)
Definition settle {A : Type} (r : JsError + A) : Outcome A :=
  match r with inl e => Rejected e | inr a => Fulfilled a end.

(** [Promise.resolve(a)] *)
Definition resolve {A : Type} (a : A) : M A := fun s => (Fulfilled a, s).

(** [return a] of a plain value, and [throw e]. *)
Definition ret {A : Type} (a : A) : M A := fun s => (Value a, s).
Definition throw {A : Type} (e : JsError) : M A := fun s => (Threw e, s).

(** A pure computation that may raise: [inl] is thrown, [inr] returned. *)
Definition lift {A : Type} (r : JsError + A) : M A :=
  match r with inl e => throw e | inr a => ret a end.

(** [p.then(f)]. If evaluating [p] throws, the call of [then] is never
    reached and the throw leaves the enclosing function; a [p] that is
    no promise has no [then]. A callback that throws rejects the new
    promise; one that returns a plain value fulfils it; one that returns
    a promise is followed. *)
Definition then_ {A B : Type} (p : M A) (f : A -> M B) : M B :=
  fun s =>
    match p s with
    | (Threw e, s1) => (Threw e, s1)
    | (Value _, s1) => (Threw (TypeError "then is not a function"), s1)
    | (Rejected e, s1) => (Rejected e, s1)
    | (Pending, s1) => (Pending, s1)
    | (Fulfilled a, s1) =>
        match f a s1 with
        | (Value b, s2) => (Fulfilled b, s2)
        | (Threw e, s2) => (Rejected e, s2)
        | r => r
        end
    end.

(** [p.catch(h)] *)
Definition catch_ {A : Type} (p : M A) (h : JsError -> M A) : M A :=
  fun s =>
    match p s with
    | (Value _, s1) => (Threw (TypeError "catch is not a function"), s1)
    | (Rejected e, s1) =>
        match h e s1 with
        | (Value b, s2) => (Fulfilled b, s2)
        | (Threw e', s2) => (Rejected e', s2)
        | r => r
        end
    | r => r
    end.

(** Sequencing of plain statements inside one function body: the value
    of the first is bound for the rest, a throw aborts the rest. The
    first is never a promise in the client. *)
Definition bind {A B : Type} (m : M A) (f : A -> M B) : M B :=
  fun s =>
    match m s with
    | (Value a, s1) => f a s1
    | (Threw e, s1) => (Threw e, s1)
    | (Fulfilled _, s1) | (Rejected _, s1) | (Pending, s1) =>
        (Threw (TypeError "a promise is not a plain value"), s1)
    end.

Notation "x <- m ;; k" := (bind m (fun x => k))
  (at level 61, m at next level, right associativity).

(** [arr.slice(from, to)] and [arr.slice(from)] for indices within the
    naturals. *)
Definition slice (from to : nat) (arr : list Json) : list Json :=
  firstn (to - from) (skipn from arr).

Definition slice_from (from : nat) (arr : list Json) : list Json :=
  skipn from arr.

(** ** A concrete world to run the client in

    A small farmOS stand-in: any server function, tokens that are
    expired when their [expires_in] is [0] and refreshable when they
    carry a [refresh_token], URLs of scheme [http://] whose query is
    read by [query_pairs], and decimal digits as numbers. *)

Fixpoint digits_value (s : string) (acc : Z) : option Z :=
  match s with
  | EmptyString => Some acc
  | String c t =>
      let n := nat_of_ascii c in
      if (Nat.leb 48 n && Nat.leb n 57)%bool
      then digits_value t (acc * 10 + Z.of_nat (n - 48))%Z
      else None
  end.

Definition demo_searchParams (u : string) : option (list (string * string)) :=
  if String.prefix "http://" u then Some (query_pairs (query_of u)) else None.

Definition demo_expired (t : AccessToken) : bool :=
  match js_get (token t) "expires_in" with
  | inr (JNum 0) => true
  | _ => false
  end.

Definition demo_create (tok : Json) : JsError + AccessToken :=
  if truthy tok
  then inr {| token := tok |}
  else inl (Error "Cannot create access token without a token to parse").

Definition demo_refresh (t : AccessToken) : JsError + AccessToken :=
  match js_get (token t) "refresh_token" with
  | inr (JStr r) =>
      inr {| token := JObj [("access_token", JStr ("renewed-" ++ r));
                            ("refresh_token", JStr r);
                            ("expires_in", JNum 3600)] |}
  | _ => inl (Failure (JStr "invalid_grant"))
  end.

Definition demo (server : History -> string -> AxiosOpts -> JsError + Json)
  : Env :=
  {| host := "http://farm.test";
     client_id := "farmos_development";
     client_secret := "";
     axios := server;
     token_expired := fun _ t => demo_expired t;
     token_refresh := fun _ t _ => demo_refresh t;
     accessToken_create := demo_create;
     ownerPassword_getToken := fun _ _ => inl (Failure (JStr "invalid_grant"));
     token_revokeAll := fun _ _ => inr JUndefined;
     URL_searchParams := demo_searchParams;
     StringToNumber := fun str => digits_value str 0%Z;
     JSON_stringify := fun payload => payload |}.

(** A server that answers every request with the same body. *)
Definition constant_server (body : Json)
  : History -> string -> AxiosOpts -> JsError + Json :=
  fun _ _ _ => inr body.

(** A server that is down. *)
Definition failing_server : History -> string -> AxiosOpts -> JsError + Json :=
  fun _ _ _ => inl (Failure (JStr "Service Unavailable")).

(** A server that answers its [k]-th request with the [k]-th body. *)
Definition scripted_server (bodies : list Json)
  : History -> string -> AxiosOpts -> JsError + Json :=
  fun h _ _ =>
    match nth_error bodies (length h) with
    | Some body => inr body
    | None => inl (Failure (JStr "Not Found"))
    end.

(** A server that counts: every body holds the one-element list of the
    number of exchanges before it. *)
Definition counting_server : History -> string -> AxiosOpts -> JsError + Json :=
  fun h _ _ => inr (JObj [("list", JArr [JNum (Z.of_nat (length h))])]).

(** A server with the [farm_areas] vocabulary under vid 3. *)
Definition vocabulary_server : History -> string -> AxiosOpts -> JsError + Json :=
  fun _ url _ =>
    if String.eqb url "http://farm.test/taxonomy_vocabulary.json"
    then inr (JObj [("list",
                     JArr [JObj [("machine_name", JStr "farm_crops");
                                 ("vid", JNum 1)];
                           JObj [("machine_name", JStr "farm_areas");
                                 ("vid", JNum 3)]])])
    else inr (JObj [("list", JArr [])]).

Definition valid_token : AccessToken :=
  {| token := JObj [("access_token", JStr "abc");
                    ("refresh_token", JStr "r1");
                    ("expires_in", JNum 3600)] |}.

Definition stale_token : AccessToken :=
  {| token := JObj [("access_token", JStr "old");
                    ("refresh_token", JStr "r1");
                    ("expires_in", JNum 0)] |}.

Definition dead_token : AccessToken :=
  {| token := JObj [("access_token", JStr "old"); ("expires_in", JNum 0)] |}.

(** A client that has never been authorized. *)
Definition fresh_state : State :=
  {| farm_token := None; farm_csrfToken := JNull; history := [] |}.

(** A client right after [authorize]: a token, no CSRF token yet. *)
Definition authorized_state : State :=
  {| farm_token := Some valid_token; farm_csrfToken := JNull; history := [] |}.

(** A client in full session: a valid token and a cached CSRF token. *)
Definition session_state : State :=
  {| farm_token := Some valid_token; farm_csrfToken := JStr "csrf-1";
     history := [] |}.

(** A page of a paginated response. *)
Definition page_body (items : list Json) (last : string) : Json :=
  JObj [("list", JArr items); ("last", JStr last)].

(** A log of three entries on two pages. *)
Definition two_pages : list Json :=
  [page_body [JNum 1; JNum 2] "http://farm.test/log.json?&page=1";
   page_body [JNum 3] "http://farm.test/log.json?&page=1"].

(** A page whose [last] URL always says the last page is page 2. *)
Definition page_of_three : Json :=
  page_body [JNum 9] "http://farm.test/log.json?&page=2".

(** A page whose [last] URL names no page number. *)
Definition endless_page : Json :=
  page_body [] "http://farm.test/log.json?&page=soon".

(** A client whose token has expired and can be refreshed, and one
    whose token has expired and cannot. *)
Definition stale_state : State :=
  {| farm_token := Some stale_token; farm_csrfToken := JStr "csrf-1";
     history := [] |}.

Definition dead_state : State :=
  {| farm_token := Some dead_token; farm_csrfToken := JStr "csrf-1";
     history := [] |}.

Arguments slice : simpl never.
Arguments slice_from : simpl never.

Section Client.

Variable E : Env.

(** The promise axios returns for [axios(url, opts)]: the exchange is
    logged, and the promise settles with [res] (of which the client only
    reads [res.data]) or rejects. *)
Definition axios_call (url : string) (opts : AxiosOpts) : M Json :=
  fun s =>
    let r := axios E (history s) url opts in
    (settle r, log_event (Http url opts r) s).

(** [farm.token.refresh(params)] *)
Definition refresh_call (t : AccessToken) (params : list (string * string))
  : M AccessToken :=
  fun s =>
    let r := token_refresh E (history s) t params in
    (settle r, log_event (Refresh t params r) s).

(** [farm.useToken(token)]. When [farmOAuth.accessToken.create] throws,
    the assignment to [farm.token] is never reached. *)
Definition useToken (tok : Json) : M Json :=
  fun s =>
    match accessToken_create E tok with
    | inl e => (Threw e, s)
    | inr newToken => (Value (token newToken), set_token (Some newToken) s)
    end.

(** [farm.authorize(user, password, scope)] *)
Definition authorize (user password scope0 : Json) : M Json :=
  let scope := default_arg scope0 (JStr "user_access") in
  if negb (is_nullish user) && negb (is_nullish password)
  then
    let tokenConfig :=
      JObj [("username", user); ("password", password); ("scope", scope)] in
    catch_
      (catch_
         (then_
            (then_
               (fun s =>
                  let r := ownerPassword_getToken E (history s) tokenConfig in
                  (settle r, log_event (GetToken tokenConfig r) s))
               (fun result => useToken result))
            (fun token => ret token))
         (fun error => throw error))
      (fun error => throw error)
  else ret JUndefined.

(** [farm.logout()]. The argument of [then] is the assignment
    [farm.token = null], evaluated at once; its value, [null], is no
    callback, so the promise of [revokeAll] is passed on as it is. *)
Definition logout : M Json :=
  fun s =>
    match farm_token s with
    | Some t =>
        let r := token_revokeAll E (history s) t in
        (settle r, set_token None (log_event (RevokeAll t r) s))
    | None => resolve JUndefined s
    end.

(** [getAccessToken()] *)
Definition getAccessToken : M Json :=
  fun s =>
    match farm_token s with
    | None =>
        (Threw (Error "client must be authorized before making requests."), s)
    | Some t =>
        if token_expired E (history s) t
        then
          let params :=
            [("client_id", client_id E); ("client_secret", client_secret E)] in
          catch_
            (then_ (refresh_call t params)
               (fun accessToken =>
                  tok <- useToken (token accessToken) ;;
                  lift (js_get tok "access_token")))
            (fun err => throw err) s
        else
          match js_get (token t) "access_token" with
          | inl e => (Threw e, s)
          | inr a => resolve a s
          end
    end.

(** [getCSRFToken(accessToken)] *)
Definition getCSRFToken (accessToken : Json) : M Json :=
  fun s =>
    if is_nullish (farm_csrfToken s)
    then
      let opts :=
        {| method := "GET";
           headers :=
             [("Content-Type", JStr "application/json");
              ("Accept", JStr "json");
              ("Authorization", JStr ("Bearer " ++ to_string accessToken))];
           withCredentials := true;
           data := None |} in
      catch_
        (then_ (axios_call (host E ++ "/restws/session/token") opts)
           (fun res_data s1 =>
              (Value res_data, set_csrfToken res_data s1)))
        (fun error => throw error) s
    else resolve (farm_csrfToken s) s.

(** [opts.headers[k] = v] *)
Fixpoint set_field (k : string) (v : Json) (fields : list (string * Json))
  : list (string * Json) :=
  match fields with
  | [] => [(k, v)]
  | (k', v') :: rest =>
      if String.eqb k k' then (k, v) :: rest else (k', v') :: set_field k v rest
  end.

Definition set_header (k : string) (v : Json) (o : AxiosOpts) : AxiosOpts :=
  {| method := method o; headers := set_field k v (headers o);
     withCredentials := withCredentials o; data := data o |}.

Definition set_data (d : Json) (o : AxiosOpts) : AxiosOpts :=
  {| method := method o; headers := headers o;
     withCredentials := withCredentials o; data := Some d |}.

(** The options object as [request] builds it before any token is
    known. *)
Definition base_opts (meth : string) (payload : Json) : AxiosOpts :=
  let opts :=
    {| method := meth;
       headers := [("Content-Type", JStr "application/json");
                   ("Accept", JStr "json")];
       withCredentials := true;
       data := None |} in
  if String.eqb meth "POST" || String.eqb meth "PUT"
  then set_data (JSON_stringify E payload) opts
  else opts.

(** [request(endpoint, {method, payload})]. A [payload] that is
    [undefined] takes the default [''] of the parameter list. The
    source chains three [then] on one promise and lets the callbacks
    fill the shared [opts] object; here the callbacks are nested so that
    the later ones see the headers the earlier ones have set. *)
Definition request (endpoint : string) (meth : string) (payload0 : Json)
  : M Json :=
  let payload := default_arg payload0 (JStr "") in
  let url := host E ++ endpoint in
  let opts := base_opts meth payload in
  then_ getAccessToken
    (fun accessToken =>
       let opts :=
         set_header "Authorization"
           (JStr ("Bearer " ++ to_string accessToken)) opts in
       then_ (getCSRFToken accessToken)
         (fun csrfToken =>
            let opts := set_header "X-CSRF-Token" csrfToken opts in
            catch_
              (then_ (axios_call url opts) (fun res_data => ret res_data))
              (fun err => throw err))).

(** [request(endpoint)] with the defaults [method = 'GET'],
    [payload = '']. *)
Definition request_get (endpoint : string) : M Json :=
  request endpoint "GET" (JStr "").

(** [searchParams.get(name)]: the first value under [name], or [null]. *)
Fixpoint searchParams_get (name : string) (ps : list (string * string))
  : option string :=
  match ps with
  | [] => None
  | (k, v) :: rest =>
      if String.eqb k name then Some v else searchParams_get name rest
  end.

(** Unary [+] on the result of [searchParams.get]: [+null] is [0]. *)
Definition unary_plus (v : option string) : option Z :=
  match v with
  | None => Some 0%Z
  | Some str => StringToNumber E str
  end.

(** [+(new URL(response.last)).searchParams.get('page')] *)
Definition lastPage_of (response : Json) : JsError + option Z :=
  match js_get response "last" with
  | inl e => inl e
  | inr last =>
      match URL_searchParams E (to_string last) with
      | None => inl (TypeError "Invalid URL")
      | Some ps => inr (unary_plus (searchParams_get "page" ps))
      end
  end.

(** [page === lastPage] for a page counter. *)
Definition page_is (page : nat) (lastPage : option Z) : bool :=
  match lastPage with
  | Some z => Z.eqb (Z.of_nat page) z
  | None => false
  end.

(** [requestAll(url, page, list)]. [list] is an array at every call:
    the default [[]] or the result of [concat] on an array. Each unit
    of fuel pays for one page. *)
Fixpoint requestAll (fuel : nat) (url : string) (page : nat) (list : list Json)
  : M Json :=
  match fuel with
  | O => fun s => (Pending, s)
  | S fuel' =>
      catch_
        (then_ (request_get (url ++ "&page=" ++ string_of_nat page))
           (fun response =>
              lastPage <- lift (lastPage_of response) ;;
              if page_is page lastPage
              then
                items <- lift (js_get response "list") ;;
                ret (JObj [("list", JArr (array_concat list items))])
              else
                items <- lift (js_get response "list") ;;
                let newList := array_concat list items in
                requestAll fuel' url (page + 1) newList))
        (fun err => throw err)
  end.

(** [params(id)] *)
Definition params (id : Json) : string :=
  if truthy id then "/" ++ to_string id ++ ".json" else ".json".

(** [array.find(pred)] for a predicate that may raise. *)
Fixpoint js_find (pred : Json -> JsError + bool) (l : list Json)
  : JsError + Json :=
  match l with
  | [] => inr JUndefined
  | x :: rest =>
      match pred x with
      | inl e => inl e
      | inr true => inr x
      | inr false => js_find pred rest
      end
  end.

(** [areaVid(vocab)] *)
Definition areaVid (vocab : Json) : JsError + Json :=
  match js_get vocab "list" with
  | inl e => inl e
  | inr (JArr items) =>
      match js_find
              (fun voc =>
                 match js_get voc "machine_name" with
                 | inl e => inl e
                 | inr name => inr (strict_eq_str name "farm_areas")
                 end) items with
      | inl e => inl e
      | inr found => js_get found "vid"
      end
  | inr JUndefined | inr JNull =>
      inl (TypeError "Cannot read properties of undefined")
  | inr _ => inl (TypeError "vocab.list.find is not a function")
  end.

(** Reading a method off a receiver raises on [null] and [undefined],
    before the arguments of the call are evaluated. *)
Definition receiver (v : Json) : JsError + unit :=
  match v with
  | JUndefined | JNull =>
      inl (TypeError ("Cannot read properties of " ++ to_string v))
  | _ => inr tt
  end.

(** [batchRequest(name, arr, endpoint, results)] *)
Equations? batchRequest (name : string) (arr : list Json) (endpoint : string)
  (results : Json) : M Json by wf (length arr) lt :=
  batchRequest name arr endpoint results0 with le_gt_dec (length arr) 100 := {
    | left _ =>
        let results := default_arg results0 (JArr []) in
        query <- lift (appendArrayOfParams name (JArr arr) endpoint) ;;
        catch_
          (then_ (request_get query)
             (fun _res =>
                _ <- lift (receiver results) ;;
                items <- lift (js_get _res "list") ;;
                all <- lift (js_concat results items) ;;
                ret (JObj [("list", all)])))
          (fun err => throw err)
    | right _ =>
        let thisBatch := slice 0 99 arr in
        let nextBatch := slice_from 99 arr in
        query <- lift (appendArrayOfParams name (JArr thisBatch) endpoint) ;;
        catch_
          (then_ (request_get query)
             (fun _res =>
                items <- lift (js_get _res "list") ;;
                batchRequest name nextBatch endpoint items))
          (fun err => throw err)
  }.
Proof.
  subst nextBatch. unfold slice_from. rewrite length_skipn. lia.
Qed.

(** [const { k = dflt } = opts] *)
Definition destructure (opts : Json) (k : string) (dflt : Json)
  : JsError + Json :=
  match js_get opts k with
  | inl e => inl e
  | inr v => inr (default_arg v dflt)
  end.

Definition is_null (v : Json) : bool :=
  match v with JNull => true | _ => false end.

(** The callback of [farm.area.delete(id)], run on the response of the
    vocabulary lookup. *)
Definition area_delete_then (id res : Json) : M Json :=
  vid <- lift (areaVid res) ;;
  request ("/taxonomy_term.json?vocabulary=" ++ to_string vid ++ params id)
    "DELETE" (JStr "").

(** [farm.area.delete(id)] *)
Definition area_delete (id : Json) : M Json :=
  then_ (request_get "/taxonomy_vocabulary.json") (area_delete_then id).

(** The callback of [farm.area.get(opts)]. *)
Definition area_get_then (fuel : nat) (opts res : Json) : M Json :=
  match opts with
  | JNum _ =>
      vid <- lift (areaVid res) ;;
      request_get ("/taxonomy_term.json?vocabulary=" ++ to_string vid
                   ++ "&tid=" ++ to_string opts)
  | _ =>
      page <- lift (destructure opts "page" JNull) ;;
      type <- lift (destructure opts "type" (JStr "")) ;;
      let typeParams :=
        if negb (strict_eq_str type "")
        then "area_type=" ++ to_string type else "" in
      let pageParams :=
        if negb (is_null page) then "page=" ++ to_string page else "" in
      if is_null page
      then
        vid <- lift (areaVid res) ;;
        requestAll fuel
          ("/taxonomy_term.json?vocabulary=" ++ to_string vid
           ++ "&" ++ typeParams) 0 []
      else
        vid <- lift (areaVid res) ;;
        request_get ("/taxonomy_term.json?vocabulary=" ++ to_string vid
                     ++ "&" ++ typeParams ++ "&" ++ pageParams)
  end.

(** [farm.area.get(opts)] *)
Definition area_get (fuel : nat) (opts0 : Json) : M Json :=
  let opts := default_arg opts0 (JObj []) in
  then_ (request_get "/taxonomy_vocabulary.json") (area_get_then fuel opts).

(** The callback of [farm.area.send(payload, id)]. *)
Definition area_send_then (payload id res : Json) : M Json :=
  vid <- lift (areaVid res) ;;
  request ("/taxonomy_term.json?vocabulary=" ++ to_string vid ++ params id)
    "POST" payload.

(** [farm.area.send(payload, id)] *)
Definition area_send (payload id : Json) : M Json :=
  then_ (request_get "/taxonomy_vocabulary.json") (area_send_then payload id).

(** [farm.log.get(opts)] *)
Definition log_get (fuel : nat) (opts0 : Json) : M Json :=
  let opts := default_arg opts0 (JObj []) in
  match opts with
  | JNum _ => request_get ("/log/" ++ to_string opts ++ ".json")
  | JArr ids =>
      if Nat.ltb 0 (length ids)
      then batchRequest "id" ids "/log.json?" JUndefined
      else ret (JObj [("list", JArr [])])
  | _ =>
      page <- lift (js_get opts "page") ;;
      type <- lift (js_get opts "type") ;;
      log_owner <- lift (js_get opts "log_owner") ;;
      done <- lift (js_get opts "done") ;;
      withType <- lift (appendArrayOfParams "type" type "/log.json?") ;;
      let query :=
        appendParam "log_owner" log_owner (appendParam "done" done withType) in
      if negb (is_undefined page)
      then request_get (appendParam "page" page query)
      else requestAll fuel query 0 []
  end.

(** ** What the theorems speak of *)

(** The options of the one HTTP call of [request(endpoint, {method,
    payload})], written out: the body is the serialization of the
    payload, or of [''] when the payload is [undefined]. *)
Definition request_opts (meth : string) (payload accessToken csrfToken : Json)
  : AxiosOpts :=
  {| method := meth;
     headers :=
       [("Content-Type", JStr "application/json");
        ("Accept", JStr "json");
        ("Authorization", JStr ("Bearer " ++ to_string accessToken));
        ("X-CSRF-Token", csrfToken)];
     withCredentials := true;
     data :=
       if String.eqb meth "POST" || String.eqb meth "PUT"
       then Some (JSON_stringify E (default_arg payload (JStr "")))
       else None |}.

(** The options of the CSRF fetch, written out. *)
Definition csrf_opts (accessToken : Json) : AxiosOpts :=
  {| method := "GET";
     headers :=
       [("Content-Type", JStr "application/json");
        ("Accept", JStr "json");
        ("Authorization", JStr ("Bearer " ++ to_string accessToken))];
     withCredentials := true;
     data := None |}.

(** A client in session: it holds a token that the OAuth library will
    not report expired, with access token [accessToken], and has cached
    the CSRF token [csrfToken]. Every [request] is then one HTTP call. *)
Definition session (s : State) (accessToken csrfToken : Json) : Prop :=
  exists t,
    farm_token s = Some t /\
    (forall h, token_expired E h t = false) /\
    js_get (token t) "access_token" = inr accessToken /\
    farm_csrfToken s = csrfToken /\
    is_nullish csrfToken = false.

(** The exchanges that fetch the CSRF token: HTTP calls to the session
    token endpoint that do not themselves carry a CSRF header. *)
Definition is_csrf_fetch (ev : Event) : bool :=
  match ev with
  | Http url opts _ =>
      String.eqb url (host E ++ "/restws/session/token")
      && match assoc "X-CSRF-Token" (headers opts) with
         | Some _ => false
         | None => true
         end
  | _ => false
  end.

Definition csrf_fetches (h : History) : History := filter is_csrf_fetch h.

(** The [list] of a response body, when it is an array. *)
Definition list_of (body : Json) : list Json :=
  match js_get body "list" with
  | inr (JArr items) => items
  | _ => []
  end.

(** The [list] of the response an exchange ended with. *)
Definition event_list (ev : Event) : list Json :=
  match ev with
  | Http _ _ (inr body) => list_of body
  | _ => []
  end.

Definition event_url (ev : Event) : string :=
  match ev with
  | Http url _ _ => url
  | _ => ""
  end.

(** Every call a user of the client can make, as data. *)
Inductive Call : Type :=
| CallGetAccessToken
| CallGetCSRFToken (accessToken : Json)
| CallUseToken (tok : Json)
| CallAuthorize (user password scope : Json)
| CallLogout
| CallRequest (endpoint meth : string) (payload : Json)
| CallRequestAll (fuel : nat) (url : string)
| CallBatchRequest (name : string) (arr : list Json) (endpoint : string)
| CallAreaDelete (id : Json)
| CallAreaGet (fuel : nat) (opts : Json)
| CallAreaSend (payload id : Json)
| CallLogGet (fuel : nat) (opts : Json).

Definition run_call (c : Call) : M Json :=
  match c with
  | CallGetAccessToken => getAccessToken
  | CallGetCSRFToken accessToken => getCSRFToken accessToken
  | CallUseToken tok => useToken tok
  | CallAuthorize user password scope => authorize user password scope
  | CallLogout => logout
  | CallRequest endpoint meth payload => request endpoint meth payload
  | CallRequestAll fuel url => requestAll fuel url 0 []
  | CallBatchRequest name arr endpoint =>
      batchRequest name arr endpoint JUndefined
  | CallAreaDelete id => area_delete id
  | CallAreaGet fuel opts => area_get fuel opts
  | CallAreaSend payload id => area_send payload id
  | CallLogGet fuel opts => log_get fuel opts
  end.

(** The state after a sequence of calls, each run to its end. *)
Fixpoint run_calls (cs : list Call) (s : State) : State :=
  match cs with
  | [] => s
  | c :: rest => run_calls rest (snd (run_call c s))
  end.

(** A computation keeps the CSRF token: run from a state with a cached
    token, it leaves the token as it is and fetches no other. *)
Definition keeps_csrf {A : Type} (m : M A) : Prop :=
  forall s,
    is_nullish (farm_csrfToken s) = false ->
    farm_csrfToken (snd (m s)) = farm_csrfToken s
    /\ csrf_fetches (history (snd (m s))) = csrf_fetches (history s).

(** What [then] and [catch] make of the outcome of a callback. *)
Definition adopt {A : Type} (r : Outcome A * State) : Outcome A * State :=
  match r with
  | (Value b, s2) => (Fulfilled b, s2)
  | (Threw e, s2) => (Rejected e, s2)
  | r => r
  end.

(** The URL [requestAll] asks for page [page] at. *)
Definition page_url (url : string) (page : nat) : string :=
  host E ++ url ++ "&page=" ++ string_of_nat page.

(** The result object [{ list: items }]. *)
Definition list_result (items : list Json) : Json :=
  JObj [("list", JArr items)].

(** A well-formed page: its [list] is an array and its [last] URL
    gives the page number [lastPage]. *)
Definition page_of (lastPage : nat) (body : Json) : Prop :=
  (exists items, js_get body "list" = inr (JArr items))
  /\ lastPage_of body = inr (Some (Z.of_nat lastPage)).

(** [s'] is [s] after the exchanges [evs], tokens untouched. *)
Definition extends (s : State) (evs : History) (s' : State) : Prop :=
  farm_token s' = farm_token s
  /\ farm_csrfToken s' = farm_csrfToken s
  /\ history s' = (history s ++ evs)%list.

(** The batches [batchRequest] cuts [arr] into. *)
Equations? batches (arr : list Json) : list (list Json)
  by wf (length arr) lt :=
  batches arr with le_gt_dec (length arr) 100 := {
    | left _ => [arr]
    | right _ => slice 0 99 arr :: batches (slice_from 99 arr)
  }.
Proof.
  unfold slice_from. rewrite length_skipn. lia.
Qed.

(** The query [appendArrayOfParams] builds for one batch. *)
Definition array_query (name : string) (batch : list Json) (endpoint : string)
  : string :=
  reduce_from
    (fun acc cur i =>
       appendParam (name ++ "[" ++ string_of_nat i ++ "]") cur acc)
    0 batch endpoint.

(** A server that answers every request with a body whose [list] is an
    array. *)
Definition serves_lists : Prop :=
  forall h url opts,
    exists body items,
      axios E h url opts = inr body /\ js_get body "list" = inr (JArr items).

(** The exchanges a run has added to the log of [s]. *)
Definition exchanges_since (s s' : State) : History :=
  skipn (length (history s)) (history s').

(** C1 as the specification words it: from an array of more than 99
    elements, [ceil(length/99)] requests, and a result list as long as
    all the response lists together. *)
Definition batch_claim (name : string) (arr : list Json) (endpoint : string)
  (s : State) : Prop :=
  99 < length arr ->
  let run := batchRequest name arr endpoint JUndefined s in
  let evs := exchanges_since s (snd run) in
  length evs = ceil_div (length arr) 99
  /\ exists items,
       fst run = Fulfilled (list_result items)
       /\ length items = list_sum (map (fun ev => length (event_list ev)) evs).

Definition is_area_call (c : Call) : bool :=
  match c with
  | CallAreaDelete _ | CallAreaGet _ _ | CallAreaSend _ _ => true
  | _ => false
  end.

(** A computation that, run in session, only adds exchanges to the
    log. *)
Definition logs_only {A : Type} (accessToken csrfToken : Json) (m : M A)
  : Prop :=
  forall s,
    session s accessToken csrfToken ->
    exists evs, extends s evs (snd (m s)).

(** A computation that never returns a plain value: it returns a
    promise or throws. *)
Definition no_value {A : Type} (m : M A) : Prop :=
  forall s b s', m s <> (Value b, s').

(** The callback of an area call. *)
Definition area_then (c : Call) : Json -> M Json :=
  match c with
  | CallAreaDelete id => area_delete_then id
  | CallAreaGet fuel opts => area_get_then fuel (default_arg opts (JObj []))
  | CallAreaSend payload id => area_send_then payload id
  | _ => fun _ => ret JUndefined
  end.

End Client.

(** ** The remaining resource methods *)

(** [{...v}]: the own enumerable properties of [v]. An array and a
    string spread into their indices; [null], [undefined], numbers and
    booleans into nothing. *)
Fixpoint indexed (i : nat) (items : list Json) : list (string * Json) :=
  match items with
  | [] => []
  | x :: rest => (string_of_nat i, x) :: indexed (S i) rest
  end.

Fixpoint chars (s : string) : list Json :=
  match s with
  | EmptyString => []
  | String c t => JStr (String c EmptyString) :: chars t
  end.

Definition spread (v : Json) : list (string * Json) :=
  match v with
  | JObj fields => fields
  | JArr items => indexed 0 items
  | JStr s => indexed 0 (chars s)
  | _ => []
  end.

Section Facades.

Variable E : Env.

(** [farm.asset.delete(id)] *)
Definition asset_delete (id : Json) : M Json :=
  request E ("/farm_asset/" ++ to_string id ++ ".json") "DELETE" (JStr "").

(** [farm.asset.get(opts)] *)
Definition asset_get (fuel : nat) (opts0 : Json) : M Json :=
  let opts := default_arg opts0 (JObj []) in
  match opts with
  | JNum _ => request_get E ("/farm_asset/" ++ to_string opts ++ ".json")
  | _ =>
      type <- lift (destructure opts "type" (JStr "")) ;;
      archived <- lift (destructure opts "archived" (JBool false)) ;;
      page <- lift (destructure opts "page" JNull) ;;
      let typeParams :=
        if negb (strict_eq_str type "") then "type=" ++ to_string type else "" in
      let archiveParams := if truthy archived then "" else "&archived=0" in
      let pageParams :=
        if negb (is_null page) then "&page=" ++ to_string page else "" in
      if is_null page
      then requestAll E fuel ("/farm_asset.json?" ++ typeParams ++ archiveParams)
             0 []
      else request_get E ("/farm_asset.json?" ++ typeParams ++ archiveParams
                          ++ pageParams)
  end.

(** [farm.asset.send(payload, id)] *)
Definition asset_send (payload id : Json) : M Json :=
  request E ("/farm_asset" ++ params id) "POST" payload.

(** [farm.info()] *)
Definition info : M Json := request_get E "/farm.json".

(** [farm.log.delete(id)] *)
Definition log_delete (id : Json) : M Json :=
  request E ("/log/" ++ to_string id ++ ".json") "DELETE" (JStr "").

(** The object [{ ...res, id, uri, resource: 'log' }] that
    [farm.log.send] makes of the response to a PUT. *)
Definition log_put_result (id res : Json) : Json :=
  JObj (set_field "resource" (JStr "log")
          (set_field "uri" (JStr (host E ++ "/log/" ++ to_string id))
             (set_field "id" id (spread res)))).

(** [farm.log.send(payload)] *)
Definition log_send (payload : Json) : M Json :=
  id <- lift (js_get payload "id") ;;
  if truthy id
  then
    then_ (request E ("/log/" ++ to_string id) "PUT" payload)
      (fun res => ret (log_put_result id res))
  else request E "/log" "POST" payload.

(** [farm.term.get(opts)] *)
Definition term_get (fuel : nat) (opts0 : Json) : M Json :=
  let opts := default_arg opts0 (JObj []) in
  match opts with
  | JStr _ =>
      requestAll E fuel ("/taxonomy_term.json?bundle=" ++ to_string opts) 0 []
  | _ =>
      page <- lift (js_get opts "page") ;;
      vocabulary <- lift (js_get opts "vocabulary") ;;
      name <- lift (js_get opts "name") ;;
      let query :=
        appendParam "vocabulary" vocabulary
          (appendParam "name" name "/taxonomy_term.json?") in
      if is_undefined page
      then requestAll E fuel query 0 []
      else request_get E (appendParam "page" page query)
  end.

(** [farm.term.send(payload)] *)
Definition term_send (payload : Json) : M Json :=
  tid <- lift (js_get payload "tid") ;;
  if truthy tid
  then request E ("/taxonomy_term/" ++ to_string tid) "PUT" payload
  else request E "/taxonomy_term" "POST" payload.

(** [farm.vocabulary(machineName)] *)
Definition vocabulary (machineName : Json) : M Json :=
  if is_undefined machineName
  then request_get E "/taxonomy_vocabulary.json"
  else request_get E ("/taxonomy_vocabulary.json?machine_name="
                      ++ to_string machineName).

(** The methods of [farm.area], [farm.asset], [farm.log], [farm.term],
    [farm.info] and [farm.vocabulary], as data. *)
Inductive Resource : Type :=
| AreaDelete (id : Json)
| AreaGet (fuel : nat) (opts : Json)
| AreaSend (payload id : Json)
| AssetDelete (id : Json)
| AssetGet (fuel : nat) (opts : Json)
| AssetSend (payload id : Json)
| Info
| LogDelete (id : Json)
| LogGet (fuel : nat) (opts : Json)
| LogSend (payload : Json)
| TermGet (fuel : nat) (opts : Json)
| TermSend (payload : Json)
| Vocabulary (machineName : Json).

Definition run_resource (r : Resource) : M Json :=
  match r with
  | AreaDelete id => area_delete E id
  | AreaGet fuel opts => area_get E fuel opts
  | AreaSend payload id => area_send E payload id
  | AssetDelete id => asset_delete id
  | AssetGet fuel opts => asset_get fuel opts
  | AssetSend payload id => asset_send payload id
  | Info => info
  | LogDelete id => log_delete id
  | LogGet fuel opts => log_get E fuel opts
  | LogSend payload => log_send payload
  | TermGet fuel opts => term_get fuel opts
  | TermSend payload => term_send payload
  | Vocabulary machineName => vocabulary machineName
  end.

(** The pagination fuel a resource call is given (none for the calls
    that never page). *)
Definition resource_fuel (r : Resource) : option nat :=
  match r with
  | AreaGet fuel _ | AssetGet fuel _ | LogGet fuel _ | TermGet fuel _ =>
      Some fuel
  | _ => None
  end.

(** The state after a sequence of resource calls, each run to its end. *)
Fixpoint run_resources (rs : list Resource) (s : State) : State :=
  match rs with
  | [] => s
  | r :: rest => run_resources rest (snd (run_resource r s))
  end.

(** The vocabulary list [{ list: items }]. *)
Definition vocabularies (items : list Json) : Json :=
  JObj [("list", JArr items)].

(** A vocabulary object that [areaVid] passes over: reading its
    [machine_name] succeeds and gives something else than
    ['farm_areas']. *)
Definition other_vocabulary (voc : Json) : Prop :=
  exists name,
    js_get voc "machine_name" = inr name
    /\ strict_eq_str name "farm_areas" = false.

(** The last two elements of a list (all of it when shorter). *)
Definition last_two {A : Type} (l : list A) : list A :=
  skipn (length l - 2) l.

(** The error [getAccessToken] throws for a client without a token. *)
Definition unauthorized : JsError :=
  Error "client must be authorized before making requests.".

(** A call that has thrown: the authorization error, or a [TypeError]
    (from reading its own arguments). *)
Definition refused {A : Type} (o : Outcome A) : Prop :=
  exists e,
    o = Threw e /\ (e = unauthorized \/ exists message, e = TypeError message).

(** A computation that, for a client without a token, throws and
    leaves the client and the network log as they are. *)
Definition idle_unauthorized {A : Type} (m : M A) : Prop :=
  forall s,
    farm_token s = None ->
    snd (m s) = s /\ refused (fst (m s)).

(** The concrete world with an authorization server that grants every
    password request the token [granted]. *)
Definition demo_login (granted : Json)
  (server : History -> string -> AxiosOpts -> JsError + Json) : Env :=
  {| host := host (demo server);
     client_id := client_id (demo server);
     client_secret := client_secret (demo server);
     axios := server;
     token_expired := token_expired (demo server);
     token_refresh := token_refresh (demo server);
     accessToken_create := accessToken_create (demo server);
     ownerPassword_getToken := fun _ _ => inr granted;
     token_revokeAll := fun _ _ => inl (Failure (JStr "revoke failed"));
     URL_searchParams := URL_searchParams (demo server);
     StringToNumber := StringToNumber (demo server);
     JSON_stringify := JSON_stringify (demo server) |}.

(** The value of property [k] of the object with fields [fields]. *)
Definition field (k : string) (fields : list (string * Json)) : Json :=
  match assoc k fields with
  | Some v => v
  | None => JUndefined
  end.

(** The elements of an array-valued option, none when it is
    [undefined]. *)
Definition elements (v : Json) : list Json :=
  match v with
  | JArr items => items
  | _ => []
  end.

End Facades.

(** * Theorems *)

(** ** Query builder *)

Lemma endsWith_char (s : string) (c : ascii) :
  endsWith s (String c EmptyString) = true <->
  exists p, s = p ++ String c EmptyString.
Proof.
  split.
  - induction s as [|a s IH]; cbn [endsWith].
    + simpl. discriminate.
    + destruct (String.eqb (String a s) (String c EmptyString)) eqn:Heq.
      * apply String.eqb_eq in Heq. exists EmptyString. exact Heq.
      * intros H. destruct (IH H) as [p Hp]. exists (String a p).
        simpl. now rewrite Hp.
  - intros [p Hp]. subst s. induction p as [|a p IH].
    + simpl. now rewrite Ascii.eqb_refl.
    + cbn [append endsWith]. rewrite IH.
      now destruct (String.eqb _ _).
Qed.

(** C4. [appendParam(n, undefined)] leaves every endpoint unchanged; for
    a defined value [v], [appendParam(n, v)(e)] is [e] followed by
    [n=v] when [e] ends with ['?'] (that is, [e = p ++ "?"] for some
    [p]) and [e] followed by [&n=v] otherwise. *)
Theorem appendParam_spec (name endpoint : string) :
  appendParam name JUndefined endpoint = endpoint
  /\ (endsWith endpoint "?" = true <-> exists p, endpoint = p ++ "?")
  /\ forall value, value <> JUndefined ->
       appendParam name value endpoint =
       if endsWith endpoint "?"
       then endpoint ++ (name ++ "=" ++ to_string value)
       else endpoint ++ ("&" ++ name ++ "=" ++ to_string value).
Proof.
  split; [|split].
  - unfold appendParam. simpl. now rewrite andb_false_r.
  - apply endsWith_char.
  - intros value Hv. unfold appendParam.
    assert (Hd : is_undefined value = false)
      by (destruct value; [contradiction | reflexivity ..]).
    rewrite Hd. simpl. rewrite andb_true_r.
    now destruct (endsWith endpoint "?").
Qed.

Lemma appendParam_spec_witness :
  appendParam "done" (JNum 1) "/log.json?" = "/log.json?done=1"
  /\ appendParam "page" (JNum 2) "/log.json?done=1" = "/log.json?done=1&page=2".
Proof.
  split.
  - destruct (appendParam_spec "done" "/log.json?") as (_ & _ & H).
    rewrite (H (JNum 1)); [reflexivity | discriminate].
  - destruct (appendParam_spec "page" "/log.json?done=1") as (_ & _ & H).
    rewrite (H (JNum 2)); [reflexivity | discriminate].
Defined.

(** ** Promises *)

Section Promises.

Context {A B : Type}.

Lemma then_fulfilled (p : M A) (f : A -> M B) (s s1 : State) (a : A) :
  p s = (Fulfilled a, s1) ->
  then_ p f s =
  match f a s1 with
  | (Value b, s2) => (Fulfilled b, s2)
  | (Threw e, s2) => (Rejected e, s2)
  | r => r
  end.
Proof. intros H. unfold then_. now rewrite H. Qed.

Lemma then_rejected (p : M A) (f : A -> M B) (s s1 : State) (e : JsError) :
  p s = (Rejected e, s1) -> then_ p f s = (Rejected e, s1).
Proof. intros H. unfold then_. now rewrite H. Qed.

Lemma then_threw (p : M A) (f : A -> M B) (s s1 : State) (e : JsError) :
  p s = (Threw e, s1) -> then_ p f s = (Threw e, s1).
Proof. intros H. unfold then_. now rewrite H. Qed.

(** [then] always returns a promise or lets a throw pass. *)
Lemma then_not_value (p : M A) (f : A -> M B) (s : State) (b : B) (s' : State) :
  then_ p f s <> (Value b, s').
Proof.
  unfold then_. destruct (p s) as [[a|e|a|e|] s1]; try discriminate.
  destruct (f a s1) as [[b'|e|b'|e|] s2]; discriminate.
Qed.

End Promises.

(** [.catch((err) => { throw err; })] changes nothing on a promise. *)
Lemma catch_rethrow {A : Type} (p : M A) (s : State) :
  (forall a s', p s <> (Value a, s')) ->
  catch_ p (fun err => throw err) s = p s.
Proof.
  intros H. unfold catch_, throw.
  destruct (p s) as [[a|e|a|e|] s1]; try reflexivity.
  now destruct (H a s1).
Qed.

(** ** The request pipeline *)

Section Pipeline.

Variable E : Env.


(** [getAccessToken] ends in a throw or in a settled promise. *)
Lemma getAccessToken_outcomes (s : State) :
  exists s1,
    (exists e, getAccessToken E s = (Threw e, s1))
    \/ (exists e, getAccessToken E s = (Rejected e, s1))
    \/ (exists a, getAccessToken E s = (Fulfilled a, s1)).
Proof.
  unfold getAccessToken.
  destruct (farm_token s) as [t|]; [|eauto].
  destruct (token_expired E (history s) t).
  - unfold catch_, then_, refresh_call.
    destruct (token_refresh E (history s) t _) as [e|t']; cbn [settle].
    + cbn. eexists. right. left. eexists. reflexivity.
    + unfold bind, useToken, lift.
      destruct (accessToken_create E (token t')) as [e|newToken];
        [cbn; eexists; eauto|].
      destruct (js_get (token newToken) "access_token");
        cbn; eexists; eauto.
  - destruct (js_get (token t) "access_token"); unfold resolve; eauto.
Qed.

Lemma getCSRFToken_run (accessToken : Json) (s : State) :
  getCSRFToken E accessToken s =
  if is_nullish (farm_csrfToken s)
  then
    let url := host E ++ "/restws/session/token" in
    let opts := csrf_opts accessToken in
    let r := axios E (history s) url opts in
    let s1 := log_event (Http url opts r) s in
    match r with
    | inr body => (Fulfilled body, set_csrfToken body s1)
    | inl e => (Rejected e, s1)
    end
  else (Fulfilled (farm_csrfToken s), s).
Proof.
  unfold getCSRFToken. destruct (is_nullish (farm_csrfToken s)); [|reflexivity].
  unfold catch_, then_, axios_call. fold (csrf_opts accessToken).
  cbv zeta.
  now destruct (axios E (history s) (host E ++ "/restws/session/token")
                  (csrf_opts accessToken)).
Qed.

Lemma final_opts_eq (meth : string) (payload accessToken csrfToken : Json) :
  set_header "X-CSRF-Token" csrfToken
    (set_header "Authorization" (JStr ("Bearer " ++ to_string accessToken))
       (base_opts E meth (default_arg payload (JStr ""))))
  = request_opts E meth payload accessToken csrfToken.
Proof.
  unfold base_opts, request_opts.
  now destruct (String.eqb meth "POST" || String.eqb meth "PUT").
Qed.

(** The last step of [request]: the one HTTP call. *)
Lemma request_call_run (url : string) (opts : AxiosOpts) (s : State) :
  catch_ (then_ (axios_call E url opts) (fun res_data => ret res_data))
    (fun err => throw err) s
  = (settle (axios E (history s) url opts),
     log_event (Http url opts (axios E (history s) url opts)) s).
Proof.
  unfold catch_, then_, axios_call, ret, throw.
  now destruct (axios E (history s) url opts).
Qed.

(** [request] when both tokens are obtained. *)
Lemma request_run (endpoint meth : string) (payload : Json) (s s1 s2 : State)
  (a c : Json) :
  getAccessToken E s = (Fulfilled a, s1) ->
  getCSRFToken E a s1 = (Fulfilled c, s2) ->
  let url := host E ++ endpoint in
  let opts := request_opts E meth payload a c in
  let r := axios E (history s2) url opts in
  request E endpoint meth payload s = (settle r, log_event (Http url opts r) s2).
Proof.
  intros Ha Hc url opts r.
  unfold request. rewrite (then_fulfilled _ _ _ _ _ Ha).
  rewrite (then_fulfilled _ _ _ _ _ Hc).
  rewrite final_opts_eq, request_call_run. fold url opts r.
  now destruct r.
Qed.

(** C8. [request] first obtains the access token, then the CSRF token,
    then issues exactly one HTTP call, whose options carry both tokens
    as [Authorization: Bearer] and [X-CSRF-Token] headers and the
    serialized payload exactly when the method is POST or PUT, and
    resolves to the body of the response. The payload that is serialized
    is the one given, or [''], the default of the parameter, when it is
    [undefined]. An error of any of the three steps is the error of
    [request], and nothing is sent after it. *)
Theorem request_steps (endpoint meth : string) (payload : Json) (s : State) :
  (forall e s1, getAccessToken E s = (Threw e, s1) ->
     request E endpoint meth payload s = (Threw e, s1))
  /\ (forall e s1, getAccessToken E s = (Rejected e, s1) ->
        request E endpoint meth payload s = (Rejected e, s1))
  /\ (forall a s1, getAccessToken E s = (Fulfilled a, s1) ->
        (forall e s2, getCSRFToken E a s1 = (Rejected e, s2) ->
           request E endpoint meth payload s = (Rejected e, s2))
        /\ (forall c s2, getCSRFToken E a s1 = (Fulfilled c, s2) ->
              let url := host E ++ endpoint in
              let opts := request_opts E meth payload a c in
              let r := axios E (history s2) url opts in
              request E endpoint meth payload s =
              (settle r, log_event (Http url opts r) s2)
              /\ assoc "Authorization" (headers opts)
                 = Some (JStr ("Bearer " ++ to_string a))
              /\ assoc "X-CSRF-Token" (headers opts) = Some c
              /\ (data opts
                  = Some (JSON_stringify E (default_arg payload (JStr "")))
                  <-> meth = "POST" \/ meth = "PUT")
              /\ (payload = JUndefined ->
                  meth = "POST" \/ meth = "PUT" ->
                  data opts = Some (JSON_stringify E (JStr "")))
              /\ (data opts = None <-> ~ (meth = "POST" \/ meth = "PUT")))
        /\ exists s2,
             (exists e, getCSRFToken E a s1 = (Rejected e, s2))
             \/ (exists c, getCSRFToken E a s1 = (Fulfilled c, s2)))
  /\ exists s1,
       (exists e, getAccessToken E s = (Threw e, s1))
       \/ (exists e, getAccessToken E s = (Rejected e, s1))
       \/ (exists a, getAccessToken E s = (Fulfilled a, s1)).
Proof.
  split; [|split; [|split]].
  - intros e s1 H. unfold request. now apply then_threw.
  - intros e s1 H. unfold request. now apply then_rejected.
  - intros a s1 Ha. split; [|split].
    + intros e s2 Hc. unfold request. rewrite (then_fulfilled _ _ _ _ _ Ha).
      now rewrite (then_rejected _ _ _ _ _ Hc).
    + intros c s2 Hc url opts r. split; [|split; [|split; [|split; [|split]]]].
      * exact (request_run endpoint meth payload s s1 s2 a c Ha Hc).
      * reflexivity.
      * reflexivity.
      * unfold opts, request_opts; cbn [data].
        destruct (String.eqb meth "POST") eqn:H1;
          [apply String.eqb_eq in H1 | apply String.eqb_neq in H1];
          (destruct (String.eqb meth "PUT") eqn:H2;
           [apply String.eqb_eq in H2 | apply String.eqb_neq in H2]);
          cbn; split; intros H; auto; try discriminate.
        now destruct H.
      * intros -> [-> | ->]; reflexivity.
      * unfold opts, request_opts; cbn [data].
        destruct (String.eqb meth "POST") eqn:H1;
          [apply String.eqb_eq in H1 | apply String.eqb_neq in H1];
          (destruct (String.eqb meth "PUT") eqn:H2;
           [apply String.eqb_eq in H2 | apply String.eqb_neq in H2]);
          cbn; split; intros H; auto; try discriminate;
          try (exfalso; apply H; auto; fail).
        now intros [|].
    + rewrite getCSRFToken_run.
      destruct (is_nullish (farm_csrfToken s1)); cbv zeta.
      * destruct (axios E (history s1) _ _); eexists; eauto.
      * eexists; eauto.
  - apply getAccessToken_outcomes.
Qed.

End Pipeline.

(** ** The CSRF token, once cached, stays *)

Section CsrfCache.

Variable E : Env.

Lemma keeps_pure {A : Type} (m : M A) :
  (forall s, snd (m s) = s) -> keeps_csrf E m.
Proof. intros H s _. now rewrite H. Qed.

Lemma keeps_ret {A : Type} (a : A) : keeps_csrf E (ret a).
Proof. now apply keeps_pure. Qed.

Lemma keeps_throw {A : Type} (e : JsError) : keeps_csrf E (@throw A e).
Proof. now apply keeps_pure. Qed.

Lemma keeps_resolve {A : Type} (a : A) : keeps_csrf E (resolve a).
Proof. now apply keeps_pure. Qed.

Lemma keeps_lift {A : Type} (r : JsError + A) : keeps_csrf E (lift r).
Proof. destruct r; [apply keeps_throw | apply keeps_ret]. Qed.

Lemma keeps_seq {A B C : Type} (p : M A) (f : C -> M B) (s : State) :
  keeps_csrf E p -> (forall a, keeps_csrf E (f a)) ->
  is_nullish (farm_csrfToken s) = false ->
  forall a,
    farm_csrfToken (snd (f a (snd (p s)))) = farm_csrfToken s
    /\ csrf_fetches E (history (snd (f a (snd (p s)))))
       = csrf_fetches E (history s).
Proof.
  intros Hp Hf Hs a. destruct (Hp s Hs) as [H1 H2].
  assert (Hs1 : is_nullish (farm_csrfToken (snd (p s))) = false)
    by now rewrite H1.
  destruct (Hf a _ Hs1) as [H3 H4]. split; congruence.
Qed.

Lemma keeps_then {A B : Type} (p : M A) (f : A -> M B) :
  keeps_csrf E p -> (forall a, keeps_csrf E (f a)) -> keeps_csrf E (then_ p f).
Proof.
  intros Hp Hf s Hs. pose proof (Hp s Hs) as Hps.
  pose proof (keeps_seq p f s Hp Hf Hs) as Hfs.
  unfold then_. destruct (p s) as [[a|e|a|e|] s1]; try exact Hps.
  specialize (Hfs a). cbn [snd] in Hfs.
  destruct (f a s1) as [[b|e|b|e|] s2]; exact Hfs.
Qed.

Lemma keeps_catch {A : Type} (p : M A) (h : JsError -> M A) :
  keeps_csrf E p -> (forall e, keeps_csrf E (h e)) -> keeps_csrf E (catch_ p h).
Proof.
  intros Hp Hh s Hs. pose proof (Hp s Hs) as Hps.
  pose proof (keeps_seq p h s Hp Hh Hs) as Hhs.
  unfold catch_. destruct (p s) as [[a|e|a|e|] s1]; try exact Hps.
  specialize (Hhs e). cbn [snd] in Hhs.
  destruct (h e s1) as [[b|e'|b|e'|] s2]; exact Hhs.
Qed.

Lemma keeps_bind {A B : Type} (m : M A) (f : A -> M B) :
  keeps_csrf E m -> (forall a, keeps_csrf E (f a)) -> keeps_csrf E (bind m f).
Proof.
  intros Hm Hf s Hs. pose proof (Hm s Hs) as Hms.
  pose proof (keeps_seq m f s Hm Hf Hs) as Hfs.
  unfold bind. destruct (m s) as [[a|e|a|e|] s1]; try exact Hms.
  exact (Hfs a).
Qed.

(** Logging an exchange that is no CSRF fetch. *)
Lemma keeps_log {A : Type} (o : State -> Outcome A) (ev : State -> Event) :
  (forall s, is_csrf_fetch E (ev s) = false) ->
  keeps_csrf E (fun s => (o s, log_event (ev s) s)).
Proof.
  intros Hev s _. cbn. split; [reflexivity|].
  unfold csrf_fetches. rewrite filter_app. cbn. rewrite Hev.
  apply app_nil_r.
Qed.

Lemma assoc_set_field (k : string) (v : Json) (fields : list (string * Json)) :
  assoc k (set_field k v fields) = Some v.
Proof.
  induction fields as [|[k' v'] rest IH]; cbn.
  - now rewrite String.eqb_refl.
  - destruct (String.eqb k k') eqn:Hk; cbn.
    + now rewrite String.eqb_refl.
    + now rewrite Hk.
Qed.

Lemma keeps_getAccessToken : keeps_csrf E (getAccessToken E).
Proof.
  intros s Hs. unfold getAccessToken.
  destruct (farm_token s) as [t|]; [|now split].
  destruct (token_expired E (history s) t).
  - revert s Hs. apply keeps_catch; [|intros; apply keeps_throw].
    apply keeps_then.
    + unfold refresh_call. now apply (keeps_log (fun s => settle _) (fun s => Refresh _ _ _)).
    + intros a. apply keeps_bind; [|intros; apply keeps_lift].
      intros s _. unfold useToken.
      now destruct (accessToken_create E (token a)).
  - destruct (js_get (token t) "access_token"); now split.
Qed.

Lemma keeps_getCSRFToken (accessToken : Json) :
  keeps_csrf E (getCSRFToken E accessToken).
Proof.
  intros s Hs. rewrite getCSRFToken_run, Hs. now split.
Qed.

Lemma keeps_request (endpoint meth : string) (payload : Json) :
  keeps_csrf E (request E endpoint meth payload).
Proof.
  unfold request. apply keeps_then; [apply keeps_getAccessToken|].
  intros a. apply keeps_then; [apply keeps_getCSRFToken|].
  intros c. apply keeps_catch; [|intros; apply keeps_throw].
  apply keeps_then; [|intros; apply keeps_ret].
  unfold axios_call.
  apply (keeps_log (fun s => settle _) (fun s => Http _ _ _)).
  intros s. cbn [is_csrf_fetch set_header headers].
  rewrite assoc_set_field. apply andb_false_r.
Qed.

Lemma keeps_requestAll (fuel : nat) (url : string) :
  forall page acc, keeps_csrf E (requestAll E fuel url page acc).
Proof.
  induction fuel as [|fuel IH]; intros page acc; cbn [requestAll].
  - intros s _. now split.
  - apply keeps_catch; [|intros; apply keeps_throw].
    apply keeps_then; [apply keeps_request|].
    intros response. apply keeps_bind; [apply keeps_lift|].
    intros lastPage. destruct (page_is page lastPage).
    + apply keeps_bind; [apply keeps_lift | intros; apply keeps_ret].
    + apply keeps_bind; [apply keeps_lift | intros; apply IH].
Qed.

Ltac keeps_step :=
  first
    [ apply keeps_request | apply keeps_requestAll
    | apply keeps_getAccessToken | apply keeps_getCSRFToken
    | apply keeps_lift | apply keeps_ret | apply keeps_throw
    | apply keeps_resolve
    | apply keeps_catch | apply keeps_then | apply keeps_bind ].

Ltac keeps := repeat (intros; keeps_step).

Lemma keeps_batchRequest (name : string) (arr : list Json) (endpoint : string)
  (results : Json) :
  keeps_csrf E (batchRequest E name arr endpoint results).
Proof.
  funelim (batchRequest E name arr endpoint results); keeps.
  intros items s. now apply (H endpoint a items s).
Qed.

Lemma keeps_useToken (tok : Json) : keeps_csrf E (useToken E tok).
Proof.
  intros s _. unfold useToken. now destruct (accessToken_create E tok).
Qed.

Lemma keeps_authorize (user password scope : Json) :
  keeps_csrf E (authorize E user password scope).
Proof.
  unfold authorize.
  destruct (negb (is_nullish user) && negb (is_nullish password)); keeps.
  - now apply (keeps_log (fun s => settle _) (fun s => GetToken _ _)).
  - apply keeps_useToken.
Qed.

Lemma keeps_logout : keeps_csrf E (logout E).
Proof.
  intros s Hs. unfold logout. destruct (farm_token s) as [t|]; [|now split].
  cbn. split; [reflexivity|].
  unfold csrf_fetches. rewrite filter_app. cbn. apply app_nil_r.
Qed.

Lemma keeps_area_get (fuel : nat) (opts : Json) :
  keeps_csrf E (area_get E fuel opts).
Proof.
  unfold area_get. keeps. unfold area_get_then.
  destruct (default_arg opts (JObj [])); keeps; intros;
    match goal with |- keeps_csrf _ (if ?c then _ else _) => destruct c end;
    keeps.
Qed.

Lemma keeps_log_get (fuel : nat) (opts : Json) :
  keeps_csrf E (log_get E fuel opts).
Proof.
  unfold log_get.
  destruct (default_arg opts (JObj [])); keeps; intros;
    try (match goal with |- keeps_csrf _ (if ?c then _ else _) => destruct c end;
         keeps).
  apply keeps_batchRequest.
Qed.

Lemma keeps_run_call (c : Call) : keeps_csrf E (run_call E c).
Proof.
  destruct c; cbn [run_call];
    first [ apply keeps_useToken | apply keeps_authorize | apply keeps_logout
          | apply keeps_batchRequest | apply keeps_area_get
          | apply keeps_log_get | idtac ];
    try (unfold area_delete, area_send); keeps;
    unfold area_delete_then, area_send_then; keeps.
Qed.

Lemma keeps_run_calls (cs : list Call) (s : State) :
  is_nullish (farm_csrfToken s) = false ->
  farm_csrfToken (run_calls E cs s) = farm_csrfToken s
  /\ csrf_fetches E (history (run_calls E cs s)) = csrf_fetches E (history s).
Proof.
  revert s. induction cs as [|c cs IH]; intros s Hs; cbn [run_calls].
  - now split.
  - destruct (keeps_run_call c s Hs) as [H1 H2].
    destruct (IH (snd (run_call E c s))) as [H3 H4]; [congruence|].
    split; congruence.
Qed.

(** C7. With a cached CSRF token, [getCSRFToken] resolves to it and
    touches neither the client nor the network. Without one it makes
    exactly one GET to [host/restws/session/token] with the access token
    as bearer credential, stores the body of the response as the cached
    token and resolves to it (a failure rejects with the error of the
    call and stores nothing). Once a token is cached, no sequence of
    calls on the client replaces it or fetches another. *)
Theorem getCSRFToken_spec (accessToken : Json) (s : State) :
  (is_nullish (farm_csrfToken s) = false ->
   getCSRFToken E accessToken s = (Fulfilled (farm_csrfToken s), s))
  /\ (is_nullish (farm_csrfToken s) = true ->
      let url := host E ++ "/restws/session/token" in
      let opts := csrf_opts accessToken in
      let r := axios E (history s) url opts in
      let s1 := log_event (Http url opts r) s in
      method opts = "GET"
      /\ assoc "Authorization" (headers opts)
         = Some (JStr ("Bearer " ++ to_string accessToken))
      /\ getCSRFToken E accessToken s =
         match r with
         | inr body => (Fulfilled body, set_csrfToken body s1)
         | inl e => (Rejected e, s1)
         end)
  /\ (is_nullish (farm_csrfToken s) = false ->
      forall cs,
        farm_csrfToken (run_calls E cs s) = farm_csrfToken s
        /\ csrf_fetches E (history (run_calls E cs s))
           = csrf_fetches E (history s)).
Proof.
  split; [|split].
  - intros H. now rewrite getCSRFToken_run, H.
  - intros H url opts r s1. split; [reflexivity|]. split; [reflexivity|].
    now rewrite getCSRFToken_run, H.
  - intros H cs. now apply keeps_run_calls.
Qed.

End CsrfCache.

(** ** The pagination walk *)

Section Walk.

Variable E : Env.

Lemma page_is_nat (page lastPage : nat) :
  page_is page (Some (Z.of_nat lastPage)) = Nat.eqb page lastPage.
Proof.
  unfold page_is. destruct (Nat.eqb_spec page lastPage) as [->|Hne].
  - apply Z.eqb_refl.
  - apply Z.eqb_neq. lia.
Qed.

Lemma array_concat_array (acc items : list Json) :
  array_concat acc (JArr items) = (acc ++ items)%list.
Proof. reflexivity. Qed.

Lemma list_of_array (body : Json) (items : list Json) :
  js_get body "list" = inr (JArr items) -> list_of body = items.
Proof. intros H. unfold list_of. now rewrite H. Qed.

(** The walk over [pages], started at any page with any accumulator.
    [states k] is the client before the request for the [k]-th of the
    pages, which [request] fulfils with that page. *)
Lemma requestAll_walk (url : string) (pages : list Json) :
  forall (page : nat) (acc : list Json) (states : nat -> State) (fuel : nat),
    pages <> [] ->
    (forall body, In body pages -> page_of E (page + (length pages - 1)) body) ->
    (forall k body,
        nth_error pages k = Some body ->
        request_get E (url ++ "&page=" ++ string_of_nat (page + k)) (states k)
        = (Fulfilled body, states (S k))) ->
    length pages <= fuel ->
    requestAll E fuel url page acc (states 0) =
    (Fulfilled (list_result (acc ++ concat (map list_of pages))),
     states (length pages)).
Proof.
  induction pages as [|body rest IH]; intros page acc states fuel Hne Hpg Hreq Hfuel.
  - contradiction.
  - destruct fuel as [|fuel]; [cbn in Hfuel; lia|].
    pose proof (Hreq 0 body eq_refl) as H0. rewrite Nat.add_0_r in H0.
    destruct (Hpg body (or_introl eq_refl)) as [[items Hitems] Hlast].
    cbn [length] in Hlast. rewrite Nat.sub_succ, Nat.sub_0_r in Hlast.
    cbn [requestAll]. unfold catch_ at 1, then_ at 1. rewrite H0.
    unfold bind at 1, lift at 1. rewrite Hlast. cbn [ret].
    rewrite page_is_nat. cbn [map concat].
    rewrite (list_of_array _ _ Hitems).
    destruct rest as [|body' rest'].
    + rewrite Nat.add_0_r, Nat.eqb_refl. unfold bind, lift. rewrite Hitems.
      cbn [ret map concat length]. now rewrite app_nil_r.
    + destruct (Nat.eqb_spec page (page + length (body' :: rest')));
        [cbn [length] in *; lia|].
      unfold bind at 1, lift at 1. rewrite Hitems. cbn [ret].
      rewrite array_concat_array.
      rewrite (IH (page + 1) (acc ++ items)%list (fun k => states (S k)) fuel).
      * cbn [length]. now rewrite <- app_assoc.
      * discriminate.
      * intros b Hb. cbn [length] in *.
        replace (page + 1 + (S (length rest') - 1))
          with (page + (S (S (length rest')) - 1)) by lia.
        apply Hpg. now right.
      * intros k b Hk.
        replace (page + 1 + k) with (page + S k) by lia.
        now apply Hreq.
      * cbn [length] in *. lia.
Qed.

(** C2. When the successive requests of the walk are fulfilled with
    the [N] pages of [pages], in order ([states k] being the client
    before the request for page [k]), and every page reports [N - 1] as
    the last page, [requestAll(url)] resolves to the object whose [list]
    is the concatenation of the [list] arrays of all [N] pages, in page
    order, having made those [N] requests and no other. *)
Theorem requestAll_concatenates (url : string) (pages : list Json)
  (states : nat -> State) (fuel : nat) :
  pages <> [] ->
  (forall body, In body pages -> page_of E (length pages - 1) body) ->
  (forall k body,
      nth_error pages k = Some body ->
      request_get E (url ++ "&page=" ++ string_of_nat k) (states k)
      = (Fulfilled body, states (S k))) ->
  length pages <= fuel ->
  requestAll E fuel url 0 [] (states 0) =
  (Fulfilled (list_result (concat (map list_of pages))),
   states (length pages)).
Proof.
  intros Hne Hpg Hreq Hfuel.
  exact (requestAll_walk url pages 0 [] states fuel Hne Hpg Hreq Hfuel).
Qed.

End Walk.

(** ** A client in session *)

Section Sessions.

Variable E : Env.
Variables accessToken csrfToken : Json.

Local Abbreviation in_session s := (session E s accessToken csrfToken).
Local Abbreviation get_opts :=
  (request_opts E "GET" (JStr "") accessToken csrfToken).

Lemma session_extends (s s' : State) (evs : History) :
  in_session s -> extends s evs s' -> in_session s'.
Proof.
  intros (t & Ht & Hexp & Ha & Hc & Hn) (H1 & H2 & _).
  exists t. rewrite H1, H2. auto.
Qed.

Lemma extends_log (s : State) (ev : Event) : extends s [ev] (log_event ev s).
Proof. now repeat split. Qed.

Lemma session_log (s : State) (ev : Event) :
  in_session s -> in_session (log_event ev s).
Proof. intros Hs. exact (session_extends s _ [ev] Hs (extends_log s ev)). Qed.

Lemma extends_trans (s s1 s2 : State) (evs1 evs2 : History) :
  extends s evs1 s1 -> extends s1 evs2 s2 -> extends s (evs1 ++ evs2)%list s2.
Proof.
  intros (H1 & H2 & H3) (H4 & H5 & H6). repeat split; try congruence.
  now rewrite H6, H3, app_assoc.
Qed.

(** In session a [request] is exactly one HTTP call. *)
Lemma request_session (endpoint meth : string) (payload : Json) (s : State) :
  in_session s ->
  let url := host E ++ endpoint in
  let opts := request_opts E meth payload accessToken csrfToken in
  let r := axios E (history s) url opts in
  request E endpoint meth payload s = (settle r, log_event (Http url opts r) s).
Proof.
  intros (t & Ht & Hexp & Ha & Hc & Hn) url opts r.
  apply (request_run E endpoint meth payload s s s).
  - unfold getAccessToken. now rewrite Ht, Hexp, Ha.
  - rewrite getCSRFToken_run, Hc, Hn. now rewrite <- Hc.
Qed.

(** One page of [requestAll] in session. *)
Lemma requestAll_step (fuel : nat) (url : string) (page : nat)
  (acc : list Json) (s : State) :
  in_session s ->
  let r := axios E (history s) (page_url E url page) get_opts in
  let s1 := log_event (Http (page_url E url page) get_opts r) s in
  requestAll E (S fuel) url page acc s =
  match r with
  | inl e => (Rejected e, s1)
  | inr response =>
      match lastPage_of E response with
      | inl e => (Rejected e, s1)
      | inr lastPage =>
          match js_get response "list" with
          | inl e => (Rejected e, s1)
          | inr items =>
              if page_is page lastPage
              then (Fulfilled (list_result (array_concat acc items)), s1)
              else adopt (requestAll E fuel url (page + 1)
                            (array_concat acc items) s1)
          end
      end
  end.
Proof.
  intros Hs r s1. cbn [requestAll]. unfold request_get.
  pose proof (request_session (url ++ "&page=" ++ string_of_nat page)
                "GET" (JStr "") s Hs) as Hreq.
  cbv zeta in Hreq. fold (page_url E url page) in Hreq. fold r in Hreq.
  fold s1 in Hreq.
  unfold catch_ at 1. unfold then_ at 1. rewrite Hreq.
  destruct r as [e|response]; cbn [settle]; [reflexivity|].
  unfold bind at 1, lift at 1.
  destruct (lastPage_of E response) as [e|lastPage]; [reflexivity|].
  cbn [ret].
  destruct (page_is page lastPage).
  - unfold bind, lift. destruct (js_get response "list"); reflexivity.
  - unfold bind at 1, lift at 1.
    destruct (js_get response "list") as [e|items]; [reflexivity|].
    cbn [ret]. unfold adopt, throw.
    now destruct (requestAll E fuel url (page + 1) (array_concat acc items) s1)
      as [[b|e|b|e|] s2].
Qed.

(** *** Termination of the walk in session *)

(** If the response to the [k+1]-th request, should there be one,
    reports the page then asked for as the last, the walk has settled
    by then. *)
Lemma requestAll_settles (url : string) (k : nat) :
  forall (page : nat) (acc : list Json) (s : State) (fuel : nat),
    in_session s ->
    (forall h u o body,
        length h = length (history s) + k ->
        axios E h u o = inr body ->
        lastPage_of E body = inr (Some (Z.of_nat (page + k)))) ->
    k < fuel ->
    fst (requestAll E fuel url page acc s) <> Pending
    /\ length (history (snd (requestAll E fuel url page acc s)))
       <= length (history s) + (k + 1).
Proof.
  induction k as [|k IH]; intros page acc s fuel Hs Hlast Hfuel;
    (destruct fuel as [|fuel]; [lia|]);
    rewrite requestAll_step by exact Hs; cbv zeta;
    destruct (axios E (history s) (page_url E url page) get_opts)
      as [e|body] eqn:Hr;
    set (s1 := log_event _ s);
    assert (Hlen1 : length (history s1) = length (history s) + 1)
      by (subst s1; cbn; now rewrite length_app);
    try (cbn [fst snd]; split; [discriminate | lia]).
  - rewrite (Hlast (history s) _ _ body) by (lia || exact Hr).
    destruct (js_get body "list"); [cbn [fst snd]; split; [discriminate | lia]|].
    rewrite Nat.add_0_r, page_is_nat, Nat.eqb_refl.
    cbn [fst snd]; split; [discriminate | lia].
  - destruct (lastPage_of E body) as [e|lastPage];
      [cbn [fst snd]; split; [discriminate | lia]|].
    destruct (js_get body "list") as [e|items];
      [cbn [fst snd]; split; [discriminate | lia]|].
    destruct (page_is page lastPage); [cbn [fst snd]; split; [discriminate | lia]|].
    destruct (IH (page + 1) (array_concat acc items) s1 fuel) as [Hset Hlen].
    + now apply session_log.
    + intros h u o b Hh Hb.
      replace (page + 1 + k) with (page + S k) by lia.
      apply (Hlast h u o b); [lia | exact Hb].
    + lia.
    + destruct (requestAll E fuel url (page + 1) (array_concat acc items) s1)
        as [[b|e|b|e|] s2]; cbn [adopt fst snd] in *; split;
        try discriminate; try lia.
      now destruct Hset.
Qed.

(** With a server that always reports [L] as the last page, the walk
    from [page <= L] makes [L - page + 1] requests and then resolves;
    with less fuel than that it is still pending. *)
Lemma requestAll_constant_last (url : string) (L : nat) :
  (forall h u o, exists body, axios E h u o = inr body /\ page_of E L body) ->
  forall (fuel page : nat) (acc : list Json) (s : State),
    in_session s ->
    page <= L ->
    (L - page < fuel ->
     exists items s',
       requestAll E fuel url page acc s = (Fulfilled (list_result items), s')
       /\ length (history s') = length (history s) + (L - page + 1))
    /\ (fuel <= L - page ->
        exists s',
          requestAll E fuel url page acc s = (Pending, s')
          /\ length (history s') = length (history s) + fuel).
Proof.
  intros Hsrv. induction fuel as [|fuel IH]; intros page acc s Hs Hle.
  - split; [lia|]. intros _. exists s. cbn. split; [reflexivity | lia].
  - rewrite requestAll_step by exact Hs. cbv zeta.
    destruct (Hsrv (history s) (page_url E url page) get_opts)
      as (body & Hbody & [items Hitems] & Hlast).
    rewrite Hbody, Hlast, Hitems, page_is_nat.
    set (s1 := log_event _ s).
    assert (Hlen1 : length (history s1) = length (history s) + 1)
      by (subst s1; cbn; now rewrite length_app).
    destruct (Nat.eqb_spec page L) as [->|Hne].
    + split; [|lia]. intros _. do 2 eexists. split; [reflexivity|]. lia.
    + assert (Hs1 : in_session s1)
        by (now apply session_log).
      destruct (IH (page + 1) (array_concat acc (JArr items)) s1 Hs1)
        as [Hdone Hpend]; [lia|].
      split; intros Hf.
      * destruct Hdone as (items' & s' & Hrun & Hlen); [lia|].
        rewrite Hrun. cbn [adopt]. exists items', s'.
        split; [reflexivity | lia].
      * destruct Hpend as (s' & Hrun & Hlen); [lia|].
        rewrite Hrun. cbn [adopt]. exists s'. split; [reflexivity | lia].
Qed.

End Sessions.

(** ** The batch walk *)

Section Batches.

Variable E : Env.
Variables accessToken csrfToken : Json.

Local Abbreviation in_session s := (session E s accessToken csrfToken).
Local Abbreviation get_opts :=
  (request_opts E "GET" (JStr "") accessToken csrfToken).

Lemma batchRequest_small (name : string) (arr : list Json) (endpoint : string)
  (results0 : Json) :
  length arr <= 100 ->
  batchRequest E name arr endpoint results0 =
  (let results := default_arg results0 (JArr []) in
   query <- lift (appendArrayOfParams name (JArr arr) endpoint) ;;
   catch_
     (then_ (request_get E query)
        (fun _res =>
           _ <- lift (receiver results) ;;
           items <- lift (js_get _res "list") ;;
           all <- lift (js_concat results items) ;;
           ret (JObj [("list", all)])))
     (fun err => throw err)).
Proof.
  intros H. simp batchRequest.
  destruct (le_gt_dec (length arr) 100); [reflexivity | lia].
Qed.

Lemma batchRequest_large (name : string) (arr : list Json) (endpoint : string)
  (results0 : Json) :
  length arr > 100 ->
  batchRequest E name arr endpoint results0 =
  (let thisBatch := slice 0 99 arr in
   let nextBatch := slice_from 99 arr in
   query <- lift (appendArrayOfParams name (JArr thisBatch) endpoint) ;;
   catch_
     (then_ (request_get E query)
        (fun _res =>
           items <- lift (js_get _res "list") ;;
           batchRequest E name nextBatch endpoint items))
     (fun err => throw err)).
Proof.
  intros H. rewrite batchRequest_equation_1.
  destruct (le_gt_dec (length arr) 100); [lia | reflexivity].
Qed.

(** The last request of a batch walk, in session, with the lists of
    [results0] ([undefined] stands for the default, the empty array). *)
Lemma batch_last (name : string) (arr : list Json) (endpoint : string)
  (results0 : Json) (rs : list Json) (s : State) :
  in_session s ->
  serves_lists E ->
  length arr <= 100 ->
  default_arg results0 (JArr []) = JArr rs ->
  let url := host E ++ array_query name arr endpoint in
  let ev := Http url get_opts (axios E (history s) url get_opts) in
  batchRequest E name arr endpoint results0 s =
  (Fulfilled (list_result (rs ++ event_list ev)), log_event ev s).
Proof.
  intros Hs Hsrv Hlen Hres url ev.
  rewrite batchRequest_small by exact Hlen. cbv zeta. rewrite Hres.
  unfold bind at 1. cbn [appendArrayOfParams is_undefined negb lift ret].
  fold (array_query name arr endpoint).
  unfold catch_, then_, request_get.
  rewrite (request_session E accessToken csrfToken _ _ _ s Hs).
  fold url. subst ev.
  destruct (Hsrv (history s) url get_opts) as (body & items & Hbody & Hitems).
  rewrite Hbody. cbn [settle event_list].
  unfold bind, lift, receiver, ret. rewrite Hitems. cbn [js_concat].
  now rewrite (list_of_array _ _ Hitems).
Qed.

(** A request of a batch walk that is not the last, in session. *)
Lemma batch_more (name : string) (arr : list Json) (endpoint : string)
  (results0 : Json) (s : State) :
  in_session s ->
  serves_lists E ->
  length arr > 100 ->
  let url := host E ++ array_query name (slice 0 99 arr) endpoint in
  let ev := Http url get_opts (axios E (history s) url get_opts) in
  batchRequest E name arr endpoint results0 s =
  adopt (batchRequest E name (slice_from 99 arr) endpoint
           (JArr (event_list ev)) (log_event ev s)).
Proof.
  intros Hs Hsrv Hlen url ev.
  rewrite batchRequest_large by exact Hlen. cbv zeta.
  unfold bind at 1. cbn [appendArrayOfParams is_undefined negb lift ret].
  fold (array_query name (slice 0 99 arr) endpoint).
  unfold catch_ at 1, then_ at 1, request_get.
  rewrite (request_session E accessToken csrfToken _ _ _ s Hs).
  fold url. subst ev.
  destruct (Hsrv (history s) url get_opts) as (body & items & Hbody & Hitems).
  rewrite Hbody. cbn [settle event_list].
  unfold bind at 1, lift at 1. rewrite Hitems. cbn [ret].
  rewrite (list_of_array _ _ Hitems). unfold adopt, throw.
  now destruct (batchRequest E name (slice_from 99 arr) endpoint (JArr items) _)
    as [[b|e|b|e|] s2].
Qed.

Lemma batches_small (arr : list Json) :
  length arr <= 100 -> batches arr = [arr].
Proof.
  intros H. simp batches.
  destruct (le_gt_dec (length arr) 100); [reflexivity | lia].
Qed.

Lemma batches_large (arr : list Json) :
  length arr > 100 ->
  batches arr = slice 0 99 arr :: batches (slice_from 99 arr).
Proof.
  intros H. rewrite batches_equation_1.
  destruct (le_gt_dec (length arr) 100); [lia | reflexivity].
Qed.

Lemma length_slice_from (from : nat) (arr : list Json) :
  length (slice_from from arr) = length arr - from.
Proof. unfold slice_from. apply length_skipn. Qed.

(** The number of batches: [ceil((n - 1) / 99)] for [n >= 2]. *)
Lemma length_batches (n : nat) :
  forall arr, length arr = n -> 2 <= n ->
    length (batches arr) = ceil_div (n - 1) 99.
Proof.
  induction n as [n IH] using lt_wf_ind. intros arr Hn H2.
  destruct (le_gt_dec n 100) as [Hle|Hgt].
  - rewrite batches_small by lia. cbn [length]. unfold ceil_div.
    apply Nat.div_unique with (r := n - 2); lia.
  - rewrite batches_large by lia. cbn [length].
    rewrite (IH (n - 99)); [| lia | rewrite length_slice_from; lia | lia].
    unfold ceil_div.
    replace (n - 1 + 99 - 1) with ((n - 99 - 1 + 99 - 1) + 1 * 99) by lia.
    rewrite Nat.div_add by lia. lia.
Qed.

(** The batches are the array, cut up. *)
Lemma concat_batches (n : nat) :
  forall arr, length arr = n -> concat (batches arr) = arr.
Proof.
  induction n as [n IH] using lt_wf_ind. intros arr Hn.
  destruct (le_gt_dec n 100) as [Hle|Hgt].
  - rewrite batches_small by lia. cbn. apply app_nil_r.
  - rewrite batches_large by lia. cbn [concat].
    rewrite (IH (n - 99)); [| lia | rewrite length_slice_from; lia].
    unfold slice, slice_from. cbn [skipn]. rewrite Nat.sub_0_r.
    apply firstn_skipn.
Qed.

(** One request for each batch, in order. *)
Lemma batch_run (name endpoint : string) (n : nat) :
  forall (arr : list Json) (results0 : Json) (s : State),
    length arr = n ->
    in_session s ->
    serves_lists E ->
    exists evs,
      history (snd (batchRequest E name arr endpoint results0 s))
      = (history s ++ evs)%list
      /\ map event_url evs
         = map (fun b => host E ++ array_query name b endpoint) (batches arr).
Proof.
  induction n as [n IH] using lt_wf_ind. intros arr results0 s Hn Hs Hsrv.
  destruct (le_gt_dec n 100) as [Hle|Hgt].
  - rewrite batches_small by lia.
    rewrite batchRequest_small by lia. cbv zeta.
    unfold bind at 1. cbn [appendArrayOfParams is_undefined negb lift ret].
    fold (array_query name arr endpoint).
    unfold catch_, then_, request_get.
    rewrite (request_session E accessToken csrfToken _ _ _ s Hs).
    set (url := host E ++ array_query name arr endpoint).
    exists [Http url get_opts (axios E (history s) url get_opts)].
    split; [|reflexivity].
    destruct (axios E (history s) _ _) as [e|body]; cbn [settle];
      [reflexivity|].
    match goal with
    | |- context [match ?f ?st with _ => _ end] =>
        assert (Hsame : snd (f st) = st); [|destruct (f st) as [[b|e|b|e|] s2]]
    end; cbn [snd] in *; try (subst; reflexivity).
    unfold bind, lift, ret, throw.
    destruct (receiver _); [reflexivity|].
    destruct (js_get body "list"); [reflexivity|].
    destruct (js_concat _ _); reflexivity.
  - rewrite batches_large by lia.
    rewrite batch_more by (auto; lia). cbv zeta.
    set (ev := Http _ _ _). set (s1 := log_event ev s).
    destruct (IH (n - 99) ltac:(lia) (slice_from 99 arr)
                (JArr (event_list ev)) s1) as (evs & Hh & Hu).
    + rewrite length_slice_from. lia.
    + now apply session_log.
    + exact Hsrv.
    + exists (ev :: evs). split.
      * destruct (batchRequest E name (slice_from 99 arr) endpoint _ s1)
          as [[b|e|b|e|] s2]; cbn [adopt snd] in *; rewrite Hh;
          subst s1; cbn [log_event history]; now rewrite <- app_assoc.
      * cbn [map]. now rewrite Hu.
Qed.

(** X22. In session, with a server that answers every request with a
    list, [batchRequest] on an array of more than 99 elements issues
    one request for each batch of [batches], one after the other, to
    the URL that [appendArrayOfParams] builds of that batch; the
    batches are the array cut up (an array of at most 100 elements is
    one batch, a longer one is its first 99 elements and the batches of
    the rest), [ceil((length - 1)/99)] of them. When these are at most
    two (at most 199 elements), the result is the object whose [list]
    is the concatenation of the lists of all the responses. *)
Theorem batchRequest_batches (name : string) (arr : list Json)
  (endpoint : string) (s : State) :
  in_session s ->
  serves_lists E ->
  99 < length arr ->
  let run := batchRequest E name arr endpoint JUndefined s in
  exists evs,
    history (snd run) = (history s ++ evs)%list
    /\ map event_url evs
       = map (fun b => host E ++ array_query name b endpoint) (batches arr)
    /\ concat (batches arr) = arr
    /\ length evs = ceil_div (length arr - 1) 99
    /\ (length arr <= 199 ->
        fst run = Fulfilled (list_result (concat (map event_list evs)))).
Proof.
  intros Hs Hsrv Hlen run.
  pose proof (concat_batches (length arr) arr eq_refl) as Hcat.
  assert (Hcount : forall evs : History,
             map event_url evs
             = map (fun b => host E ++ array_query name b endpoint)
                 (batches arr) ->
             length evs = ceil_div (length arr - 1) 99).
  { intros evs Hu. rewrite <- (length_map event_url), Hu, length_map.
    apply length_batches; [reflexivity | lia]. }
  destruct (le_gt_dec (length arr) 100) as [Hle|Hgt];
    [| destruct (le_gt_dec (length arr) 199) as [Hle|Hgt']].
  - pose proof (batch_last name arr endpoint JUndefined [] s Hs Hsrv Hle
                  eq_refl) as Hrun.
    cbv zeta in Hrun. subst run. rewrite Hrun. eexists [_].
    assert (Hu : map event_url
                   [Http (host E ++ array_query name arr endpoint) get_opts
                      (axios E (history s)
                         (host E ++ array_query name arr endpoint) get_opts)]
                 = map (fun b => host E ++ array_query name b endpoint)
                     (batches arr))
      by now rewrite batches_small.
    split; [reflexivity|]. split; [exact Hu|]. split; [exact Hcat|].
    split; [exact (Hcount _ Hu)|].
    intros _. cbn [map concat fst]. now rewrite app_nil_r.
  - pose proof (batch_more name arr endpoint JUndefined s Hs Hsrv Hgt) as Hrun.
    cbv zeta in Hrun. subst run. rewrite Hrun.
    set (ev1 := Http _ _ _) in *. set (s1 := log_event ev1 s) in *.
    assert (Hs1 : in_session s1) by now apply session_log.
    assert (Hlen2 : length (slice_from 99 arr) <= 100)
      by (rewrite length_slice_from; lia).
    pose proof (batch_last name (slice_from 99 arr) endpoint
                  (JArr (event_list ev1)) (event_list ev1) s1 Hs1 Hsrv Hlen2
                  eq_refl) as Hrun2.
    cbv zeta in Hrun2. rewrite Hrun2. cbn [adopt fst snd].
    set (ev2 := Http (host E ++ array_query name (slice_from 99 arr) endpoint)
                  _ _) in *.
    assert (Hu : map event_url [ev1; ev2]
                 = map (fun b => host E ++ array_query name b endpoint)
                     (batches arr))
      by (rewrite batches_large, batches_small by assumption; reflexivity).
    exists [ev1; ev2].
    split; [subst s1; cbn; now rewrite <- app_assoc|].
    split; [exact Hu|]. split; [exact Hcat|]. split; [exact (Hcount _ Hu)|].
    intros _. cbn [map concat]. now rewrite app_nil_r.
  - destruct (batch_run name endpoint (length arr) arr JUndefined s eq_refl
                Hs Hsrv) as (evs & Hh & Hu).
    exists evs. split; [exact Hh|]. split; [exact Hu|]. split; [exact Hcat|].
    split; [exact (Hcount _ Hu) | lia].
Qed.

End Batches.

(** ** Areas *)

Section Areas.

Variable E : Env.
Variables accessToken csrfToken : Json.

Local Abbreviation in_session s := (session E s accessToken csrfToken).
Local Abbreviation get_opts :=
  (request_opts E "GET" (JStr "") accessToken csrfToken).
Local Abbreviation quiet m := (logs_only E accessToken csrfToken m).

Lemma extends_refl (s : State) : extends s [] s.
Proof. repeat split. now rewrite app_nil_r. Qed.

Lemma quiet_pure {A : Type} (m : M A) :
  (forall s, snd (m s) = s) -> quiet m.
Proof. intros H s _. exists []. rewrite H. apply extends_refl. Qed.

Lemma quiet_lift {A : Type} (r : JsError + A) : quiet (lift r).
Proof. apply quiet_pure. now destruct r. Qed.

Lemma quiet_seq {A B C : Type} (p : M A) (f : C -> M B) (s : State) :
  quiet p -> (forall a, quiet (f a)) -> in_session s ->
  forall a, exists evs, extends s evs (snd (f a (snd (p s)))).
Proof.
  intros Hp Hf Hs a. destruct (Hp s Hs) as [evs1 H1].
  destruct (Hf a (snd (p s))) as [evs2 H2].
  - exact (session_extends E _ _ s _ evs1 Hs H1).
  - exists (evs1 ++ evs2)%list. exact (extends_trans _ _ _ _ _ H1 H2).
Qed.

Lemma quiet_then {A B : Type} (p : M A) (f : A -> M B) :
  quiet p -> (forall a, quiet (f a)) -> quiet (then_ p f).
Proof.
  intros Hp Hf s Hs. pose proof (Hp s Hs) as Hps.
  pose proof (quiet_seq p f s Hp Hf Hs) as Hfs.
  unfold then_. destruct (p s) as [[a|e|a|e|] s1]; try exact Hps.
  specialize (Hfs a). cbn [snd] in Hfs.
  destruct (f a s1) as [[b|e|b|e|] s2]; exact Hfs.
Qed.

Lemma quiet_catch {A : Type} (p : M A) (h : JsError -> M A) :
  quiet p -> (forall e, quiet (h e)) -> quiet (catch_ p h).
Proof.
  intros Hp Hh s Hs. pose proof (Hp s Hs) as Hps.
  pose proof (quiet_seq p h s Hp Hh Hs) as Hhs.
  unfold catch_. destruct (p s) as [[a|e|a|e|] s1]; try exact Hps.
  specialize (Hhs e). cbn [snd] in Hhs.
  destruct (h e s1) as [[b|e'|b|e'|] s2]; exact Hhs.
Qed.

Lemma quiet_bind {A B : Type} (m : M A) (f : A -> M B) :
  quiet m -> (forall a, quiet (f a)) -> quiet (bind m f).
Proof.
  intros Hm Hf s Hs. pose proof (Hm s Hs) as Hms.
  pose proof (quiet_seq m f s Hm Hf Hs) as Hfs.
  unfold bind. destruct (m s) as [[a|e|a|e|] s1]; try exact Hms.
  exact (Hfs a).
Qed.

Lemma quiet_request (endpoint meth : string) (payload : Json) :
  quiet (request E endpoint meth payload).
Proof.
  intros s Hs.
  rewrite (request_session E accessToken csrfToken _ _ _ s Hs).
  eexists. apply extends_log.
Qed.

Lemma quiet_requestAll (fuel : nat) (url : string) :
  forall page acc, quiet (requestAll E fuel url page acc).
Proof.
  induction fuel as [|fuel IH]; intros page acc; cbn [requestAll].
  - now apply quiet_pure.
  - apply quiet_catch; [|intros; now apply quiet_pure].
    apply quiet_then; [apply quiet_request|].
    intros response. apply quiet_bind; [apply quiet_lift|].
    intros lastPage. destruct (page_is page lastPage).
    + apply quiet_bind; [apply quiet_lift | intros; now apply quiet_pure].
    + apply quiet_bind; [apply quiet_lift | intros; apply IH].
Qed.

(** A call that starts with a [request] and goes on quietly: its first
    exchange is that request. *)
Lemma request_first {B : Type} (endpoint meth : string) (payload : Json)
  (k : Json -> M B) (s : State) :
  in_session s ->
  (forall body, quiet (k body)) ->
  let url := host E ++ endpoint in
  let opts := request_opts E meth payload accessToken csrfToken in
  let r := axios E (history s) url opts in
  let s1 := log_event (Http url opts r) s in
  then_ (request E endpoint meth payload) k s =
  match r with
  | inl e => (Rejected e, s1)
  | inr body => adopt (k body s1)
  end
  /\ exists rest,
       extends s (Http url opts r :: rest)
         (snd (then_ (request E endpoint meth payload) k s)).
Proof.
  intros Hs Hk url opts r s1.
  assert (Hrun : then_ (request E endpoint meth payload) k s =
                 match r with
                 | inl e => (Rejected e, s1)
                 | inr body => adopt (k body s1)
                 end).
  { unfold then_.
    rewrite (request_session E accessToken csrfToken _ _ _ s Hs).
    fold url opts r s1. destruct r as [e|body]; cbn [settle]; [reflexivity|].
    unfold adopt. now destruct (k body s1) as [[b|e|b|e|] s2]. }
  split; [exact Hrun|]. rewrite Hrun.
  destruct r as [e|body] eqn:Hr.
  - exists []. apply extends_log.
  - destruct (Hk body s1) as [rest Hrest]; [now apply session_log|].
    exists rest.
    replace (snd (adopt (k body s1))) with (snd (k body s1))
      by (unfold adopt; now destruct (k body s1) as [[b|e|b|e|] s2]).
    exact (extends_trans _ _ _ [_] _ (extends_log s _) Hrest).
Qed.

Ltac quiet_step :=
  first
    [ apply quiet_request | apply quiet_requestAll | apply quiet_lift
    | apply quiet_catch | apply quiet_then | apply quiet_bind ].

Ltac quiet_tac := repeat (intros; quiet_step).

Lemma quiet_area_delete_then (id res : Json) :
  quiet (area_delete_then E id res).
Proof. unfold area_delete_then. quiet_tac. Qed.

Lemma quiet_area_send_then (payload id res : Json) :
  quiet (area_send_then E payload id res).
Proof. unfold area_send_then. quiet_tac. Qed.

Lemma quiet_area_get_then (fuel : nat) (opts res : Json) :
  quiet (area_get_then E fuel opts res).
Proof.
  unfold area_get_then, request_get.
  destruct opts; quiet_tac; intros; cbv zeta;
    match goal with |- logs_only _ _ _ (if ?c then _ else _) => destruct c end;
    quiet_tac.
Qed.

Lemma quiet_area_then (c : Call) (res : Json) : quiet (area_then E c res).
Proof.
  destruct c; cbn [area_then]; try now apply quiet_pure.
  - apply quiet_area_delete_then.
  - apply quiet_area_get_then.
  - apply quiet_area_send_then.
Qed.

Lemma area_call_then (c : Call) :
  is_area_call c = true ->
  run_call E c =
  then_ (request E "/taxonomy_vocabulary.json" "GET" (JStr "")) (area_then E c).
Proof. now destruct c. Qed.

(** No area callback sends anything before it has the vid. *)
Lemma area_then_no_vid (c : Call) (res : Json) (e : JsError) (s : State) :
  areaVid res = inl e -> snd (area_then E c res s) = s.
Proof.
  intros He. destruct c; try reflexivity; cbn [area_then].
  - unfold area_delete_then, bind, lift. now rewrite He.
  - unfold area_get_then.
    destruct (default_arg opts (JObj [])); unfold bind, lift;
      rewrite ?He; try reflexivity;
      (destruct (destructure _ "page" JNull) as [e1|page]; [reflexivity|]);
      (destruct (destructure _ "type" (JStr "")) as [e2|type]; [reflexivity|]);
      cbn [ret]; destruct (is_null page); rewrite ?He; reflexivity.
  - unfold area_send_then, bind, lift. now rewrite He.
Qed.

(** In session the walk over the pages is a promise, which [then]
    passes on as it is. *)
Lemma requestAll_adopt (fuel : nat) (url : string) (page : nat)
  (acc : list Json) (s : State) :
  in_session s ->
  adopt (requestAll E fuel url page acc s) = requestAll E fuel url page acc s.
Proof.
  intros Hs. destruct fuel as [|fuel]; [reflexivity|]. cbn [requestAll].
  unfold catch_, then_, request_get.
  rewrite (request_session E accessToken csrfToken _ _ _ s Hs). cbv zeta.
  destruct (axios E (history s) _ _) as [e|body]; cbn [settle];
    [reflexivity|].
  match goal with
  | |- context [bind ?m ?k ?s1] => destruct (bind m k s1) as [[b|e|b|e|] s2]
  end; reflexivity.
Qed.

(** C9. Every area call ([area.delete], [area.get], [area.send]) is
    the [request] of [/taxonomy_vocabulary.json] followed by its
    callback. In session that is: the first exchange is the GET of
    [/taxonomy_vocabulary.json]; when that fails, or holds no
    [farm_areas] vocabulary to take the vid from, nothing else is sent;
    otherwise the main request follows, with the vid in its URL: for
    [area.delete] and [area.send] the DELETE and the POST of
    [/taxonomy_term.json?vocabulary={vid}] followed by [params(id)];
    for [area.get(n)] the GET of
    [/taxonomy_term.json?vocabulary={vid}&tid=n]; for [area.get(opts)]
    with anything but a number (an options object, or nothing) the
    walk over all pages of
    [/taxonomy_term.json?vocabulary={vid}&{typeParams}] when
    [opts.page] is [null] or missing, and otherwise the GET of that URL
    followed by [&page={page}], where [typeParams] is
    [area_type={type}], or nothing for the type ['']; options that
    cannot be read ([null]) reject the call after the lookup. Nothing
    of the lookup is kept: the client is left as it was but for the
    log, and an area call that follows starts with a lookup of its
    own. *)
Theorem area_lookup_first (c : Call) (s : State) :
  is_area_call c = true ->
  run_call E c =
  then_ (request E "/taxonomy_vocabulary.json" "GET" (JStr "")) (area_then E c)
  /\
  (in_session s ->
  let url := host E ++ "/taxonomy_vocabulary.json" in
  let r := axios E (history s) url get_opts in
  let lookup := Http url get_opts r in
  let s1 := log_event lookup s in
  let s' := snd (run_call E c s) in
  (exists rest, history s' = (history s ++ lookup :: rest)%list)
  /\ ((forall vocab, r = inr vocab -> exists e, areaVid vocab = inl e) ->
      history s' = (history s ++ [lookup])%list)
  /\ (forall vocab vid,
        r = inr vocab -> areaVid vocab = inr vid ->
        match c with
        | CallAreaDelete id =>
            run_call E c s =
            request E
              ("/taxonomy_term.json?vocabulary=" ++ to_string vid ++ params id)
              "DELETE" (JStr "") s1
        | CallAreaSend payload id =>
            run_call E c s =
            request E
              ("/taxonomy_term.json?vocabulary=" ++ to_string vid ++ params id)
              "POST" payload s1
        | CallAreaGet fuel opts0 =>
            match default_arg opts0 (JObj []) with
            | JNum n =>
                run_call E c s =
                request E
                  ("/taxonomy_term.json?vocabulary=" ++ to_string vid
                   ++ "&tid=" ++ string_of_Z n)
                  "GET" (JStr "") s1
            | opts =>
                (forall e,
                    js_get opts "page" = inl e ->
                    run_call E c s = (Rejected e, s1))
                /\ (forall page type,
                      destructure opts "page" JNull = inr page ->
                      destructure opts "type" (JStr "") = inr type ->
                      let typeParams :=
                        if strict_eq_str type "" then ""
                        else "area_type=" ++ to_string type in
                      run_call E c s =
                      if is_null page
                      then
                        requestAll E fuel
                          ("/taxonomy_term.json?vocabulary=" ++ to_string vid
                           ++ "&" ++ typeParams) 0 [] s1
                      else
                        request E
                          ("/taxonomy_term.json?vocabulary=" ++ to_string vid
                           ++ "&" ++ typeParams
                           ++ "&page=" ++ to_string page)
                          "GET" (JStr "") s1)
            end
        | _ => False
        end)
  /\ farm_token s' = farm_token s
  /\ farm_csrfToken s' = farm_csrfToken s
  /\ (forall c2,
        is_area_call c2 = true ->
        exists rest2,
          history (run_calls E [c; c2] s) =
          (history s'
             ++ Http url get_opts (axios E (history s') url get_opts)
             :: rest2)%list)).
Proof.
  intros Hc. split; [exact (area_call_then c Hc)|].
  intros Hs url r lookup s1 s'.
  assert (Hfirst : forall c0 s0,
             in_session s0 -> is_area_call c0 = true ->
             exists rest,
               extends s0
                 (Http url get_opts (axios E (history s0) url get_opts) :: rest)
                 (snd (run_call E c0 s0))).
  { intros c0 s0 Hs0 Hc0. rewrite (area_call_then c0 Hc0).
    apply request_first; [exact Hs0|].
    apply quiet_area_then. }
  destruct (request_first "/taxonomy_vocabulary.json"
              "GET" (JStr "") (area_then E c) s Hs (quiet_area_then c))
    as [Hrun _].
  cbv zeta in Hrun. fold url r lookup s1 in Hrun.
  rewrite <- (area_call_then c Hc) in Hrun.
  destruct (Hfirst c s Hs Hc) as (rest & Hext).
  fold r lookup s' in Hext.
  assert (Hs' : in_session s') by exact (session_extends E _ _ s s' _ Hs Hext).
  assert (Hs1 : in_session s1) by now apply session_log.
  assert (Hreq : forall endpoint meth payload,
             adopt (request E endpoint meth payload s1)
             = request E endpoint meth payload s1).
  { intros. rewrite (request_session E accessToken csrfToken _ _ _ s1 Hs1).
    cbv zeta. now destruct (axios E (history s1) _ _). }
  destruct Hext as (Htok & Hcsrf & Hhist).
  split; [now exists rest|].
  split; [|split; [|split; [exact Htok|split; [exact Hcsrf|]]]].
  - intros Hfail. subst s'. rewrite Hrun.
    destruct r as [e|vocab] eqn:Hr; [reflexivity|].
    destruct (Hfail vocab eq_refl) as [e He].
    pose proof (area_then_no_vid c vocab e s1 He) as Hsame.
    destruct (area_then E c vocab s1) as [[b|e'|b|e'|] s2];
      cbn [adopt snd] in *; now subst s2.
  - intros vocab vid Hr Hvid. rewrite Hrun, Hr.
    destruct c; try discriminate; cbn [area_then].
    + unfold area_delete_then, bind, lift. rewrite Hvid. apply Hreq.
    + assert (Hobj : forall opts1,
                 (forall e,
                     js_get opts1 "page" = inl e ->
                     adopt
                       ((page <- lift (destructure opts1 "page" JNull) ;;
                         type <- lift (destructure opts1 "type" (JStr "")) ;;
                         if is_null page
                         then
                           vid0 <- lift (areaVid vocab) ;;
                           requestAll E fuel
                             ("/taxonomy_term.json?vocabulary="
                              ++ to_string vid0 ++ "&"
                              ++ (if negb (strict_eq_str type "")
                                  then "area_type=" ++ to_string type else ""))
                             0 []
                         else
                           vid0 <- lift (areaVid vocab) ;;
                           request_get E
                             ("/taxonomy_term.json?vocabulary="
                              ++ to_string vid0 ++ "&"
                              ++ (if negb (strict_eq_str type "")
                                  then "area_type=" ++ to_string type else "")
                              ++ "&"
                              ++ (if negb (is_null page)
                                  then "page=" ++ to_string page else ""))) s1)
                     = (Rejected e, s1))
                 /\ (forall page type,
                       destructure opts1 "page" JNull = inr page ->
                       destructure opts1 "type" (JStr "") = inr type ->
                       adopt
                         ((page <- lift (destructure opts1 "page" JNull) ;;
                           type <- lift (destructure opts1 "type" (JStr "")) ;;
                           if is_null page
                           then
                             vid0 <- lift (areaVid vocab) ;;
                             requestAll E fuel
                               ("/taxonomy_term.json?vocabulary="
                                ++ to_string vid0 ++ "&"
                                ++ (if negb (strict_eq_str type "")
                                    then "area_type=" ++ to_string type
                                    else ""))
                               0 []
                           else
                             vid0 <- lift (areaVid vocab) ;;
                             request_get E
                               ("/taxonomy_term.json?vocabulary="
                                ++ to_string vid0 ++ "&"
                                ++ (if negb (strict_eq_str type "")
                                    then "area_type=" ++ to_string type
                                    else "")
                                ++ "&"
                                ++ (if negb (is_null page)
                                    then "page=" ++ to_string page else "")))
                            s1)
                       = if is_null page
                         then
                           requestAll E fuel
                             ("/taxonomy_term.json?vocabulary="
                              ++ to_string vid ++ "&"
                              ++ (if strict_eq_str type "" then ""
                                  else "area_type=" ++ to_string type))
                             0 [] s1
                         else
                           request E
                             ("/taxonomy_term.json?vocabulary="
                              ++ to_string vid ++ "&"
                              ++ (if strict_eq_str type "" then ""
                                  else "area_type=" ++ to_string type)
                              ++ "&page=" ++ to_string page)
                             "GET" (JStr "") s1)).
      { intros opts1. split.
        - intros e He. unfold destructure, bind, lift. now rewrite He.
        - intros page type Hp Ht. unfold bind at 1, lift at 1. rewrite Hp.
          cbn [ret]. unfold bind at 1, lift at 1. rewrite Ht. cbn [ret].
          destruct (is_null page) eqn:Hnull; unfold bind, lift;
            rewrite Hvid; cbn [ret negb].
          + destruct (strict_eq_str type ""); cbn [negb];
              now apply requestAll_adopt.
          + unfold request_get.
            destruct (strict_eq_str type ""); cbn [negb]; apply Hreq. }
      unfold area_get_then.
      destruct (default_arg opts (JObj [])); try apply Hobj.
      unfold request_get, bind, lift. rewrite Hvid. apply Hreq.
    + unfold area_send_then, bind, lift. rewrite Hvid. apply Hreq.
  - intros c2 Hc2. cbn [run_calls]. fold s'.
    destruct (Hfirst c2 s' Hs' Hc2) as (rest2 & _ & _ & Hh2).
    now exists rest2.
Qed.

End Areas.

(** ** Logs by identifier *)

Section Logs.

Variable E : Env.

Lemma no_value_then {A B : Type} (p : M A) (f : A -> M B) :
  no_value (then_ p f).
Proof. intros s b s'. apply then_not_value. Qed.

Lemma no_value_rethrow {A : Type} (p : M A) :
  no_value p -> no_value (catch_ p (fun err => throw err)).
Proof.
  intros Hp s b s'. rewrite catch_rethrow by (intros; apply Hp). apply Hp.
Qed.

Lemma no_value_bind_lift {A B : Type} (r : JsError + A) (k : A -> M B) :
  (forall a, no_value (k a)) -> no_value (bind (lift r) k).
Proof.
  intros Hk s b s'. destruct r as [e|a]; cbn; [discriminate | apply Hk].
Qed.

Lemma no_value_request (endpoint meth : string) (payload : Json) :
  no_value (request E endpoint meth payload).
Proof. apply no_value_then. Qed.

Lemma no_value_requestAll (fuel : nat) (url : string) (page : nat)
  (acc : list Json) :
  no_value (requestAll E fuel url page acc).
Proof.
  destruct fuel as [|fuel]; cbn [requestAll].
  - intros s b s'. discriminate.
  - apply no_value_rethrow, no_value_then.
Qed.

Lemma no_value_batchRequest (name : string) (arr : list Json)
  (endpoint : string) (results : Json) :
  no_value (batchRequest E name arr endpoint results).
Proof.
  destruct (le_gt_dec (length arr) 100).
  - rewrite batchRequest_small by assumption. cbv zeta.
    apply no_value_bind_lift. intros q.
    apply no_value_rethrow, no_value_then.
  - rewrite batchRequest_large by assumption. cbv zeta.
    apply no_value_bind_lift. intros q.
    apply no_value_rethrow, no_value_then.
Qed.

(** C10. [log.get([])] returns the plain object [{ list: [] }] at once:
    the client and the network log are untouched. For a non-empty array
    of identifiers it is the call of [batchRequest] on them. No other
    argument makes [log.get] return a plain value: every other branch
    returns a promise (or throws). *)
Theorem log_get_empty (fuel : nat) (s : State) :
  log_get E fuel (JArr []) s = (Value (list_result []), s)
  /\ (forall ids,
        ids <> [] ->
        log_get E fuel (JArr ids) =
        batchRequest E "id" ids "/log.json?" JUndefined)
  /\ (forall opts v s',
        log_get E fuel opts s = (Value v, s') -> opts = JArr []).
Proof.
  split; [reflexivity|]. split.
  - intros [|id ids] H; [contradiction | reflexivity].
  - intros opts v s'. unfold log_get.
    destruct opts as [| |b|n|str|[|id ids]|fields];
      cbn [default_arg is_undefined]; intros H; try reflexivity; exfalso;
      revert H;
      try apply no_value_request;
      try apply no_value_batchRequest;
      repeat (apply no_value_bind_lift; intros);
      match goal with
      | |- no_value (if ?c then _ else _) =>
          destruct c; [apply no_value_request | apply no_value_requestAll]
      end.
Qed.

End Logs.

(** ** Reading appended queries back *)

Section ReadBack.

Lemma append_nil_r (s : string) : s ++ "" = s.
Proof. induction s as [|a s IH]; cbn; [reflexivity | now rewrite IH]. Qed.

Lemma append_assoc (s t u : string) : (s ++ t) ++ u = s ++ t ++ u.
Proof. induction s as [|a s IH]; cbn; [reflexivity | now rewrite IH]. Qed.

Lemma contains_append (c : ascii) (s t : string) :
  contains c (s ++ t) = contains c s || contains c t.
Proof.
  induction s as [|a s IH]; cbn; [reflexivity|].
  now rewrite IH, orb_assoc.
Qed.

Lemma split_on_cons (c : ascii) (s : string) :
  exists piece pieces, split_on c s = piece :: pieces.
Proof.
  destruct s as [|a s]; cbn; [eauto|].
  destruct (Ascii.eqb a c); [eauto|].
  destruct (split_on c s); eauto.
Qed.

Lemma split_on_append (c : ascii) (s t : string) :
  split_on c (s ++ String c t) = (split_on c s ++ split_on c t)%list.
Proof.
  induction s as [|a s IH]; cbn [append split_on].
  - now rewrite Ascii.eqb_refl.
  - destruct (Ascii.eqb a c); rewrite IH; [reflexivity|].
    destruct (split_on_cons c s) as (piece & pieces & ->). reflexivity.
Qed.

Lemma split_on_absent (c : ascii) (s : string) :
  contains c s = false -> split_on c s = [s].
Proof.
  induction s as [|a s IH]; cbn; [reflexivity|].
  destruct (Ascii.eqb a c); [discriminate|]. cbn. intros H.
  now rewrite (IH H).
Qed.

Lemma split_pair_append (k v : string) :
  contains "="%char k = false -> split_pair (k ++ String "="%char v) = (k, v).
Proof.
  induction k as [|a k IH]; cbn; [reflexivity|].
  destruct (Ascii.eqb a "="%char); [discriminate|]. cbn. intros H.
  now rewrite (IH H).
Qed.

Lemma query_pairs_append (s t : string) :
  query_pairs (s ++ "&" ++ t) = (query_pairs s ++ query_pairs t)%list.
Proof.
  unfold query_pairs. cbn [append].
  now rewrite split_on_append, filter_app, map_app.
Qed.

Lemma query_pairs_one (k v : string) :
  clean_pair (k, v) = true -> query_pairs (k ++ "=" ++ v) = [(k, v)].
Proof.
  unfold clean_pair, clean_key, clean_value. cbn [fst snd append].
  rewrite !andb_true_iff, !negb_true_iff. intros [[Hk1 Hk2] [Hv _]].
  unfold query_pairs. rewrite split_on_absent.
  - assert (Hne : nonempty (k ++ String "="%char v) = true)
      by now destruct k.
    cbn [filter]. rewrite Hne. cbn [map]. now rewrite split_pair_append.
  - rewrite contains_append. cbn [contains]. now rewrite Hk1, Hv.
Qed.

Lemma endsWith_append (s t : string) (c : ascii) :
  t <> "" ->
  endsWith (s ++ t) (String c "") = endsWith t (String c "").
Proof.
  intros Ht. induction s as [|a s IH]; [reflexivity|].
  cbn [append]. cbn [endsWith]. rewrite IH.
  replace (String.eqb (String a (s ++ t)) (String c "")) with false;
    [reflexivity|].
  symmetry. apply String.eqb_neq. intros H. injection H as _ H.
  destruct s; [now subst | discriminate].
Qed.

Lemma endsWith_value (v : string) :
  clean_value v = true -> endsWith (String "="%char v) "?" = false.
Proof.
  unfold clean_value. rewrite andb_true_iff, !negb_true_iff. intros [_ Hv].
  cbn [endsWith]. destruct v as [|a v]; [reflexivity|].
  replace (String.eqb (String "="%char (String a v)) "?") with false;
    [exact Hv|].
  reflexivity.
Qed.

(** One [appendParam] keeps the reading. *)
Lemma appended_param (endpoint cur key : string) (value : Json)
  (pairs : list (string * string)) :
  appended endpoint cur pairs ->
  forallb clean_pair (pair_of key value) = true ->
  appended endpoint (appendParam key value cur) (pairs ++ pair_of key value).
Proof.
  intros (suffix & Hcur & Hpairs & Hend) Hclean.
  unfold appendParam, pair_of in *.
  destruct (is_undefined value); cbn [negb] in *.
  - rewrite andb_false_r, app_nil_r. now exists suffix.
  - cbn [forallb] in Hclean. rewrite andb_true_r in *.
    assert (Hv : clean_value (to_string value) = true)
      by (unfold clean_pair in Hclean; cbn [fst snd] in Hclean;
          now apply andb_true_iff in Hclean).
    assert (Hnew : forall sep,
               endsWith (cur ++ sep ++ key ++ "=" ++ to_string value) "?"
               = false).
    { intros sep.
      replace (cur ++ sep ++ key ++ "=" ++ to_string value)
        with ((cur ++ sep ++ key) ++ String "="%char (to_string value))
        by (rewrite !append_assoc; reflexivity).
      rewrite endsWith_append by discriminate. now apply endsWith_value. }
    destruct (endsWith cur "?") eqn:Hq.
    + destruct Hend as [-> | Hend]; [|congruence].
      exists (key ++ "=" ++ to_string value). split; [|split].
      * rewrite Hcur, append_nil_r. reflexivity.
      * rewrite query_pairs_one by exact Hclean. now subst pairs.
      * right. exact (Hnew "").
    + exists (suffix ++ "&" ++ key ++ "=" ++ to_string value).
      split; [|split].
      * rewrite Hcur. now rewrite append_assoc.
      * rewrite query_pairs_append, query_pairs_one by exact Hclean.
        now rewrite Hpairs.
      * right. exact (Hnew "&").
Qed.

Lemma appended_array (endpoint name : string) (arr : list Json) :
  forall (i : nat) (cur : string) (pairs : list (string * string)),
    appended endpoint cur pairs ->
    forallb clean_pair (array_pairs name i arr) = true ->
    appended endpoint
      (reduce_from
         (fun acc cur i =>
            appendParam (name ++ "[" ++ string_of_nat i ++ "]") cur acc)
         i arr cur)
      (pairs ++ array_pairs name i arr).
Proof.
  induction arr as [|v arr IH]; intros i cur pairs Hcur Hclean;
    cbn [reduce_from array_pairs] in *.
  - now rewrite app_nil_r.
  - rewrite forallb_app in Hclean. apply andb_true_iff in Hclean as [H1 H2].
    rewrite app_assoc. apply IH; [|exact H2].
    now apply appended_param.
Qed.

Lemma appended_all (endpoint : string) (ops : list Append) :
  forall (cur : string) (pairs : list (string * string)),
    appended endpoint cur pairs ->
    forallb clean ops = true ->
    exists final,
      apply_all ops cur = inr final
      /\ appended endpoint final (pairs ++ flat_map pairs_of ops).
Proof.
  induction ops as [|op ops IH]; intros cur pairs Hcur Hclean;
    cbn [apply_all flat_map forallb] in *.
  - exists cur. now rewrite app_nil_r.
  - apply andb_true_iff in Hclean as [H1 H2]. rewrite app_assoc.
    destruct op as [name value | name arr];
      cbn [run_append appendArrayOfParams is_undefined negb pairs_of];
      apply IH; try exact H2.
    + now apply appended_param.
    + now apply appended_array.
Qed.

(** The pairs read back from what [apply_all] appends. *)
Lemma apply_all_reads_back (endpoint : string) (ops : list Append) :
  forallb clean ops = true ->
  exists suffix,
    apply_all ops endpoint = inr (endpoint ++ suffix)
    /\ query_pairs suffix = flat_map pairs_of ops.
Proof.
  intros Hclean.
  destruct (appended_all endpoint ops endpoint []) as (final & Hrun & Hfinal).
  - exists "". rewrite append_nil_r. auto.
  - exact Hclean.
  - destruct Hfinal as (suffix & -> & Hpairs & _). now exists suffix.
Qed.

Lemma forallb_Permutation {A : Type} (f : A -> bool) (l l' : list A) :
  Permutation l l' -> forallb f l = forallb f l'.
Proof.
  induction 1; cbn; try congruence.
  - now rewrite !andb_assoc, (andb_comm (f y)).
Qed.

Lemma flat_map_Permutation {A B : Type} (f : A -> list B) (l l' : list A) :
  Permutation l l' -> Permutation (flat_map f l) (flat_map f l').
Proof.
  induction 1; cbn.
  - constructor.
  - now apply Permutation_app_head.
  - rewrite !app_assoc. apply Permutation_app_tail, Permutation_app_comm.
  - etransitivity; eassumption.
Qed.

Lemma count_occ_NoDup_keys (l : list (string * string)) (p : string * string) :
  NoDup (map fst l) -> In p l -> count_occ pair_eq_dec l p = 1.
Proof.
  intros Hnd Hin.
  assert (Hnd' : NoDup l) by (eapply NoDup_map_inv; eassumption).
  rewrite (NoDup_count_occ pair_eq_dec) in Hnd'.
  pose proof (Hnd' p) as Hle.
  apply (count_occ_In pair_eq_dec) in Hin. lia.
Qed.

(** C5, amended. When every generated key (the name, or [name[i]] for
    the [i]-th element of an array) holds no ['&'] and no ['='], every
    rendered value holds no ['&'] and does not end in ['?'], and the
    generated keys are pairwise distinct, then the appends applied in
    any order extend the endpoint by a query that reads back as exactly
    the pairs of the appends, in the order of application: each pair
    occurs exactly once, and two orders differ by a permutation of the
    pairs only. *)
Theorem appends_read_back (endpoint : string) (ops ops' : list Append) :
  forallb clean ops = true ->
  NoDup (map fst (flat_map pairs_of ops)) ->
  Permutation ops ops' ->
  exists suffix suffix',
    apply_all ops endpoint = inr (endpoint ++ suffix)
    /\ apply_all ops' endpoint = inr (endpoint ++ suffix')
    /\ query_pairs suffix = flat_map pairs_of ops
    /\ query_pairs suffix' = flat_map pairs_of ops'
    /\ Permutation (query_pairs suffix) (query_pairs suffix')
    /\ forall p,
         In p (flat_map pairs_of ops) ->
         count_occ pair_eq_dec (query_pairs suffix) p = 1
         /\ count_occ pair_eq_dec (query_pairs suffix') p = 1.
Proof.
  intros Hclean Hnd Hperm.
  destruct (apply_all_reads_back endpoint ops Hclean) as (suffix & Hrun & Hp).
  destruct (apply_all_reads_back endpoint ops') as (suffix' & Hrun' & Hp').
  { now rewrite <- (forallb_Permutation clean ops ops' Hperm). }
  pose proof (flat_map_Permutation pairs_of ops ops' Hperm) as Hpp.
  exists suffix, suffix'. repeat split; try assumption.
  - now rewrite Hp, Hp'.
  - rewrite Hp. now apply count_occ_NoDup_keys.
  - rewrite Hp'. apply count_occ_NoDup_keys.
    + eapply Permutation_NoDup; [|exact Hnd]. now apply Permutation_map.
    + eapply Permutation_in; eassumption.
Qed.

End ReadBack.

(** ** Termination of the pagination walk *)

Lemma requestAll_endless (a c : Json) (fuel : nat) :
  forall (url : string) (page : nat) (acc : list Json) (s : State),
    session (demo (constant_server endless_page)) s a c ->
    fst (requestAll (demo (constant_server endless_page)) fuel url page acc s)
    = Pending.
Proof.
  induction fuel as [|fuel IH]; intros url page acc s Hs; [reflexivity|].
  rewrite (requestAll_step _ a c) by exact Hs. cbv zeta.
  change (axios (demo (constant_server endless_page)) (history s)
            (page_url (demo (constant_server endless_page)) url page)
            (request_opts (demo (constant_server endless_page)) "GET"
               (JStr "") a c))
    with (@inr JsError Json endless_page).
  change (lastPage_of (demo (constant_server endless_page)) endless_page)
    with (@inr JsError (option Z) None).
  cbn [js_get endless_page page_body assoc String.eqb Ascii.eqb Bool.eqb
         page_is].
  set (s1 := log_event _ s).
  specialize (IH url (page + 1) (array_concat acc (JArr [])) s1
                (session_log _ a c s _ Hs)).
  now destruct (requestAll _ fuel url (page + 1) _ s1) as [[b|e|b|e|] s2].
Qed.

(** C3. In session, [requestAll(url, page)] settles as soon as a
    response reports, as the last page, the very page it answers: if
    the response to the [k+1]-th request would do so, at most [k + 1]
    requests are made. In particular, when every response reports the
    same last page [L >= page], the walk resolves after exactly
    [L - page + 1] requests (with less fuel than that it is still
    pending). Without such a response the walk need not end: against a
    server whose [last] URL never names a page number it is pending
    whatever the fuel. *)
Theorem requestAll_termination :
  (forall E a c url k page acc s fuel,
      session E s a c ->
      (forall h u o body,
          length h = length (history s) + k ->
          axios E h u o = inr body ->
          lastPage_of E body = inr (Some (Z.of_nat (page + k)))) ->
      k < fuel ->
      fst (requestAll E fuel url page acc s) <> Pending
      /\ length (history (snd (requestAll E fuel url page acc s)))
         <= length (history s) + (k + 1))
  /\ (forall E a c url L fuel page acc s,
        (forall h u o,
            exists body, axios E h u o = inr body /\ page_of E L body) ->
        session E s a c ->
        page <= L ->
        (L - page < fuel ->
         exists items s',
           requestAll E fuel url page acc s
           = (Fulfilled (list_result items), s')
           /\ length (history s') = length (history s) + (L - page + 1))
        /\ (fuel <= L - page ->
            exists s',
              requestAll E fuel url page acc s = (Pending, s')
              /\ length (history s') = length (history s) + fuel))
  /\ (forall fuel url,
        fst (requestAll (demo (constant_server endless_page)) fuel url 0 []
               session_state)
        = Pending).
Proof.
  split; [|split].
  - intros E a c url k page acc s fuel.
    apply (requestAll_settles E a c url k).
  - intros E a c url L fuel page acc s Hsrv.
    apply (requestAll_constant_last E a c url L Hsrv).
  - intros fuel url.
    apply (requestAll_endless (JStr "abc") (JStr "csrf-1")).
    exists valid_token. repeat split.
Qed.

(** ** The theorems at work on the concrete world *)

Lemma session_state_in_session (server : History -> string -> AxiosOpts -> JsError + Json) :
  session (demo server) session_state (JStr "abc") (JStr "csrf-1").
Proof. exists valid_token. repeat split. Defined.


(** C7 on a client with a cached token, on one without, and over a
    sequence of calls. *)
Lemma getCSRFToken_spec_witness :
  let E := demo (constant_server (JStr "csrf-2")) in
  getCSRFToken E (JStr "abc") session_state
  = (Fulfilled (JStr "csrf-1"), session_state)
  /\ fst (getCSRFToken E (JStr "abc") authorized_state) = Fulfilled (JStr "csrf-2")
  /\ farm_csrfToken (snd (getCSRFToken E (JStr "abc") authorized_state))
     = JStr "csrf-2"
  /\ farm_csrfToken
       (run_calls E
          [CallRequest "/farm.json" "GET" (JStr ""); CallLogout;
           CallGetCSRFToken (JStr "abc")] session_state)
     = JStr "csrf-1".
Proof.
  intros E. split; [|split; [|split]].
  - destruct (getCSRFToken_spec E (JStr "abc") session_state) as (H & _ & _).
    exact (H eq_refl).
  - destruct (getCSRFToken_spec E (JStr "abc") authorized_state)
      as (_ & H & _).
    destruct (H eq_refl) as (_ & _ & Hrun). now rewrite Hrun.
  - destruct (getCSRFToken_spec E (JStr "abc") authorized_state)
      as (_ & H & _).
    destruct (H eq_refl) as (_ & _ & Hrun). now rewrite Hrun.
  - destruct (getCSRFToken_spec E (JStr "abc") session_state) as (_ & _ & H).
    exact (proj1 (H eq_refl _)).
Defined.

(** C8 on a client that has a token but no CSRF token yet (the CSRF
    fetch, then the one call, with the payload in a POST), on a client
    that was never authorized, on one whose token cannot be refreshed,
    against a server that is down, and on a POST without a payload. *)
Lemma request_steps_witness :
  let E := demo (constant_server (JStr "ok")) in
  let payload := JObj [("name", JStr "x")] in
  fst (request E "/log" "POST" payload authorized_state)
  = Fulfilled (JStr "ok")
  /\ map event_url
       (history (snd (request E "/log" "POST" payload authorized_state)))
     = ["http://farm.test/restws/session/token"; "http://farm.test/log"]
  /\ fst (request E "/log" "GET" (JStr "") fresh_state)
     = Threw (Error "client must be authorized before making requests.")
  /\ fst (request E "/log" "GET" (JStr "") dead_state)
     = Rejected (Failure (JStr "invalid_grant"))
  /\ request (demo failing_server) "/log" "GET" (JStr "") authorized_state
     = (Rejected (Failure (JStr "Service Unavailable")),
        log_event
          (Http "http://farm.test/restws/session/token"
             (csrf_opts (JStr "abc"))
             (inl (Failure (JStr "Service Unavailable"))))
          authorized_state)
  /\ map (fun ev => match ev with Http _ o _ => data o | _ => None end)
       (history (snd (request E "/farm_asset.json" "POST" JUndefined
                        session_state)))
     = [Some (JStr "")].
Proof.
  intros E payload.
  destruct (request_steps E "/farm_asset.json" "POST" JUndefined session_state)
    as (_ & _ & Hpost & _).
  destruct (Hpost (JStr "abc") session_state eq_refl) as (_ & Hsent & _).
  destruct (Hsent (JStr "csrf-1") session_state eq_refl)
    as (Hrun0 & _ & _ & _ & Hdflt & _).
  specialize (Hdflt eq_refl (or_introl eq_refl)).
  destruct (request_steps E "/log" "POST" payload authorized_state)
    as (_ & _ & H & _).
  destruct (H (JStr "abc") authorized_state eq_refl) as (_ & Hcall & _).
  destruct (Hcall (JStr "ok")
              (set_csrfToken (JStr "ok")
                 (log_event
                    (Http "http://farm.test/restws/session/token"
                       (csrf_opts (JStr "abc")) (inr (JStr "ok")))
                    authorized_state)) eq_refl) as (Hrun & _).
  destruct (request_steps E "/log" "GET" (JStr "") fresh_state)
    as (Hthrow & _).
  destruct (request_steps E "/log" "GET" (JStr "") dead_state)
    as (_ & Hreject & _).
  destruct (request_steps (demo failing_server) "/log" "GET" (JStr "")
              authorized_state) as (_ & _ & Hdown & _).
  destruct (Hdown (JStr "abc") authorized_state eq_refl) as (Hcsrf & _).
  split; [|split; [|split; [|split; [|split]]]].
  - now rewrite Hrun.
  - now rewrite Hrun.
  - now rewrite (Hthrow _ fresh_state eq_refl).
  - now rewrite (Hreject (Failure (JStr "invalid_grant")) _ eq_refl).
  - exact (Hcsrf _ _ eq_refl).
  - rewrite Hrun0. cbn [snd log_event history session_state app map].
    now rewrite Hdflt.
Defined.

(** C2 on the two pages of [two_pages], from a client that has a
    token but still has to fetch its CSRF token. *)
Lemma requestAll_concatenates_witness :
  let E := demo (scripted_server (JStr "csrf-9" :: two_pages)) in
  fst (requestAll E 2 "/log.json?" 0 [] authorized_state)
  = Fulfilled (list_result [JNum 1; JNum 2; JNum 3])
  /\ map event_url
       (history (snd (requestAll E 2 "/log.json?" 0 [] authorized_state)))
     = ["http://farm.test/restws/session/token";
        "http://farm.test/log.json?&page=0";
        "http://farm.test/log.json?&page=1"].
Proof.
  intros E.
  pose (s1 := snd (request_get E "/log.json?&page=0" authorized_state)).
  pose (s2 := snd (request_get E "/log.json?&page=1" s1)).
  pose (states := fun k : nat =>
                    match k with 0 => authorized_state | 1 => s1 | _ => s2 end).
  assert (Hrun : requestAll E 2 "/log.json?" 0 [] (states 0)
                 = (Fulfilled (list_result (concat (map list_of two_pages))),
                    states (length two_pages))).
  { apply (requestAll_concatenates E "/log.json?" two_pages states 2).
    - discriminate.
    - intros body [<-|[<-|[]]]; (split; [eexists|]; reflexivity).
    - intros [|[|k]] body Hk; cbn in Hk;
        [| | destruct k; discriminate];
        injection Hk as <-; vm_compute; reflexivity.
    - cbn. lia. }
  cbn [states] in Hrun. rewrite Hrun. split; vm_compute; reflexivity.
Defined.

(** C3 on a server that always names page 2 as the last: three
    requests from page 0, and not fewer. *)
Lemma requestAll_termination_witness :
  let E := demo (constant_server page_of_three) in
  (exists items s',
      requestAll E 5 "/log.json?" 0 [] session_state
      = (Fulfilled (list_result items), s')
      /\ length (history s') = 3)
  /\ (exists s',
        requestAll E 2 "/log.json?" 0 [] session_state = (Pending, s')
        /\ length (history s') = 2)
  /\ fst (requestAll E 5 "/log.json?" 0 [] session_state) <> Pending.
Proof.
  intros E. destruct requestAll_termination as (Hsettles & Hconst & _).
  assert (Hsrv : forall h u o,
             exists body, axios E h u o = inr body /\ page_of E 2 body).
  { intros h u o. exists page_of_three.
    split; [reflexivity|]. split; [eexists|]; reflexivity. }
  split; [|split].
  - destruct (Hconst E (JStr "abc") (JStr "csrf-1") "/log.json?" 2 5 0 []
                session_state Hsrv (session_state_in_session _))
      as [Hdone _]; [lia|].
    apply Hdone. cbn. lia.
  - destruct (Hconst E (JStr "abc") (JStr "csrf-1") "/log.json?" 2 2 0 []
                session_state Hsrv (session_state_in_session _))
      as [_ Hpend]; [lia|].
    apply Hpend. cbn. lia.
  - apply (Hsettles E (JStr "abc") (JStr "csrf-1") "/log.json?" 2 0 []
             session_state 5).
    + apply session_state_in_session.
    + intros h u o body _ Hbody. cbn in Hbody. unfold constant_server in Hbody.
      injection Hbody as <-. reflexivity.
    + lia.
Defined.

(** X22 on 150 identifiers: two requests, both lists kept. *)
Lemma batchRequest_batches_witness :
  let run :=
    batchRequest (demo counting_server) "id" (repeat (JNum 7) 150) "/log.json?"
      JUndefined session_state in
  exists evs,
    history (snd run) = evs
    /\ length evs = 2
    /\ fst run = Fulfilled (list_result (concat (map event_list evs))).
Proof.
  intros run.
  destruct (batchRequest_batches (demo counting_server) (JStr "abc")
              (JStr "csrf-1") "id" (repeat (JNum 7) 150) "/log.json?"
              session_state) as (evs & Hh & _ & _ & Hlen & Hlist).
  - apply session_state_in_session.
  - intros h url opts. do 2 eexists. split; reflexivity.
  - rewrite repeat_length. lia.
  - exists evs. split; [exact Hh|]. split.
    + rewrite Hlen, repeat_length. reflexivity.
    + apply Hlist. rewrite repeat_length. lia.
Defined.

(** The sentence of the specification on batches, [batch_claim], at
    100 and at 200 identifiers: 100 identifiers go out in one request,
    not in [ceil(100/99) = 2]; and of the three responses to 200
    identifiers the list of the first is not in the result. *)
Lemma batch_claim_fails :
  ~ batch_claim (demo counting_server) "id" (repeat (JNum 7) 100) "/log.json?"
      session_state
  /\ ~ batch_claim (demo counting_server) "id" (repeat (JNum 7) 200)
        "/log.json?" session_state.
Proof.
  split; unfold batch_claim; cbv zeta; intros H.
  - destruct H as [Hcount _]; [rewrite repeat_length; lia|].
    vm_compute in Hcount. discriminate.
  - destruct H as [_ (items & Hrun & Hlen)]; [rewrite repeat_length; lia|].
    vm_compute in Hrun. injection Hrun as <-. vm_compute in Hlen.
    discriminate.
Qed.

(** C1. The run of [batchRequest] on 200 identifiers, as it is: the
    three requests the claim counts ([ceil(200/99)]), one after the
    other, answered with the lists [[0]], [[1]] and [[2]]; and a result
    made of the lists of the last two responses only, two elements
    where the claim has the three of all responses. The step for the
    last batch returns [results.concat(_res.list)], while the step
    before hands on [_res.list] alone as [results], so that what was
    gathered earlier is dropped. *)
Theorem batchRequest_drops_earlier_lists :
  let run :=
    batchRequest (demo counting_server) "id" (repeat (JNum 7) 200) "/log.json?"
      JUndefined session_state in
  length (history (snd run)) = ceil_div 200 99
  /\ map event_list (history (snd run)) = [[JNum 0]; [JNum 1]; [JNum 2]]
  /\ fst run = Fulfilled (list_result [JNum 1; JNum 2])
  /\ list_sum (map (fun ev => length (event_list ev)) (history (snd run))) = 3
  /\ ~ batch_claim (demo counting_server) "id" (repeat (JNum 7) 200)
        "/log.json?" session_state.
Proof.
  repeat split; try (vm_compute; reflexivity).
  unfold batch_claim. cbv zeta. intros H.
  destruct H as [_ (items & Hrun & Hlen)]; [rewrite repeat_length; lia|].
  vm_compute in Hrun. injection Hrun as <-. vm_compute in Hlen.
  discriminate.
Qed.

(** C9 on [area.get(5)] against the vocabulary server, on two area
    calls in a row, on [area.delete(7)] against a server without the
    [farm_areas] vocabulary, and on [area.get] with a type and a
    page. *)
Lemma area_lookup_first_witness :
  let E := demo vocabulary_server in
  map event_url (history (snd (area_get E 0 (JNum 5) session_state)))
  = ["http://farm.test/taxonomy_vocabulary.json";
     "http://farm.test/taxonomy_term.json?vocabulary=3&tid=5"]
  /\ (exists rest2,
        map event_url
          (history
             (run_calls E [CallAreaGet 0 (JNum 5); CallAreaDelete (JNum 7)]
                session_state))
        = ["http://farm.test/taxonomy_vocabulary.json";
           "http://farm.test/taxonomy_term.json?vocabulary=3&tid=5";
           "http://farm.test/taxonomy_vocabulary.json"] ++ rest2)%list
  /\ map event_url
       (history
          (snd (area_delete (demo (constant_server (JObj [("list", JArr [])])))
                  (JNum 7) session_state)))
     = ["http://farm.test/taxonomy_vocabulary.json"]
  /\ map event_url
       (history
          (snd (area_get E 0 (JObj [("type", JStr "field"); ("page", JNum 2)])
                  session_state)))
     = ["http://farm.test/taxonomy_vocabulary.json";
        "http://farm.test/taxonomy_term.json?vocabulary=3&area_type=field&page=2"].
Proof.
  intros E.
  destruct (area_lookup_first E (JStr "abc") (JStr "csrf-1")
              (CallAreaGet 0 (JObj [("type", JStr "field"); ("page", JNum 2)]))
              session_state eq_refl) as [_ Hopts].
  destruct (Hopts (session_state_in_session _)) as (_ & _ & Hpaged & _).
  specialize (Hpaged _ (JNum 3) eq_refl eq_refl).
  cbn [default_arg is_undefined] in Hpaged. destruct Hpaged as [_ Hpaged].
  specialize (Hpaged (JNum 2) (JStr "field") eq_refl eq_refl).
  cbn [run_call] in Hpaged.
  destruct (area_lookup_first E (JStr "abc") (JStr "csrf-1")
              (CallAreaGet 0 (JNum 5)) session_state eq_refl) as [_ Hget].
  destruct (Hget (session_state_in_session _))
    as (_ & _ & Hmain & _ & _ & Hnext).
  specialize (Hmain _ (JNum 3) eq_refl eq_refl).
  cbn [run_call] in Hmain, Hnext.
  destruct (Hnext (CallAreaDelete (JNum 7)) eq_refl) as (rest2 & Hh).
  destruct (area_lookup_first
              (demo (constant_server (JObj [("list", JArr [])])))
              (JStr "abc") (JStr "csrf-1")
              (CallAreaDelete (JNum 7)) session_state eq_refl) as [_ Hdel].
  destruct (Hdel (session_state_in_session _)) as (_ & Hnone & _).
  split; [|split; [|split]].
  - now rewrite Hmain.
  - exists (map event_url rest2). rewrite Hh, Hmain, map_app.
    reflexivity.
  - cbn [run_call] in Hnone. rewrite Hnone; [reflexivity|].
    intros vocab Hv. injection Hv as <-. eexists. reflexivity.
  - now rewrite Hpaged.
Defined.

(** C10 on two identifiers, and on none. *)
Lemma log_get_empty_witness :
  log_get (demo counting_server) 0 (JArr [JNum 1; JNum 2])
  = batchRequest (demo counting_server) "id" [JNum 1; JNum 2] "/log.json?"
      JUndefined
  /\ JArr [] = JArr [].
Proof.
  destruct (log_get_empty (demo counting_server) 0 fresh_state)
    as (Hempty & Hbatch & Honly).
  split.
  - apply Hbatch. discriminate.
  - exact (Honly (JArr []) _ _ Hempty).
Defined.

(** C5 as worded fails: after a value that ends in ['?'] the next pair
    is appended without ['&'] and is read as part of that value; a key
    [t[0]] appended by hand meets the first element of the array [t];
    a value that holds ['&'] splits in two. *)
Lemma append_claim_fails :
  ~ append_claim "/log.json?"
      [AppendParam "a" (JStr "x?"); AppendParam "b" (JStr "1")]
  /\ ~ append_claim "/log.json?"
        [AppendParam "t[0]" (JNum 1); AppendArrayOfParams "t" [JNum 1]]
  /\ ~ append_claim "/log.json?"
        [AppendParam "a" (JStr "1&b=2"); AppendParam "b" (JNum 2)].
Proof.
  assert (Hnd : forall x y : string, x <> y -> NoDup [x; y]).
  { intros x y Hxy. constructor; [|constructor; [|constructor]].
    - intros [H|[]]. now apply Hxy.
    - intros []. }
  repeat split; intros H;
    (edestruct H as (suffix & Hrun & Hcount);
     [apply Hnd; discriminate | reflexivity | apply Permutation_refl |]);
    cbn in Hrun; injection Hrun as <-.
  - specialize (Hcount ("b", "1") (or_intror (or_introl eq_refl))).
    vm_compute in Hcount. discriminate.
  - specialize (Hcount ("t[0]", "1") (or_introl eq_refl)).
    vm_compute in Hcount. discriminate.
  - specialize (Hcount ("b", "2") (or_intror (or_introl eq_refl))).
    vm_compute in Hcount. discriminate.
Qed.

(** C5, amended, on the query of [log.get({done: 1, type: [...]})], in
    both orders. *)
Lemma appends_read_back_witness :
  let ops := [AppendParam "done" (JNum 1);
              AppendArrayOfParams "type"
                [JStr "farm_harvest"; JStr "farm_seeding"]] in
  exists suffix suffix',
    apply_all ops "/log.json?" = inr ("/log.json?" ++ suffix)
    /\ apply_all (rev ops) "/log.json?" = inr ("/log.json?" ++ suffix')
    /\ Permutation (query_pairs suffix) (query_pairs suffix')
    /\ count_occ pair_eq_dec (query_pairs suffix') ("type[1]", "farm_seeding")
       = 1.
Proof.
  intros ops.
  destruct (appends_read_back "/log.json?" ops (rev ops))
    as (suffix & suffix' & H1 & H2 & _ & _ & H3 & H4).
  - reflexivity.
  - cbn. repeat constructor; cbn; intuition discriminate.
  - apply Permutation_rev.
  - exists suffix, suffix'. repeat split; try assumption.
    apply H4. cbn. auto.
Defined.

(** * Further properties of the client *)

(** ** Authorization and logout *)

Section Authorization.

Variable E : Env.

Lemma request_unauthorized (endpoint meth : string) (payload : Json)
  (s : State) :
  farm_token s = None ->
  request E endpoint meth payload s =
  (Threw (Error "client must be authorized before making requests."), s).
Proof.
  intros H. unfold request. apply then_threw.
  unfold getAccessToken. now rewrite H.
Qed.

(** X1. [logout()] always leaves the client without a token, also when
    the revocation fails, after at most one exchange; from then on every
    [request] throws the authorization error and sends nothing. *)
Theorem logout_forgets_token (s : State) :
  farm_token (snd (logout E s)) = None
  /\ farm_csrfToken (snd (logout E s)) = farm_csrfToken s
  /\ length (history (snd (logout E s))) <= length (history s) + 1
  /\ (farm_token s = None -> logout E s = (Fulfilled JUndefined, s))
  /\ forall endpoint meth payload,
       request E endpoint meth payload (snd (logout E s)) =
       (Threw (Error "client must be authorized before making requests."),
        snd (logout E s)).
Proof.
  assert (Hnone : farm_token (snd (logout E s)) = None).
  { unfold logout. now destruct (farm_token s) eqn:Ht. }
  split; [exact Hnone|]. split; [|split; [|split]].
  - unfold logout. now destruct (farm_token s).
  - unfold logout. destruct (farm_token s); cbn; [|lia].
    rewrite length_app. cbn. lia.
  - intros Ht. unfold logout. now rewrite Ht.
  - intros endpoint meth payload. now apply request_unauthorized.
Qed.

(** X2. [authorize(user, password, scope)] with a [null] or
    [undefined] user or password returns [undefined] (no promise) and
    does nothing. Otherwise it makes one token request with the
    username, the password and the scope (['user_access'] by default):
    when that is granted the token is stored and the promise resolves to
    it; when it is refused the promise rejects with the error of the
    request and the token the client held stays. A grant of which the
    OAuth library makes no token object (it throws on a falsy one) also
    rejects the promise, with the library's error, and stores nothing. *)
Theorem authorize_spec (user password scope : Json) (s : State) :
  (is_nullish user = true \/ is_nullish password = true ->
   authorize E user password scope s = (Value JUndefined, s))
  /\ (is_nullish user = false ->
      is_nullish password = false ->
      let tokenConfig :=
        JObj [("username", user); ("password", password);
              ("scope", default_arg scope (JStr "user_access"))] in
      let r := ownerPassword_getToken E (history s) tokenConfig in
      let s1 := log_event (GetToken tokenConfig r) s in
      (forall e, r = inl e ->
         authorize E user password scope s = (Rejected e, s1)
         /\ farm_token s1 = farm_token s)
      /\ (forall granted newToken,
            r = inr granted ->
            accessToken_create E granted = inr newToken ->
            authorize E user password scope s =
            (Fulfilled (token newToken), set_token (Some newToken) s1))
      /\ (forall granted e,
            r = inr granted ->
            accessToken_create E granted = inl e ->
            authorize E user password scope s = (Rejected e, s1)
            /\ farm_token s1 = farm_token s)).
Proof.
  split.
  - intros H. unfold authorize.
    replace (negb (is_nullish user) && negb (is_nullish password)) with false;
      [reflexivity|].
    destruct H as [-> | ->]; [reflexivity | now rewrite andb_false_r].
  - intros Hu Hp tokenConfig r s1. subst s1 r tokenConfig.
    split; [|split].
    + intros e Hr. unfold authorize. rewrite Hu, Hp. cbn [negb andb].
      unfold catch_, then_. rewrite Hr. now split.
    + intros granted newToken Hr Hnew. unfold authorize.
      rewrite Hu, Hp. cbn [negb andb].
      unfold catch_, then_. rewrite Hr. cbn [settle].
      unfold useToken. now rewrite Hnew.
    + intros granted e Hr Hnew. unfold authorize.
      rewrite Hu, Hp. cbn [negb andb].
      unfold catch_, then_. rewrite Hr. cbn [settle].
      unfold useToken. rewrite Hnew. now split.
Qed.

(** X3. After a granted [authorize], as long as the OAuth library does
    not report the new token expired, [getAccessToken()] resolves to the
    [access_token] of the granted token without any exchange, and does
    so again when called again. *)
Theorem authorize_then_getAccessToken (user password scope granted a : Json)
  (newToken : AccessToken) (s : State) :
  is_nullish user = false ->
  is_nullish password = false ->
  ownerPassword_getToken E (history s)
    (JObj [("username", user); ("password", password);
           ("scope", default_arg scope (JStr "user_access"))])
  = inr granted ->
  accessToken_create E granted = inr newToken ->
  (forall h, token_expired E h newToken = false) ->
  js_get (token newToken) "access_token" = inr a ->
  let s' := snd (authorize E user password scope s) in
  farm_token s' = Some newToken
  /\ getAccessToken E s' = (Fulfilled a, s')
  /\ getAccessToken E (snd (getAccessToken E s')) = (Fulfilled a, s').
Proof.
  intros Hu Hp Hr Hnew Hexp Ha s'.
  assert (Hs' : farm_token s' = Some newToken).
  { subst s'. unfold authorize. rewrite Hu, Hp. cbn [negb andb].
    unfold catch_, then_. rewrite Hr. cbn [settle].
    unfold useToken. now rewrite Hnew. }
  assert (Hget : getAccessToken E s' = (Fulfilled a, s')).
  { unfold getAccessToken. now rewrite Hs', Hexp, Ha. }
  split; [exact Hs'|]. split; [exact Hget|]. now rewrite Hget.
Qed.

(** X4. A CSRF fetch that is answered with [null] (or nothing) caches
    nothing: the promise resolves to that body, and the next
    [getCSRFToken] fetches again. *)
Theorem null_csrf_is_not_cached (accessToken body : Json) (s : State) :
  is_nullish (farm_csrfToken s) = true ->
  axios E (history s) (host E ++ "/restws/session/token")
    (csrf_opts accessToken) = inr body ->
  is_nullish body = true ->
  let s1 := snd (getCSRFToken E accessToken s) in
  fst (getCSRFToken E accessToken s) = Fulfilled body
  /\ forall accessToken',
       history (snd (getCSRFToken E accessToken' s1)) =
       (history s1
          ++ [Http (host E ++ "/restws/session/token") (csrf_opts accessToken')
                (axios E (history s1) (host E ++ "/restws/session/token")
                   (csrf_opts accessToken'))])%list.
Proof.
  intros Hs Hbody Hnull s1. subst s1.
  rewrite !getCSRFToken_run, Hs. cbv zeta. rewrite Hbody.
  split; [reflexivity|]. intros accessToken'.
  rewrite getCSRFToken_run. cbn [snd set_csrfToken farm_csrfToken].
  rewrite Hnull. cbv zeta.
  now destruct (axios E _ _ (csrf_opts accessToken')).
Qed.

(** X5. The first [request] of a client that holds a valid token but
    no CSRF token makes two exchanges, the CSRF fetch and then the call
    itself with the fetched token in its header, and leaves the client
    in session: from then on every [request] is a single exchange. *)
Theorem first_request_opens_session (endpoint meth : string)
  (payload a c : Json) (t : AccessToken) (s : State) :
  farm_token s = Some t ->
  (forall h, token_expired E h t = false) ->
  js_get (token t) "access_token" = inr a ->
  is_nullish (farm_csrfToken s) = true ->
  axios E (history s) (host E ++ "/restws/session/token") (csrf_opts a)
  = inr c ->
  is_nullish c = false ->
  let fetch :=
    Http (host E ++ "/restws/session/token") (csrf_opts a) (inr c) in
  let s1 := set_csrfToken c (log_event fetch s) in
  let r := axios E (history s1) (host E ++ endpoint)
             (request_opts E meth payload a c) in
  let call := Http (host E ++ endpoint) (request_opts E meth payload a c) r in
  request E endpoint meth payload s = (settle r, log_event call s1)
  /\ history (log_event call s1) = (history s ++ [fetch; call])%list
  /\ session E (log_event call s1) a c
  /\ forall endpoint' meth' payload',
       length (history (snd (request E endpoint' meth' payload'
                               (log_event call s1))))
       = length (history (log_event call s1)) + 1.
Proof.
  intros Ht Hexp Ha Hnull Hc Hcn fetch s1 r call.
  assert (Hsess : session E (log_event call s1) a c).
  { exists t. cbn. auto. }
  split; [|split; [|split; [exact Hsess|]]].
  - apply (request_run E endpoint meth payload s s s1 a c).
    + unfold getAccessToken. now rewrite Ht, Hexp, Ha.
    + rewrite getCSRFToken_run, Hnull. cbv zeta. now rewrite Hc.
  - cbn. now rewrite <- app_assoc.
  - intros endpoint' meth' payload'.
    rewrite (request_session E a c _ _ _ _ Hsess). cbn [snd log_event history].
    rewrite !length_app. reflexivity.
Qed.

(** X6. A [request] made with an expired token refreshes it first: one
    refresh exchange, the new token stored, and the HTTP call carries
    the new access token, not the old one, as bearer credential. A
    refresh that fails rejects the [request] with its error and the
    HTTP call is never made; the same holds should the OAuth library
    make no token object of the refreshed token. *)
Theorem request_refreshes_token (endpoint meth : string)
  (payload c : Json) (t : AccessToken) (s : State) :
  farm_token s = Some t ->
  token_expired E (history s) t = true ->
  farm_csrfToken s = c ->
  is_nullish c = false ->
  let params :=
    [("client_id", client_id E); ("client_secret", client_secret E)] in
  let refreshed := token_refresh E (history s) t params in
  let s1 := log_event (Refresh t params refreshed) s in
  (forall e, refreshed = inl e ->
     request E endpoint meth payload s = (Rejected e, s1))
  /\ (forall t' newToken a,
        refreshed = inr t' ->
        accessToken_create E (token t') = inr newToken ->
        js_get (token newToken) "access_token" = inr a ->
        let s2 := set_token (Some newToken) s1 in
        let opts := request_opts E meth payload a c in
        let r := axios E (history s2) (host E ++ endpoint) opts in
        request E endpoint meth payload s =
        (settle r, log_event (Http (host E ++ endpoint) opts r) s2)
        /\ assoc "Authorization" (headers opts)
           = Some (JStr ("Bearer " ++ to_string a)))
  /\ (forall t' e,
        refreshed = inr t' ->
        accessToken_create E (token t') = inl e ->
        request E endpoint meth payload s = (Rejected e, s1)).
Proof.
  intros Ht Hexp Hc Hcn params refreshed s1. subst s1 refreshed params.
  split; [|split].
  - intros e Hr. unfold request. apply then_rejected.
    unfold getAccessToken. rewrite Ht, Hexp.
    unfold catch_, then_, refresh_call. now rewrite Hr.
  - intros t' newToken a Hr Hnew Ha. rewrite Hr. intros s2 opts r.
    split; [|reflexivity].
    apply (request_run E endpoint meth payload s s2 s2 a c).
    + unfold getAccessToken. rewrite Ht, Hexp.
      unfold catch_, then_, refresh_call. rewrite Hr. cbn [settle].
      unfold bind, useToken, lift. now rewrite Hnew, Ha.
    + rewrite getCSRFToken_run. subst s2.
      cbn [farm_csrfToken set_token log_event].
      rewrite Hc, Hcn. reflexivity.
  - intros t' e Hr Hnew. rewrite Hr. unfold request. apply then_rejected.
    unfold getAccessToken. rewrite Ht, Hexp.
    unfold catch_, then_, refresh_call. rewrite Hr. cbn [settle].
    unfold bind, useToken. now rewrite Hnew.
Qed.

End Authorization.

(** ** Resource methods *)

Section Resources.

Variable E : Env.

Lemma js_get_type_error (v : Json) (k : string) (e : JsError) :
  js_get v k = inl e -> exists message, e = TypeError message.
Proof.
  destruct v as [| | | | | |fields]; cbn; intros H; try discriminate;
    try (injection H as <-; eauto; fail).
  destruct (assoc k fields); discriminate.
Qed.

Lemma destructure_type_error (opts : Json) (k : string) (dflt : Json)
  (e : JsError) :
  destructure opts k dflt = inl e -> exists message, e = TypeError message.
Proof.
  unfold destructure. destruct (js_get opts k) as [e0|v] eqn:H; [|discriminate].
  intros H0. injection H0 as <-. exact (js_get_type_error _ _ _ H).
Qed.

Lemma appendArrayOfParams_type_error (name : string) (arr : Json)
  (endpoint : string) (e : JsError) :
  appendArrayOfParams name arr endpoint = inl e ->
  exists message, e = TypeError message.
Proof.
  unfold appendArrayOfParams.
  destruct arr; cbn; intros H; try discriminate; injection H as <-; eauto.
Qed.

Lemma idle_request (endpoint meth : string) (payload : Json) :
  idle_unauthorized (request E endpoint meth payload).
Proof.
  intros s H. rewrite (request_unauthorized E _ _ _ s H).
  split; [reflexivity|]. exists unauthorized. split; [reflexivity | now left].
Qed.

Lemma idle_then {A B : Type} (p : M A) (f : A -> M B) :
  idle_unauthorized p -> idle_unauthorized (then_ p f).
Proof.
  intros Hp s Hs. destruct (Hp s Hs) as (H1 & e & H2 & He). unfold then_.
  destruct (p s) as [o s1]. cbn [fst snd] in *. subst o s1.
  split; [reflexivity|]. now exists e.
Qed.

Lemma idle_catch {A : Type} (p : M A) (h : JsError -> M A) :
  idle_unauthorized p -> idle_unauthorized (catch_ p h).
Proof.
  intros Hp s Hs. destruct (Hp s Hs) as (H1 & e & H2 & He). unfold catch_.
  destruct (p s) as [o s1]. cbn [fst snd] in *. subst o s1.
  split; [reflexivity|]. now exists e.
Qed.

(** Reading an argument either throws a [TypeError] or lets the call go
    on. *)
Lemma idle_bind_lift {A B : Type} (r : JsError + A) (f : A -> M B) :
  (forall e, r = inl e -> exists message, e = TypeError message) ->
  (forall a, idle_unauthorized (f a)) ->
  idle_unauthorized (bind (lift r) f).
Proof.
  intros Hr Hf s Hs. destruct r as [e|a]; cbn.
  - split; [reflexivity|]. exists e. split; [reflexivity|].
    right. now apply Hr.
  - now apply Hf.
Qed.

Lemma idle_requestAll (fuel : nat) (url : string) (page : nat)
  (acc : list Json) :
  idle_unauthorized (requestAll E (S fuel) url page acc).
Proof. cbn [requestAll]. apply idle_catch, idle_then, idle_request. Qed.

Lemma idle_batchRequest (name : string) (arr : list Json) (endpoint : string)
  (results : Json) :
  idle_unauthorized (batchRequest E name arr endpoint results).
Proof.
  destruct (le_gt_dec (length arr) 100).
  - rewrite batchRequest_small by assumption. cbv zeta.
    apply idle_bind_lift; [apply appendArrayOfParams_type_error|]. intros q.
    apply idle_catch, idle_then, idle_request.
  - rewrite batchRequest_large by assumption. cbv zeta.
    apply idle_bind_lift; [apply appendArrayOfParams_type_error|]. intros q.
    apply idle_catch, idle_then, idle_request.
Qed.

Ltac idle_step :=
  first
    [ apply idle_request | apply idle_requestAll | apply idle_batchRequest
    | apply idle_catch | apply idle_then
    | apply idle_bind_lift;
      [ first [ apply js_get_type_error | apply destructure_type_error
              | apply appendArrayOfParams_type_error ] | ] ].

Ltac idle_tac :=
  repeat (intros;
          first [ idle_step
                | match goal with
                  | |- idle_unauthorized (if ?c then _ else _) => destruct c
                  end ]).

(** Every resource call but [log.get([])] throws for a client without
    a token. *)
Lemma idle_run_resource (r : Resource) :
  resource_fuel r <> Some 0 ->
  (forall fuel, r <> LogGet fuel (JArr [])) ->
  idle_unauthorized (run_resource E r).
Proof.
  intros Hfuel Hr.
  destruct r; cbn [run_resource resource_fuel] in *;
    try (destruct fuel as [|fuel]; [congruence|]);
    unfold area_delete, area_get, area_send, asset_delete, asset_get,
      asset_send, info, log_delete, log_get, log_send, term_get, term_send,
      vocabulary, request_get;
    try (destruct opts as [| |b|n|str|[|id ids]|fields];
         cbn [default_arg is_undefined Nat.ltb Nat.leb length]);
    try (exfalso; now apply (Hr (S fuel)));
    idle_tac.
Qed.

(** X7. Without a token no resource method reaches the network: the
    call throws at once and leaves the client and the log as they are.
    What is thrown is the error of [getAccessToken], ['client must be
    authorized before making requests.'], or a [TypeError] when reading
    the arguments fails before any request is tried. The one exception
    is [log.get([])], which returns its plain value [{ list: [] }].
    (A paging call is given fuel for at least one page.) *)
Theorem resources_need_token (r : Resource) (s : State) :
  farm_token s = None ->
  resource_fuel r <> Some 0 ->
  snd (run_resource E r s) = s
  /\ ((forall fuel, r <> LogGet fuel (JArr [])) ->
      exists e,
        fst (run_resource E r s) = Threw e
        /\ (e = Error "client must be authorized before making requests."
            \/ exists message, e = TypeError message))
  /\ (forall fuel,
        r = LogGet fuel (JArr []) ->
        fst (run_resource E r s) = Value (list_result [])).
Proof.
  intros Hs Hfuel. split; [|split].
  - destruct r as [ | | | | | | | |fuel [| |b|n|str|[|id ids]|fields]| | | | ];
      try reflexivity;
      (apply idle_run_resource; [exact Hfuel | discriminate | exact Hs]).
  - intros Hr. exact (proj2 (idle_run_resource r Hfuel Hr s Hs)).
  - intros fuel ->. reflexivity.
Qed.

Ltac kept_step :=
  first
    [ apply keeps_request | apply keeps_requestAll | apply keeps_batchRequest
    | apply keeps_lift | apply keeps_ret | apply keeps_throw
    | apply keeps_catch | apply keeps_then | apply keeps_bind ].

Ltac kept_tac :=
  repeat (intros;
          first [ kept_step
                | match goal with
                  | |- keeps_csrf _ (if ?c then _ else _) => destruct c
                  end ]).

Lemma keeps_run_resource (r : Resource) : keeps_csrf E (run_resource E r).
Proof.
  destruct r; cbn [run_resource];
    try apply keeps_area_get; try apply keeps_log_get;
    try apply (keeps_run_call E (CallAreaDelete id));
    try apply (keeps_run_call E (CallAreaSend payload id));
    unfold asset_delete, asset_get, asset_send, info, log_delete, log_send,
      term_get, term_send, vocabulary, request_get;
    try (destruct (default_arg opts (JObj [])));
    kept_tac.
Qed.

Lemma quiet_batchRequest (a c : Json) (name : string) (arr : list Json)
  (endpoint : string) (results : Json) :
  logs_only E a c (batchRequest E name arr endpoint results).
Proof.
  funelim (batchRequest E name arr endpoint results);
    (apply quiet_bind; [apply quiet_lift|]); intros q;
    (apply quiet_catch; [|intros; now apply quiet_pure]);
    (apply quiet_then; [apply quiet_request|]); intros res;
    repeat (apply quiet_bind; [apply quiet_lift|]; intros);
    try now apply quiet_pure.
  intros s0. now apply (H q res a0 s0).
Qed.

Ltac quietly_step a c :=
  first
    [ apply quiet_request | apply quiet_requestAll | apply quiet_batchRequest
    | apply quiet_lift | apply quiet_area_get_then
    | apply quiet_area_delete_then | apply quiet_area_send_then
    | apply quiet_catch | apply quiet_then | apply quiet_bind
    | apply (quiet_pure E a c); reflexivity ].

Ltac quietly a c :=
  repeat (intros;
          first [ quietly_step a c
                | match goal with
                  | |- logs_only _ _ _ (if ?b then _ else _) => destruct b
                  end ]).

Lemma quiet_run_resource (a c : Json) (r : Resource) :
  logs_only E a c (run_resource E r).
Proof.
  destruct r; cbn [run_resource];
    unfold area_delete, area_get, area_send, asset_delete, asset_get,
      asset_send, info, log_delete, log_get, log_send, term_get, term_send,
      vocabulary, request_get;
    try (destruct (default_arg opts (JObj [])));
    quietly a c.
Qed.

(** X8. No sequence of resource calls replaces a cached CSRF token or
    fetches another; and a client in session (valid token, cached CSRF
    token) is still in session, with the same two tokens, after any
    sequence of resource calls, which only add exchanges to the log. *)
Theorem resources_keep_tokens (rs : list Resource) (s : State) :
  (is_nullish (farm_csrfToken s) = false ->
   farm_csrfToken (run_resources E rs s) = farm_csrfToken s
   /\ csrf_fetches E (history (run_resources E rs s))
      = csrf_fetches E (history s))
  /\ (forall a c,
        session E s a c ->
        session E (run_resources E rs s) a c
        /\ farm_token (run_resources E rs s) = farm_token s
        /\ exists evs,
             history (run_resources E rs s) = (history s ++ evs)%list).
Proof.
  split.
  - revert s. induction rs as [|r rs IH]; intros s Hs; cbn [run_resources].
    + now split.
    + destruct (keeps_run_resource r s Hs) as [H1 H2].
      destruct (IH (snd (run_resource E r s))) as [H3 H4]; [congruence|].
      split; congruence.
  - intros a c. revert s.
    induction rs as [|r rs IH]; intros s Hs; cbn [run_resources].
    + split; [exact Hs|]. split; [reflexivity|]. exists [].
      now rewrite app_nil_r.
    + destruct (quiet_run_resource a c r s Hs) as [evs1 Hext].
      pose proof (session_extends E a c _ _ _ Hs Hext) as Hs1.
      destruct (IH _ Hs1) as (Hs2 & Htok & evs2 & Hh).
      destruct Hext as (Ht1 & _ & Hh1).
      split; [exact Hs2|]. split; [congruence|].
      exists (evs1 ++ evs2)%list. now rewrite Hh, Hh1, app_assoc.
Qed.

End Resources.

(** ** Vocabulary lookup *)

Lemma areaVid_list (items : list Json) :
  areaVid (vocabularies items) =
  match js_find
          (fun voc =>
             match js_get voc "machine_name" with
             | inl e => inl e
             | inr name => inr (strict_eq_str name "farm_areas")
             end) items with
  | inl e => inl e
  | inr found => js_get found "vid"
  end.
Proof. reflexivity. Qed.

(** X9. [areaVid] takes the [vid] of the first vocabulary named
    ['farm_areas'], whatever follows it in the list; when the list holds
    no such vocabulary it raises a [TypeError] (it does not return
    [undefined]). *)
Theorem areaVid_first_match (before after : list Json) (voc : Json) :
  Forall other_vocabulary before ->
  (js_get voc "machine_name" = inr (JStr "farm_areas") ->
   areaVid (vocabularies (before ++ voc :: after)) = js_get voc "vid")
  /\ areaVid (vocabularies before)
     = inl (TypeError "Cannot read properties of undefined").
Proof.
  intros Hbefore.
  assert (Hfind : forall rest,
             js_find
               (fun voc =>
                  match js_get voc "machine_name" with
                  | inl e => inl e
                  | inr name => inr (strict_eq_str name "farm_areas")
                  end) (before ++ rest)
             = js_find
                 (fun voc =>
                    match js_get voc "machine_name" with
                    | inl e => inl e
                    | inr name => inr (strict_eq_str name "farm_areas")
                    end) rest).
  { intros rest. induction Hbefore as [|x l (name & Hn & Hne) _ IH];
      [reflexivity|].
    cbn [app js_find]. now rewrite Hn, Hne. }
  split.
  - intros Hvoc. rewrite areaVid_list, Hfind. cbn [js_find].
    rewrite Hvoc. reflexivity.
  - rewrite areaVid_list. rewrite <- (app_nil_r before), Hfind.
    reflexivity.
Qed.

Lemma areaVid_first_match_witness :
  areaVid
    (vocabularies
       [JObj [("machine_name", JStr "farm_crops"); ("vid", JNum 1)];
        JObj [("machine_name", JStr "farm_areas"); ("vid", JNum 3)];
        JObj [("machine_name", JStr "farm_areas"); ("vid", JNum 8)]])
  = inr (JNum 3)
  /\ areaVid
       (vocabularies
          [JObj [("machine_name", JStr "farm_crops"); ("vid", JNum 1)]])
     = inl (TypeError "Cannot read properties of undefined").
Proof.
  assert (H : Forall other_vocabulary
                [JObj [("machine_name", JStr "farm_crops"); ("vid", JNum 1)]]).
  { constructor; [|constructor]. exists (JStr "farm_crops"). now split. }
  split.
  - exact (proj1 (areaVid_first_match _
                    [JObj [("machine_name", JStr "farm_areas");
                           ("vid", JNum 8)]]
                    (JObj [("machine_name", JStr "farm_areas");
                           ("vid", JNum 3)]) H) eq_refl).
  - exact (proj2 (areaVid_first_match _ [] JNull H)).
Defined.

(** ** Sending and reading logs and assets *)

Section Logs2.

Variable E : Env.

Lemma assoc_set_field_other (k k' : string) (v : Json)
  (fields : list (string * Json)) :
  k <> k' -> assoc k (set_field k' v fields) = assoc k fields.
Proof.
  intros Hk. induction fields as [|[k0 v0] rest IH]; cbn.
  - now rewrite (proj2 (String.eqb_neq k k') Hk).
  - destruct (String.eqb k' k0) eqn:H0; cbn.
    + apply String.eqb_eq in H0. subst k0.
      now rewrite (proj2 (String.eqb_neq k k') Hk).
    + now rewrite IH.
Qed.

Lemma js_get_field (k : string) (fields : list (string * Json)) :
  js_get (JObj fields) k = inr (field k fields).
Proof. unfold js_get, field. now destruct (assoc k fields). Qed.

(** X10. [log.send(payload)] with a truthy [payload.id] is a PUT to
    [/log/{id}]; when it is fulfilled with [res], the result is [res]
    spread into a new object whose [id] is the id of the payload
    (whatever the server sent), whose [uri] is [{host}/log/{id}] and
    whose [resource] is ['log'], every other property being that of
    [res]; a rejection is passed on. With a falsy id ([undefined],
    [null], [0], ['']) it is the POST to [/log], result unchanged. *)
Theorem log_send_spec (payload id : Json) (s : State) :
  js_get payload "id" = inr id ->
  (truthy id = false ->
   log_send E payload s = request E "/log" "POST" payload s)
  /\ (truthy id = true ->
      (forall e s1,
          request E ("/log/" ++ to_string id) "PUT" payload s
          = (Rejected e, s1) ->
          log_send E payload s = (Rejected e, s1))
      /\ (forall res s1,
            request E ("/log/" ++ to_string id) "PUT" payload s
            = (Fulfilled res, s1) ->
            let result := log_put_result E id res in
            log_send E payload s = (Fulfilled result, s1)
            /\ js_get result "id" = inr id
            /\ js_get result "uri"
               = inr (JStr (host E ++ "/log/" ++ to_string id))
            /\ js_get result "resource" = inr (JStr "log")
            /\ forall k,
                 k <> "id" -> k <> "uri" -> k <> "resource" ->
                 js_get result k = inr (field k (spread res)))).
Proof.
  intros Hid. split.
  - intros Hf. unfold log_send, bind, lift. rewrite Hid. cbn [ret].
    now rewrite Hf.
  - intros Ht. split.
    + intros e s1 Hreq. unfold log_send, bind, lift. rewrite Hid. cbn [ret].
      rewrite Ht. now apply then_rejected.
    + intros res s1 Hreq result. split; [|split; [|split; [|split]]].
      * unfold log_send, bind, lift. rewrite Hid. cbn [ret]. rewrite Ht.
        now rewrite (then_fulfilled _ _ _ _ _ Hreq).
      * unfold result, log_put_result. cbn [js_get].
        rewrite !assoc_set_field_other by discriminate.
        now rewrite assoc_set_field.
      * unfold result, log_put_result. cbn [js_get].
        rewrite !assoc_set_field_other by discriminate.
        now rewrite assoc_set_field.
      * unfold result, log_put_result. cbn [js_get].
        now rewrite assoc_set_field.
      * intros k H1 H2 H3. unfold result, log_put_result, field.
        cbn [js_get]. rewrite !assoc_set_field_other by assumption.
        now destruct (assoc k (spread res)).
Qed.

(** X11. [log.get(opts)] with an options object whose [type] is set
    but is not an array throws a [TypeError] at once: nothing is sent,
    and no promise is returned. *)
Theorem log_get_type_must_be_array (fuel : nat)
  (fields : list (string * Json)) (s : State) :
  field "type" fields <> JUndefined ->
  (forall items, field "type" fields <> JArr items) ->
  exists message,
    log_get E fuel (JObj fields) s = (Threw (TypeError message), s).
Proof.
  intros Hdef Harr. unfold log_get. cbn [default_arg is_undefined].
  rewrite !js_get_field. unfold bind, lift. cbn [ret].
  unfold appendArrayOfParams.
  destruct (field "type" fields) as [| |b|n|str|items|fs];
    try contradiction; try (now destruct (Harr items)); cbn; eauto.
Qed.

(** X12. [log.get(opts)] with an options object whose [type] is an
    array or unset builds its query from [type], [done], [log_owner]
    and [page], in that order, leaving out what is [undefined]. With a
    [page] it is one [request] of that query; without, the walk over all
    pages of it. When keys and rendered values are clean, the query
    reads back as exactly those pairs. *)
Theorem log_get_query (fuel : nat) (fields : list (string * Json)) :
  let type := field "type" fields in
  let done := field "done" fields in
  let log_owner := field "log_owner" fields in
  let page := field "page" fields in
  let ops := [AppendArrayOfParams "type" (elements type);
              AppendParam "done" done;
              AppendParam "log_owner" log_owner;
              AppendParam "page" page] in
  type = JUndefined \/ type = JArr (elements type) ->
  forallb clean ops = true ->
  exists suffix,
    query_pairs suffix = flat_map pairs_of ops
    /\ log_get E fuel (JObj fields) =
       if is_undefined page
       then requestAll E fuel ("/log.json?" ++ suffix) 0 []
       else request_get E ("/log.json?" ++ suffix).
Proof.
  intros type done log_owner page ops Htype Hclean.
  destruct (apply_all_reads_back "/log.json?" ops Hclean)
    as (suffix & Hrun & Hpairs).
  exists suffix. split; [exact Hpairs|].
  unfold log_get. cbn [default_arg is_undefined].
  rewrite !js_get_field. fold type done log_owner page.
  unfold bind at 1 2 3 4, lift at 1 2 3 4. cbn [ret].
  assert (Harr : appendArrayOfParams "type" type "/log.json?"
                 = appendArrayOfParams "type" (JArr (elements type))
                     "/log.json?").
  { destruct Htype as [-> | <-]; reflexivity. }
  rewrite Harr.
  subst ops. cbn [apply_all run_append] in Hrun.
  destruct (appendArrayOfParams "type" (JArr (elements type)) "/log.json?")
    as [e|withType]; [discriminate|].
  unfold bind, lift. cbn [ret].
  destruct (is_undefined page) eqn:Hp.
  - cbn [negb]. destruct page; try discriminate.
    unfold appendParam in Hrun at 1. cbn [is_undefined negb] in Hrun.
    rewrite andb_false_r in Hrun. injection Hrun as ->. reflexivity.
  - cbn [negb]. injection Hrun as ->. reflexivity.
Qed.

End Logs2.

Lemma log_get_query_witness :
  let E0 := demo counting_server in
  exists suffix,
    query_pairs suffix
    = [("type[0]", "farm_harvest"); ("done", "1"); ("page", "2")]
    /\ log_get E0 1
         (JObj [("page", JNum 2); ("done", JNum 1);
                ("type", JArr [JStr "farm_harvest"])])
       = request_get E0 ("/log.json?" ++ suffix).
Proof.
  intros E0.
  destruct (log_get_query E0 1
              [("page", JNum 2); ("done", JNum 1);
               ("type", JArr [JStr "farm_harvest"])])
    as (suffix & Hp & Hrun).
  - right. reflexivity.
  - reflexivity.
  - exists suffix. split; [exact Hp | exact Hrun].
Defined.

Lemma log_send_spec_witness :
  let E0 := demo (constant_server (JObj [("id", JNum 99); ("ok", JBool true)])) in
  log_send E0 (JObj [("id", JNum 0); ("name", JStr "x")]) session_state
  = request E0 "/log" "POST" (JObj [("id", JNum 0); ("name", JStr "x")])
      session_state
  /\ fst (log_send E0 (JObj [("id", JNum 7); ("name", JStr "y")]) session_state)
     = Fulfilled
         (JObj [("id", JNum 7); ("ok", JBool true);
                ("uri", JStr "http://farm.test/log/7");
                ("resource", JStr "log")])
  /\ fst (log_send (demo failing_server) (JObj [("id", JNum 7)]) session_state)
     = Rejected (Failure (JStr "Service Unavailable")).
Proof.
  intros E0. split; [|split].
  - exact (proj1 (log_send_spec E0 (JObj [("id", JNum 0); ("name", JStr "x")])
                    (JNum 0) session_state eq_refl) eq_refl).
  - destruct (log_send_spec E0 (JObj [("id", JNum 7); ("name", JStr "y")])
                (JNum 7) session_state eq_refl) as [_ H].
    destruct (H eq_refl) as [_ Hok].
    destruct (Hok (JObj [("id", JNum 99); ("ok", JBool true)])
                (snd (request E0 "/log/7" "PUT"
                        (JObj [("id", JNum 7); ("name", JStr "y")])
                        session_state)) eq_refl) as [Hrun _].
    now rewrite Hrun.
  - destruct (log_send_spec (demo failing_server) (JObj [("id", JNum 7)])
                (JNum 7) session_state eq_refl) as [_ H].
    destruct (H eq_refl) as [Hfail _].
    now rewrite (Hfail (Failure (JStr "Service Unavailable"))
                   (snd (request (demo failing_server) "/log/7" "PUT"
                           (JObj [("id", JNum 7)]) session_state)) eq_refl).
Defined.

Lemma log_get_type_must_be_array_witness :
  exists message,
    log_get (demo counting_server) 1 (JObj [("type", JStr "farm_harvest")])
      session_state
    = (Threw (TypeError message), session_state).
Proof.
  apply (log_get_type_must_be_array (demo counting_server) 1
           [("type", JStr "farm_harvest")] session_state); discriminate.
Defined.

(** ** Edges of the pagination walk *)

Section WalkEdges.

Variable E : Env.

(** X13. A [last] URL without a [page] parameter reads as page 0
    ([+null] is [0]): in session, the walk from page 0 then resolves
    after its first request with the list of that one page, however
    many pages the server holds. *)
Theorem requestAll_missing_page_parameter (a c : Json) (fuel : nat)
  (url : string) (acc : list Json) (s : State) (body last items : Json)
  (ps : list (string * string)) :
  session E s a c ->
  axios E (history s) (page_url E url 0) (request_opts E "GET" (JStr "") a c)
  = inr body ->
  js_get body "last" = inr last ->
  URL_searchParams E (to_string last) = Some ps ->
  searchParams_get "page" ps = None ->
  js_get body "list" = inr items ->
  requestAll E (S fuel) url 0 acc s =
  (Fulfilled (list_result (array_concat acc items)),
   log_event
     (Http (page_url E url 0) (request_opts E "GET" (JStr "") a c) (inr body))
     s).
Proof.
  intros Hs Hbody Hlast Hurl Hpage Hitems.
  rewrite (requestAll_step E a c) by exact Hs. cbv zeta. rewrite Hbody.
  unfold lastPage_of. rewrite Hlast, Hurl, Hpage. cbn [unary_plus].
  now rewrite Hitems.
Qed.

(** X14. A response from which no last page can be read rejects the
    walk at once, after that one request, with the error of the
    reading: a [TypeError] for a [null] body, and [Invalid URL] for a
    body whose [last] is missing or no URL. *)
Theorem requestAll_unreadable_last (a c : Json) (fuel : nat) (url : string)
  (page : nat) (acc : list Json) (s : State) (body : Json) (e : JsError) :
  session E s a c ->
  axios E (history s) (page_url E url page)
    (request_opts E "GET" (JStr "") a c) = inr body ->
  lastPage_of E body = inl e ->
  requestAll E (S fuel) url page acc s =
  (Rejected e,
   log_event
     (Http (page_url E url page) (request_opts E "GET" (JStr "") a c)
        (inr body)) s)
  /\ (forall last,
        js_get body "last" = inr last ->
        URL_searchParams E (to_string last) = None ->
        e = TypeError "Invalid URL").
Proof.
  intros Hs Hbody He. split.
  - rewrite (requestAll_step E a c) by exact Hs. cbv zeta.
    now rewrite Hbody, He.
  - intros last Hlast Hurl. unfold lastPage_of in He.
    rewrite Hlast, Hurl in He. now injection He as <-.
Qed.

(** A walk whose request fails after the pages of [pages], none of
    which is the last. *)
Lemma requestAll_fails_after (url : string) (pages : list Json) :
  forall (page : nat) (acc : list Json) (states : nat -> State) (fuel : nat)
         (e : JsError) (failed : State),
    (forall k body,
        nth_error pages k = Some body ->
        request_get E (url ++ "&page=" ++ string_of_nat (page + k)) (states k)
        = (Fulfilled body, states (S k))
        /\ (exists items, js_get body "list" = inr items)
        /\ exists lastPage,
             lastPage_of E body = inr lastPage
             /\ page_is (page + k) lastPage = false) ->
    request_get E (url ++ "&page=" ++ string_of_nat (page + length pages))
      (states (length pages)) = (Rejected e, failed) ->
    length pages < fuel ->
    requestAll E fuel url page acc (states 0) = (Rejected e, failed).
Proof.
  induction pages as [|body rest IH];
    intros page acc states fuel e failed Hpages Hfail Hfuel;
    (destruct fuel as [|fuel]; [cbn in Hfuel; lia|]); cbn [requestAll].
  - cbn [length] in Hfail. rewrite Nat.add_0_r in Hfail.
    unfold catch_. now rewrite (then_rejected _ _ _ _ _ Hfail).
  - destruct (Hpages 0 body eq_refl)
      as (Hreq & [items Hitems] & lastPage & Hlast & Hnot).
    rewrite Nat.add_0_r in Hreq, Hnot.
    unfold catch_ at 1, then_ at 1. rewrite Hreq.
    unfold bind at 1, lift at 1. rewrite Hlast. cbn [ret]. rewrite Hnot.
    unfold bind at 1, lift at 1. rewrite Hitems. cbn [ret].
    rewrite (IH (page + 1) (array_concat acc items) (fun k => states (S k))
               fuel e failed).
    + reflexivity.
    + intros k b Hk. replace (page + 1 + k) with (page + S k) by lia.
      now apply Hpages.
    + cbn [length] in Hfail.
      now replace (page + 1 + length rest) with (page + S (length rest)) by lia.
    + cbn [length] in Hfuel. lia.
Qed.

(** X15. When a request of the walk is rejected, after any number of
    pages that were not the last, [requestAll(url)] rejects with that
    very error: the lists of the pages fetched so far are lost, and no
    further request is made. *)
Theorem requestAll_fails_midway (url : string) (pages : list Json)
  (states : nat -> State) (fuel : nat) (e : JsError) (failed : State) :
  (forall k body,
      nth_error pages k = Some body ->
      request_get E (url ++ "&page=" ++ string_of_nat k) (states k)
      = (Fulfilled body, states (S k))
      /\ (exists items, js_get body "list" = inr items)
      /\ exists lastPage,
           lastPage_of E body = inr lastPage
           /\ page_is k lastPage = false) ->
  request_get E (url ++ "&page=" ++ string_of_nat (length pages))
    (states (length pages)) = (Rejected e, failed) ->
  length pages < fuel ->
  requestAll E fuel url 0 [] (states 0) = (Rejected e, failed).
Proof.
  intros Hpages Hfail Hfuel.
  exact (requestAll_fails_after url pages 0 [] states fuel e failed
           Hpages Hfail Hfuel).
Qed.

End WalkEdges.

(** ** Edges of the batch walk *)

Section BatchEdges.

Variable E : Env.
Variables accessToken csrfToken : Json.

Local Abbreviation in_session s := (session E s accessToken csrfToken).
Local Abbreviation get_opts :=
  (request_opts E "GET" (JStr "") accessToken csrfToken).

(** X16. When the first request of a batch walk is rejected,
    [batchRequest] rejects with that error and sends nothing more,
    however many batches were still to go. *)
Theorem batchRequest_first_failure (name : string) (arr : list Json)
  (endpoint : string) (results : Json) (s : State) (e : JsError) :
  in_session s ->
  let url := host E ++ array_query name (hd [] (batches arr)) endpoint in
  axios E (history s) url get_opts = inl e ->
  batchRequest E name arr endpoint results s =
  (Rejected e, log_event (Http url get_opts (inl e)) s).
Proof.
  intros Hs url Hfail. subst url.
  destruct (le_gt_dec (length arr) 100) as [Hle|Hgt].
  - rewrite batches_small in * by exact Hle. cbn [hd] in *.
    rewrite batchRequest_small by exact Hle. cbv zeta.
    unfold bind at 1. cbn [appendArrayOfParams is_undefined negb lift ret].
    fold (array_query name arr endpoint).
    unfold catch_, then_, request_get.
    rewrite (request_session E accessToken csrfToken _ _ _ s Hs).
    now rewrite Hfail.
  - rewrite batches_large in * by exact Hgt. cbn [hd] in *.
    rewrite batchRequest_large by exact Hgt. cbv zeta.
    unfold bind at 1. cbn [appendArrayOfParams is_undefined negb lift ret].
    fold (array_query name (slice 0 99 arr) endpoint).
    unfold catch_, then_, request_get.
    rewrite (request_session E accessToken csrfToken _ _ _ s Hs).
    now rewrite Hfail.
Qed.

Lemma length_slice_99 (arr : list Json) :
  length arr > 100 -> length (slice 0 99 arr) = 99.
Proof.
  intros H. unfold slice. cbn [skipn]. rewrite length_firstn. lia.
Qed.

(** X17. No batch holds more than 100 elements, every batch but the
    last holds exactly 99, and when the array has at least two elements
    so does every batch. *)
Theorem batches_bounds (arr : list Json) :
  Forall (fun b => length b <= 100) (batches arr)
  /\ (forall i, S i < length (batches arr) ->
        length (nth i (batches arr) []) = 99)
  /\ (2 <= length arr -> Forall (fun b => 2 <= length b) (batches arr)).
Proof.
  remember (length arr) as n eqn:Hn. revert arr Hn.
  induction n as [n IH] using lt_wf_ind. intros arr Hn.
  destruct (le_gt_dec n 100) as [Hle|Hgt].
  - rewrite batches_small by lia. split; [|split].
    + constructor; [lia | constructor].
    + intros i Hi. cbn in Hi. lia.
    + intros H2. constructor; [lia | constructor].
  - rewrite batches_large by lia.
    destruct (IH (n - 99) ltac:(lia) (slice_from 99 arr))
      as (H1 & H2 & H3); [rewrite length_slice_from; lia|].
    split; [|split].
    + constructor; [rewrite length_slice_99; lia | exact H1].
    + intros [|i] Hi; cbn [nth length] in *.
      * apply length_slice_99. lia.
      * apply H2. lia.
    + intros _. constructor; [rewrite length_slice_99; lia|].
      apply H3. lia.
Qed.

Lemma last_two_cons {A : Type} (x : A) (l : list A) :
  2 <= length l -> last_two (x :: l) = last_two l.
Proof.
  intros H. unfold last_two. cbn [length].
  replace (S (length l) - 2) with (S (length l - 2)) by lia. reflexivity.
Qed.

Lemma batch_result_long (name endpoint : string) (n : nat) :
  forall (arr : list Json) (results0 : Json) (s : State),
    length arr = n ->
    n > 100 ->
    in_session s ->
    serves_lists E ->
    exists evs,
      history (snd (batchRequest E name arr endpoint results0 s))
      = (history s ++ evs)%list
      /\ 2 <= length evs
      /\ fst (batchRequest E name arr endpoint results0 s)
         = Fulfilled (list_result (concat (map event_list (last_two evs)))).
Proof.
  induction n as [n IH] using lt_wf_ind.
  intros arr results0 s Hn Hgt Hs Hsrv.
  rewrite (batch_more E accessToken csrfToken) by (auto; lia). cbv zeta.
  set (ev1 := Http _ _ _). set (s1 := log_event ev1 s).
  assert (Hs1 : in_session s1) by now apply session_log.
  destruct (le_gt_dec (length (slice_from 99 arr)) 100) as [Hle|Hgt2].
  - rewrite (batch_last E accessToken csrfToken name (slice_from 99 arr)
               endpoint (JArr (event_list ev1)) (event_list ev1) s1 Hs1 Hsrv
               Hle eq_refl).
    set (ev2 := Http (host E ++ array_query name (slice_from 99 arr) endpoint)
                  _ _).
    exists [ev1; ev2]. cbn [adopt fst snd]. split; [|split].
    + subst s1. cbn. now rewrite <- app_assoc.
    + cbn. lia.
    + unfold last_two. cbn [length Nat.sub skipn map concat].
      now rewrite app_nil_r.
  - destruct (IH (length (slice_from 99 arr))
                ltac:(rewrite length_slice_from; lia)
                (slice_from 99 arr) (JArr (event_list ev1)) s1 eq_refl
                Hgt2 Hs1 Hsrv) as (evs & Hh & Hlen & Hres).
    exists (ev1 :: evs).
    destruct (batchRequest E name (slice_from 99 arr) endpoint _ s1)
      as [[b|e|b|e|] s2]; cbn [adopt fst snd] in *; try discriminate.
    split; [|split].
    + rewrite Hh. subst s1. cbn. now rewrite <- app_assoc.
    + cbn [length]. lia.
    + now rewrite last_two_cons.
Qed.

(** X18. In session, with a server that answers every request with a
    list, the result of [batchRequest] on more than 100 elements is the
    object whose [list] is the concatenation of the lists of the last
    two responses: each request hands on only the list of its own
    response. *)
Theorem batchRequest_result (name : string) (arr : list Json)
  (endpoint : string) (s : State) :
  in_session s ->
  serves_lists E ->
  100 < length arr ->
  let run := batchRequest E name arr endpoint JUndefined s in
  exists evs,
    history (snd run) = (history s ++ evs)%list
    /\ 2 <= length evs
    /\ fst run
       = Fulfilled (list_result (concat (map event_list (last_two evs)))).
Proof.
  intros Hs Hsrv Hlen run.
  exact (batch_result_long name endpoint (length arr) arr JUndefined s
           eq_refl Hlen Hs Hsrv).
Qed.

End BatchEdges.

(** ** Queries of assets and terms *)

Section Queries.

Variable E : Env.

Lemma query_pairs_amp (s t : string) :
  query_pairs (s ++ String "&"%char t)
  = (query_pairs s ++ query_pairs t)%list.
Proof.
  unfold query_pairs. now rewrite split_on_append, filter_app, map_app.
Qed.

Lemma query_pairs_single (k v : string) :
  contains "&"%char k = false ->
  contains "="%char k = false ->
  contains "&"%char v = false ->
  query_pairs (k ++ String "="%char v) = [(k, v)].
Proof.
  intros Hk1 Hk2 Hv. unfold query_pairs. rewrite split_on_absent.
  - assert (Hne : nonempty (k ++ String "="%char v) = true) by now destruct k.
    cbn [filter]. rewrite Hne. cbn [map]. now rewrite split_pair_append.
  - rewrite contains_append. cbn [contains]. now rewrite Hk1, Hv.
Qed.

Lemma destructure_field (k : string) (fields : list (string * Json))
  (dflt : Json) :
  destructure (JObj fields) k dflt = inr (default_arg (field k fields) dflt).
Proof. unfold destructure. now rewrite js_get_field. Qed.

(** X19. [asset.get(opts)] with an options object asks for the pairs
    [type] (unless it is [''], the default), [archived=0] (unless
    [opts.archived] is truthy: archived assets are left out by default)
    and [page] (unless it is [null], the default), in that order: with
    a page as one [request], without as the walk over all pages. When
    the rendered type and page hold no ['&'], the query reads back as
    exactly those pairs. *)
Theorem asset_get_query (fuel : nat) (fields : list (string * Json)) :
  let type := default_arg (field "type" fields) (JStr "") in
  let archived := default_arg (field "archived" fields) (JBool false) in
  let page := default_arg (field "page" fields) JNull in
  contains "&"%char (to_string type) = false ->
  contains "&"%char (to_string page) = false ->
  exists q,
    query_pairs q =
    ((if strict_eq_str type "" then [] else [("type", to_string type)])
       ++ (if truthy archived then [] else [("archived", "0")])
       ++ (if is_null page then [] else [("page", to_string page)]))%list
    /\ asset_get E fuel (JObj fields) =
       if is_null page
       then requestAll E fuel ("/farm_asset.json?" ++ q) 0 []
       else request_get E ("/farm_asset.json?" ++ q).
Proof.
  intros type archived page Htype Hpage.
  exists ((if negb (strict_eq_str type "")
           then "type=" ++ to_string type else "")
          ++ (if truthy archived then "" else "&archived=0")
          ++ (if negb (is_null page) then "&page=" ++ to_string page else "")).
  split.
  - destruct (strict_eq_str type ""), (truthy archived), (is_null page);
      cbn [negb app];
      repeat match goal with
        | |- context [?s ++ ""] => rewrite (append_nil_r s)
        end;
      try reflexivity.
    + change (query_pairs ("" ++ String "&"%char ("page" ++ String "="%char (to_string page)))
              = [("page", to_string page)]).
      rewrite query_pairs_amp, query_pairs_single by (reflexivity || exact Hpage).
      reflexivity.
    + change (query_pairs
                ("" ++ String "&"%char
                   ("archived=0" ++ String "&"%char
                      ("page" ++ String "="%char (to_string page))))
              = [("archived", "0"); ("page", to_string page)]).
      rewrite !query_pairs_amp, query_pairs_single
        by (reflexivity || exact Hpage).
      reflexivity.
    + change (query_pairs ("type" ++ String "="%char (to_string type))
              = [("type", to_string type)]).
      now rewrite query_pairs_single.
    + change (query_pairs
                (("type" ++ String "="%char (to_string type))
                   ++ String "&"%char
                        ("page" ++ String "="%char (to_string page)))
              = [("type", to_string type); ("page", to_string page)]).
      rewrite query_pairs_amp, !query_pairs_single
        by (reflexivity || assumption).
      reflexivity.
    + change (query_pairs
                (("type" ++ String "="%char (to_string type))
                   ++ String "&"%char "archived=0")
              = [("type", to_string type); ("archived", "0")]).
      rewrite query_pairs_amp, query_pairs_single
        by (reflexivity || assumption).
      reflexivity.
    + change (query_pairs
                (("type" ++ String "="%char (to_string type))
                   ++ String "&"%char
                        ("archived=0" ++ String "&"%char
                           ("page" ++ String "="%char (to_string page))))
              = [("type", to_string type); ("archived", "0");
                 ("page", to_string page)]).
      rewrite !query_pairs_amp, !query_pairs_single
        by (reflexivity || assumption).
      reflexivity.
  - unfold asset_get. cbn [default_arg is_undefined].
    rewrite !destructure_field. fold type archived page.
    unfold bind, lift. cbn [ret].
    destruct (is_null page); cbn [negb]; [|reflexivity].
    now rewrite append_nil_r.
Qed.

(** X20. [term.get(opts)] with a string is the walk over all pages of
    [/taxonomy_term.json?bundle={opts}]. With an options object it
    builds its query from [name], [vocabulary] and [page], in that
    order, leaving out what is [undefined]: with a [page] it is one
    [request], without, the walk over all pages. When keys and rendered
    values are clean, the query reads back as exactly those pairs. *)
Theorem term_get_query (fuel : nat) :
  (forall bundle,
      term_get E fuel (JStr bundle) =
      requestAll E fuel ("/taxonomy_term.json?bundle=" ++ bundle) 0 [])
  /\ forall fields,
       let name := field "name" fields in
       let vocabulary := field "vocabulary" fields in
       let page := field "page" fields in
       let ops := [AppendParam "name" name;
                   AppendParam "vocabulary" vocabulary;
                   AppendParam "page" page] in
       forallb clean ops = true ->
       exists suffix,
         query_pairs suffix = flat_map pairs_of ops
         /\ term_get E fuel (JObj fields) =
            if is_undefined page
            then requestAll E fuel ("/taxonomy_term.json?" ++ suffix) 0 []
            else request_get E ("/taxonomy_term.json?" ++ suffix).
Proof.
  split; [reflexivity|].
  intros fields name vocabulary page ops Hclean.
  destruct (apply_all_reads_back "/taxonomy_term.json?" ops Hclean)
    as (suffix & Hrun & Hpairs).
  exists suffix. split; [exact Hpairs|].
  unfold term_get. cbn [default_arg is_undefined].
  rewrite !js_get_field. fold name vocabulary page.
  unfold bind, lift. cbn [ret].
  subst ops. cbn [apply_all run_append] in Hrun.
  destruct (is_undefined page) eqn:Hp.
  - destruct page; try discriminate.
    unfold appendParam in Hrun at 1. cbn [is_undefined negb] in Hrun.
    rewrite andb_false_r in Hrun. injection Hrun as ->. reflexivity.
  - injection Hrun as ->. reflexivity.
Qed.

End Queries.

(** ** The resource calls that are one request *)

Section SingleRequests.

Variable E : Env.

(** X21. In session, each of [asset.get(n)], [asset.delete], [asset.send],
    [info], [log.delete], [term.send] and [vocabulary] is exactly one
    exchange, with the method and URL given here, and settles as the
    server answers: the body of a response is returned unchanged, an
    error rejects. The GET and DELETE calls carry no body; the POST and
    PUT calls carry the serialized payload, which for a call without a
    payload ([asset.send()]) is the serialization of [''], the default
    of [request]. *)
Theorem single_request_resources (a c : Json) (s : State) :
  session E s a c ->
  let sent (meth url : string) (payload : Json) :=
    let opts := request_opts E meth payload a c in
    let r := axios E (history s) (host E ++ url) opts in
    (settle r, log_event (Http (host E ++ url) opts r) s) in
  (forall fuel n,
      asset_get E fuel (JNum n) s
      = sent "GET" ("/farm_asset/" ++ to_string (JNum n) ++ ".json") (JStr ""))
  /\ (forall id,
        asset_delete E id s
        = sent "DELETE" ("/farm_asset/" ++ to_string id ++ ".json") (JStr ""))
  /\ (forall payload id,
        asset_send E payload id s
        = sent "POST"
            (if truthy id then "/farm_asset/" ++ to_string id ++ ".json"
             else "/farm_asset.json") payload)
  /\ info E s = sent "GET" "/farm.json" (JStr "")
  /\ (forall id,
        log_delete E id s
        = sent "DELETE" ("/log/" ++ to_string id ++ ".json") (JStr ""))
  /\ (forall fields,
        term_send E (JObj fields) s
        = if truthy (field "tid" fields)
          then sent "PUT"
                 ("/taxonomy_term/" ++ to_string (field "tid" fields))
                 (JObj fields)
          else sent "POST" "/taxonomy_term" (JObj fields))
  /\ (forall machineName,
        vocabulary E machineName s
        = sent "GET"
            (if is_undefined machineName then "/taxonomy_vocabulary.json"
             else "/taxonomy_vocabulary.json?machine_name="
                  ++ to_string machineName) (JStr ""))
  /\ (forall payload,
        data (request_opts E "GET" payload a c) = None
        /\ data (request_opts E "DELETE" payload a c) = None
        /\ data (request_opts E "POST" payload a c)
           = Some (JSON_stringify E (default_arg payload (JStr "")))
        /\ data (request_opts E "PUT" payload a c)
           = Some (JSON_stringify E (default_arg payload (JStr ""))))
  /\ data (request_opts E "POST" JUndefined a c)
     = Some (JSON_stringify E (JStr "")).
Proof.
  intros Hs sent. subst sent. cbv beta.
  repeat split.
  - intros fuel n. unfold asset_get. cbn [default_arg is_undefined].
    unfold request_get. now rewrite (request_session E a c _ _ _ s Hs).
  - intros id. unfold asset_delete.
    now rewrite (request_session E a c _ _ _ s Hs).
  - intros payload id. unfold asset_send, params.
    rewrite (request_session E a c _ _ _ s Hs).
    now destruct (truthy id).
  - unfold info, request_get. now rewrite (request_session E a c _ _ _ s Hs).
  - intros id. unfold log_delete.
    now rewrite (request_session E a c _ _ _ s Hs).
  - intros fields. unfold term_send. rewrite js_get_field.
    unfold bind, lift. cbn [ret].
    destruct (truthy (field "tid" fields));
      now rewrite (request_session E a c _ _ _ s Hs).
  - intros machineName. unfold vocabulary, request_get.
    destruct (is_undefined machineName);
      now rewrite (request_session E a c _ _ _ s Hs).
Qed.

End SingleRequests.

(** ** The extras on concrete clients *)

(** X1 on a client in session whose revocation fails, and on one that
    was never authorized. *)
Lemma logout_forgets_token_witness :
  let E0 := demo_login JNull failing_server in
  farm_token (snd (logout E0 session_state)) = None
  /\ logout E0 fresh_state = (Fulfilled JUndefined, fresh_state).
Proof.
  intros E0.
  destruct (logout_forgets_token E0 session_state) as (H & _).
  destruct (logout_forgets_token E0 fresh_state) as (_ & _ & _ & H2 & _).
  split; [exact H | exact (H2 eq_refl)].
Defined.

(** X2 without a user, with a granted and with a refused password
    request. *)
Lemma authorize_spec_witness :
  let E0 := demo_login (token valid_token) failing_server in
  authorize E0 JNull (JStr "pw") JUndefined fresh_state
  = (Value JUndefined, fresh_state)
  /\ fst (authorize E0 (JStr "u") (JStr "pw") JUndefined fresh_state)
     = Fulfilled (token valid_token)
  /\ fst (authorize (demo failing_server) (JStr "u") (JStr "pw") JUndefined
            fresh_state)
     = Rejected (Failure (JStr "invalid_grant"))
  /\ (fst (authorize (demo_login JNull failing_server) (JStr "u") (JStr "pw")
             JUndefined session_state)
      = Rejected (Error "Cannot create access token without a token to parse")
      /\ farm_token
           (snd (authorize (demo_login JNull failing_server) (JStr "u")
                   (JStr "pw") JUndefined session_state))
         = Some valid_token).
Proof.
  intros E0. split; [|split; [|split]].
  - exact (proj1 (authorize_spec E0 JNull (JStr "pw") JUndefined fresh_state)
             (or_introl eq_refl)).
  - pose proof (proj2 (authorize_spec E0 (JStr "u") (JStr "pw") JUndefined
                         fresh_state) eq_refl eq_refl) as H.
    cbv zeta in H. destruct H as (_ & Hok & _).
    now rewrite (Hok (token valid_token) valid_token eq_refl eq_refl).
  - pose proof (proj2 (authorize_spec (demo failing_server) (JStr "u")
                         (JStr "pw") JUndefined fresh_state)
                  eq_refl eq_refl) as H.
    cbv zeta in H. destruct H as (Hno & _).
    destruct (Hno (Failure (JStr "invalid_grant")) eq_refl) as [Hrun _].
    now rewrite Hrun.
  - pose proof (proj2 (authorize_spec (demo_login JNull failing_server)
                         (JStr "u") (JStr "pw") JUndefined session_state)
                  eq_refl eq_refl) as H.
    cbv zeta in H. destruct H as (_ & _ & Hbad).
    destruct (Hbad JNull _ eq_refl eq_refl) as [Hrun Htok].
    rewrite Hrun. split; [reflexivity | exact Htok].
Defined.

(** X3 on a granted password request. *)
Lemma authorize_then_getAccessToken_witness :
  let E0 := demo_login (token valid_token) failing_server in
  let s' := snd (authorize E0 (JStr "u") (JStr "pw") JUndefined fresh_state) in
  farm_token s' = Some valid_token
  /\ getAccessToken E0 s' = (Fulfilled (JStr "abc"), s')
  /\ getAccessToken E0 (snd (getAccessToken E0 s')) = (Fulfilled (JStr "abc"), s').
Proof.
  intros E0.
  exact (authorize_then_getAccessToken E0 (JStr "u") (JStr "pw") JUndefined
           (token valid_token) (JStr "abc") valid_token fresh_state
           eq_refl eq_refl eq_refl eq_refl (fun _ => eq_refl) eq_refl).
Defined.

(** X4 on a server that answers [null]: two fetches in a row. *)
Lemma null_csrf_is_not_cached_witness :
  let E0 := demo (constant_server JNull) in
  let s1 := snd (getCSRFToken E0 (JStr "abc") authorized_state) in
  fst (getCSRFToken E0 (JStr "abc") authorized_state) = Fulfilled JNull
  /\ map event_url (history (snd (getCSRFToken E0 (JStr "abc") s1)))
     = ["http://farm.test/restws/session/token";
        "http://farm.test/restws/session/token"].
Proof.
  intros E0 s1.
  pose proof (null_csrf_is_not_cached E0 (JStr "abc") JNull authorized_state
                eq_refl eq_refl eq_refl) as H.
  cbv zeta in H. destruct H as [H1 H2].
  split; [exact H1|]. subst s1. rewrite H2. reflexivity.
Defined.

(** X5 on a client right after [authorize]. *)
Lemma first_request_opens_session_witness :
  let E0 := demo (constant_server (JStr "tok")) in
  map event_url
    (history (snd (request E0 "/farm.json" "GET" (JStr "") authorized_state)))
  = ["http://farm.test/restws/session/token"; "http://farm.test/farm.json"].
Proof.
  intros E0.
  pose proof (first_request_opens_session E0 "/farm.json" "GET" (JStr "")
                (JStr "abc") (JStr "tok") valid_token authorized_state
                eq_refl (fun _ => eq_refl) eq_refl eq_refl eq_refl eq_refl)
    as H.
  cbv zeta in H. destruct H as (Hrun & _).
  rewrite Hrun. reflexivity.
Defined.

(** X6 on a token that refreshes and on one that does not. *)
Lemma request_refreshes_token_witness :
  let E0 := demo (constant_server (JStr "ok")) in
  fst (request E0 "/farm.json" "GET" (JStr "") dead_state)
  = Rejected (Failure (JStr "invalid_grant"))
  /\ fst (request E0 "/farm.json" "GET" (JStr "") stale_state)
     = Fulfilled (JStr "ok")
  /\ assoc "Authorization"
       (headers (request_opts E0 "GET" (JStr "") (JStr "renewed-r1")
                   (JStr "csrf-1")))
     = Some (JStr "Bearer renewed-r1").
Proof.
  intros E0.
  pose proof (request_refreshes_token E0 "/farm.json" "GET" (JStr "")
                (JStr "csrf-1") dead_token dead_state
                eq_refl eq_refl eq_refl eq_refl) as Hdead.
  pose proof (request_refreshes_token E0 "/farm.json" "GET" (JStr "")
                (JStr "csrf-1") stale_token stale_state
                eq_refl eq_refl eq_refl eq_refl) as Hstale.
  cbv zeta in Hdead, Hstale.
  destruct Hdead as (Hfail & _). destruct Hstale as (_ & Hok & _).
  destruct (Hok _ _ (JStr "renewed-r1") eq_refl eq_refl eq_refl)
    as [Hrun Hauth].
  split; [|split].
  - now rewrite (Hfail _ eq_refl).
  - now rewrite Hrun.
  - exact Hauth.
Defined.

(** X7 on [log.get([1])] and [log.get([])] by a client that was never
    authorized. *)
Lemma resources_need_token_witness :
  let E0 := demo counting_server in
  let r := LogGet 1 (JArr [JNum 1]) in
  snd (run_resource E0 r fresh_state) = fresh_state
  /\ (exists e,
        fst (run_resource E0 r fresh_state) = Threw e
        /\ (e = Error "client must be authorized before making requests."
            \/ exists message, e = TypeError message))
  /\ fst (run_resource E0 (LogGet 1 (JArr [])) fresh_state)
     = Value (list_result []).
Proof.
  intros E0 r.
  assert (Hfuel : forall opts, resource_fuel (LogGet 1 opts) <> Some 0)
    by (intros opts; discriminate).
  destruct (resources_need_token E0 r fresh_state eq_refl (Hfuel _))
    as (Hsame & Hthrows & _).
  destruct (resources_need_token E0 (LogGet 1 (JArr [])) fresh_state eq_refl
              (Hfuel _)) as (_ & _ & Hvalue).
  split; [exact Hsame|]. split.
  - apply Hthrows. intros fuel. discriminate.
  - exact (Hvalue 1 eq_refl).
Defined.

(** X8 on three calls in a row. *)
Lemma resources_keep_tokens_witness :
  let E0 := demo counting_server in
  let rs := [Info; LogSend (JObj [("id", JNum 7)]); AssetDelete (JNum 1)] in
  farm_csrfToken (run_resources E0 rs session_state) = JStr "csrf-1"
  /\ farm_token (run_resources E0 rs session_state) = Some valid_token.
Proof.
  intros E0 rs.
  destruct (resources_keep_tokens E0 rs session_state) as [H1 H2].
  destruct (H1 eq_refl) as [Hc _].
  destruct (H2 _ _ (session_state_in_session counting_server))
    as (_ & Ht & _).
  split; [exact Hc | exact Ht].
Defined.

(** X13 on a server whose [last] URL carries another parameter only. *)
Lemma requestAll_missing_page_parameter_witness :
  let E0 :=
    demo (constant_server
            (page_body [JNum 1] "http://farm.test/log.json?sort=asc")) in
  fst (requestAll E0 3 "/log.json?" 0 [] session_state)
  = Fulfilled (list_result [JNum 1])
  /\ length (history (snd (requestAll E0 3 "/log.json?" 0 [] session_state)))
     = 1.
Proof.
  intros E0.
  rewrite (requestAll_missing_page_parameter E0 (JStr "abc") (JStr "csrf-1") 2
             "/log.json?" [] session_state
             (page_body [JNum 1] "http://farm.test/log.json?sort=asc")
             (JStr "http://farm.test/log.json?sort=asc") (JArr [JNum 1])
             [("sort", "asc")]
             (session_state_in_session _)
             eq_refl eq_refl eq_refl eq_refl eq_refl).
  split; reflexivity.
Defined.

(** X14 on a server that answers [null], and on one whose [last] is no
    URL. *)
Lemma requestAll_unreadable_last_witness :
  (exists message,
      fst (requestAll (demo (constant_server JNull)) 3 "/log.json?" 0 []
             session_state)
      = Rejected (TypeError message))
  /\ fst (requestAll (demo (constant_server (page_body [] "nowhere"))) 3
            "/log.json?" 0 [] session_state)
     = Rejected (TypeError "Invalid URL").
Proof.
  split.
  - eexists.
    destruct (requestAll_unreadable_last (demo (constant_server JNull))
                (JStr "abc") (JStr "csrf-1") 2 "/log.json?" 0 [] session_state
                JNull _ (session_state_in_session _) eq_refl eq_refl)
      as [Hrun _].
    rewrite Hrun. reflexivity.
  - destruct (requestAll_unreadable_last
                (demo (constant_server (page_body [] "nowhere")))
                (JStr "abc") (JStr "csrf-1") 2 "/log.json?" 0 [] session_state
                (page_body [] "nowhere") _ (session_state_in_session _)
                eq_refl eq_refl)
      as [Hrun _].
    rewrite Hrun. reflexivity.
Defined.

(** X15 on a server that serves the first of two pages and then fails. *)
Lemma requestAll_fails_midway_witness :
  let E0 :=
    demo (scripted_server
            [page_body [JNum 1; JNum 2] "http://farm.test/log.json?&page=1"]) in
  fst (requestAll E0 5 "/log.json?" 0 [] session_state)
  = Rejected (Failure (JStr "Not Found"))
  /\ length (history (snd (requestAll E0 5 "/log.json?" 0 [] session_state)))
     = 2.
Proof.
  intros E0.
  pose (s1 := snd (request_get E0 "/log.json?&page=0" session_state)).
  pose (failed := snd (request_get E0 "/log.json?&page=1" s1)).
  pose (states := fun k : nat => match k with 0 => session_state | _ => s1 end).
  assert (Hrun : requestAll E0 5 "/log.json?" 0 [] (states 0)
                 = (Rejected (Failure (JStr "Not Found")), failed)).
  { apply (requestAll_fails_midway E0 "/log.json?"
             [page_body [JNum 1; JNum 2] "http://farm.test/log.json?&page=1"]
             states 5).
    - intros [|k] body Hk; cbn in Hk; [|destruct k; discriminate].
      injection Hk as <-. split; [vm_compute; reflexivity|].
      split; [eexists; reflexivity|].
      exists (Some 1%Z). split; vm_compute; reflexivity.
    - vm_compute. reflexivity.
    - cbn. lia. }
  cbn [states] in Hrun. rewrite Hrun. split; vm_compute; reflexivity.
Defined.

(** X16 on 250 identifiers sent to a server that is down. *)
Lemma batchRequest_first_failure_witness :
  let run :=
    batchRequest (demo failing_server) "id" (repeat (JNum 7) 250) "/log.json?"
      JUndefined session_state in
  fst run = Rejected (Failure (JStr "Service Unavailable"))
  /\ length (history (snd run)) = 1.
Proof.
  intros run. subst run.
  pose proof (batchRequest_first_failure (demo failing_server) (JStr "abc")
                (JStr "csrf-1") "id" (repeat (JNum 7) 250) "/log.json?"
                JUndefined session_state (Failure (JStr "Service Unavailable"))
                (session_state_in_session _) eq_refl) as H.
  rewrite H. split; reflexivity.
Defined.

(** X17 on 250 identifiers: batches of 99, 99 and 52. *)
Lemma batches_bounds_witness :
  length (nth 0 (batches (repeat (JNum 7) 250)) []) = 99
  /\ length (nth 1 (batches (repeat (JNum 7) 250)) []) = 99
  /\ Forall (fun b => 2 <= length b) (batches (repeat (JNum 7) 250)).
Proof.
  destruct (batches_bounds (repeat (JNum 7) 250)) as (_ & H2 & H3).
  split; [|split].
  - apply H2. vm_compute. lia.
  - apply H2. vm_compute. lia.
  - apply H3. rewrite repeat_length. lia.
Defined.

(** X18 on 200 identifiers sent to the counting server. *)
Lemma batchRequest_result_witness :
  let run :=
    batchRequest (demo counting_server) "id" (repeat (JNum 7) 200) "/log.json?"
      JUndefined session_state in
  exists evs,
    history (snd run) = evs
    /\ fst run
       = Fulfilled (list_result (concat (map event_list (last_two evs)))).
Proof.
  intros run.
  destruct (batchRequest_result (demo counting_server) (JStr "abc")
              (JStr "csrf-1") "id" (repeat (JNum 7) 200) "/log.json?"
              session_state) as (evs & Hh & _ & Hres).
  - apply session_state_in_session.
  - intros h url opts. do 2 eexists. split; reflexivity.
  - rewrite repeat_length. lia.
  - exists evs. split; [exact Hh | exact Hres].
Defined.

(** X19 on a type and a page. *)
Lemma asset_get_query_witness :
  let E0 := demo counting_server in
  exists q,
    query_pairs q = [("type", "animal"); ("archived", "0"); ("page", "2")]
    /\ asset_get E0 1 (JObj [("type", JStr "animal"); ("page", JNum 2)])
       = request_get E0 ("/farm_asset.json?" ++ q).
Proof.
  intros E0.
  exact (asset_get_query E0 1 [("type", JStr "animal"); ("page", JNum 2)]
           eq_refl eq_refl).
Defined.

(** X20 on a vocabulary and a name. *)
Lemma term_get_query_witness :
  let E0 := demo counting_server in
  exists suffix,
    query_pairs suffix = [("name", "Field"); ("vocabulary", "3")]
    /\ term_get E0 1 (JObj [("vocabulary", JNum 3); ("name", JStr "Field")])
       = requestAll E0 1 ("/taxonomy_term.json?" ++ suffix) 0 [].
Proof.
  intros E0.
  destruct (term_get_query E0 1) as [_ H].
  exact (H [("vocabulary", JNum 3); ("name", JStr "Field")] eq_refl).
Defined.

(** X21 on [asset.get(42)] and on [asset.send()] without a payload. *)
Lemma single_request_resources_witness :
  let E0 := demo (constant_server (JObj [("id", JNum 42)])) in
  fst (asset_get E0 1 (JNum 42) session_state)
  = Fulfilled (JObj [("id", JNum 42)])
  /\ map event_url (history (snd (asset_get E0 1 (JNum 42) session_state)))
     = ["http://farm.test/farm_asset/42.json"]
  /\ map (fun ev => match ev with Http _ o _ => data o | _ => None end)
       (history (snd (asset_send E0 JUndefined JUndefined session_state)))
     = [Some (JStr "")].
Proof.
  intros E0.
  pose proof (single_request_resources E0 (JStr "abc") (JStr "csrf-1")
                session_state (session_state_in_session _)) as H.
  cbv zeta in H. destruct H as (Hget & _ & Hsend & _).
  rewrite (Hget 1 42%Z), (Hsend JUndefined JUndefined).
  repeat split; reflexivity.
Defined.
